(** * watgbridge: the WhatsApp/Telegram bridge synchronisation engine

    A shallow embedding of the parts of [src/TelegramBridge.js] and
    [src/telegram/bridge.js] that carry the mapping store, the access
    control gate, the topic lifecycle and the processing queue, together
    with the properties the specification states about them.

    Conventions.
    - JavaScript strings are [string], an element standing for a code
      unit; numbers that the code only uses as integers (message ids,
      topic ids, user ids, millisecond clocks, counters) are [Z].
    - [Map] fields are [gmap], [Set] fields are [gset].
    - The MongoDB collection is the list of its documents, in the order
      [find({}).toArray()] returns them.
    - The result of every call that leaves the process (Telegram, WhatsApp,
      MongoDB, the clock, the configuration) is an argument of the function
      that makes the call.
    - Methods are computations in the monad [M]: they thread the bridge
      object, may throw, and append to a trace of observable events. *)

From Stdlib Require Import ZArith Lia Bool Ascii String.
From stdpp Require Import base option list gmap sets strings pretty.

Local Open Scope string_scope.
Local Open Scope Z_scope.
Local Open Scope list_scope.

(** ** JavaScript string operations used by the bridge *)

Module JS.

(** [s.startsWith(p)] *)
Fixpoint startsWith (p s : string) : bool :=
  match p, s with
  | EmptyString, _ => true
  | String a p', String b s' => if Ascii.eqb a b then startsWith p' s' else false
  | String _ _, EmptyString => false
  end.

(** [s.endsWith(p)] *)
Definition endsWith (p s : string) : bool :=
  startsWith (String.rev p) (String.rev s).

(** [s.includes(p)] *)
Fixpoint includes (p s : string) : bool :=
  startsWith p s ||
  match s with
  | EmptyString => false
  | String _ s' => includes p s'
  end.

(** [s.split(c)[0]]: the part of [s] before the first [c], all of [s]
    when [c] does not occur. *)
Fixpoint before (c : Ascii.ascii) (s : string) : string :=
  match s with
  | EmptyString => EmptyString
  | String a s' => if Ascii.eqb a c then EmptyString else String a (before c s')
  end.

(** [jid.split('@')[0]] *)
Definition phoneOf (jid : string) : string := before "@"%char jid.

(** The class [\d] of a regular expression without the [u] flag. *)
Definition isDigit (a : Ascii.ascii) : bool :=
  let n := Ascii.N_of_ascii a in (48 <=? n)%N && (n <=? 57)%N.

Fixpoint allDigits (s : string) : bool :=
  match s with
  | EmptyString => true
  | String a s' => isDigit a && allDigits s'
  end.

(** [/^\d+$/.test(s)]: one or more digits and nothing else. *)
Definition test_digits (s : string) : bool :=
  match s with
  | EmptyString => false
  | String _ _ => allDigits s
  end.

(** Truthiness of a string value. *)
Definition truthy (s : string) : bool :=
  match s with EmptyString => false | String _ _ => true end.

(** [a || b] on an optional string: the first operand when it is
    present and non-empty, else the second. *)
Definition orElse (a : option string) (b : string) : string :=
  match a with
  | Some s => if truthy s then s else b
  | None => b
  end.

(** Truthiness of an optional string ([undefined] and [""] are falsy). *)
Definition otruthy (a : option string) : bool :=
  match a with Some s => truthy s | None => false end.

Arguments startsWith : simpl never.
Arguments endsWith : simpl never.
Arguments includes : simpl never.
Arguments phoneOf : simpl never.

End JS.

(** ** Documents of the [bridge] collection *)

(** A WhatsApp message key. *)
Record waKey := WaKey {
  remoteJid : string;
  keyId : string;
  fromMe : bool;
  participant : option string
}.

Global Instance waKey_eq_dec : EqDecision waKey.
Proof. solve_decision. Defined.

(** The cached description of a WhatsApp participant. *)
Record userData := UserData {
  name : option string;
  phone : string;
  firstSeen : Z;
  messageCount : Z
}.

Global Instance userData_eq_dec : EqDecision userData.
Proof. solve_decision. Defined.

(** [{ type, data }] records; [DOther] stands for a document of any other
    type, which the loader skips. *)
Inductive doc :=
| DChat (whatsappJid : string) (telegramTopicId : Z) (createdAt lastActivity : Z)
| DUser (whatsappId : string) (u : userData) (lastSeen : Z)
| DContact (cphone cname : string) (updatedAt : Z)
| DMessage (telegramMsgId : Z) (whatsappKey : waKey) (createdAt : Z)
| DEphemeral (chatJid : string) (enabled : bool) (timer : Z)
| DOther (type : string).

(** The filters the bridge passes to [updateOne] and [deleteOne]:
    [{ type: t, 'data.<natural key>': k }]. *)
Inductive filter :=
| FChat (jid : string)
| FUser (id : string)
| FContact (ph : string)
| FMessage (tg : Z).

Definition matches (f : filter) (d : doc) : bool :=
  match f, d with
  | FChat j, DChat j' _ _ _ => bool_decide (j = j')
  | FUser i, DUser i' _ _ => bool_decide (i = i')
  | FContact p, DContact p' _ _ => bool_decide (p = p')
  | FMessage t, DMessage t' _ _ => bool_decide (t = t')
  | _, _ => false
  end.
Arguments matches : simpl never.

Module Collection.

(** [updateOne(f, { $set: { type, data } }, { upsert: true })]: the first
    matching document gets the new [type] and [data]; when none matches
    a new document is inserted. *)
Fixpoint updateOne (f : filter) (d : doc) (c : list doc) : list doc :=
  match c with
  | [] => [d]
  | x :: c' => if matches f x then d :: c' else x :: updateOne f d c'
  end.

(** [deleteOne(f)]: removes the first matching document. *)
Fixpoint deleteOne (f : filter) (c : list doc) : list doc :=
  match c with
  | [] => []
  | x :: c' => if matches f x then c' else x :: deleteOne f c'
  end.

(** The number of documents a filter selects. *)
Definition count (f : filter) (c : list doc) : nat :=
  length (List.filter (matches f) c).
Arguments count : simpl never.

End Collection.

(** ** Observable events *)

Inductive level := Debug | Info | Warn | Error.

(** The in-memory collections of the bridge object. *)
Inductive cache :=
| ChatMappings | UserMappings | ContactMappings | MessageIdMapping
| EphemeralSettings | RateLimiter | GroupParticipants | ProfilePicCache.

(** Where a Telegram call is addressed: the configured forum
    ([config.get('telegram.chatId')]) or the chat an update came from. *)
Inductive chatRef := Forum | Chat (id : Z).

(** What a method does that can be seen from outside it, in program
    order.  A log event carries the constant part of the logged text;
    [ECreateForumTopic] also records the id Telegram answers with, [None]
    when the call fails. *)
Inductive event :=
| ELog (l : level) (text : string)
| EDbFind
| EDbUpdateOne (f : filter) (d : doc)
| EDbDeleteOne (f : filter)
| ECacheSet (c : cache)
| ECacheDelete (c : cache)
| ESendMessage (to : chatRef) (text : string) (thread : option Z)
| EDeleteMessage (to : chatRef) (messageId : Z)
| EPinChatMessage (messageId : Z)
| ESendPhoto (thread : Z) (caption : string)
| EAnswerCallbackQuery (queryId : string) (text : string) (showAlert : bool)
| ECreateForumTopic (topicName : string) (iconColor : Z) (created : option Z)
| EEditForumTopic (topicId : Z) (topicName : string)
| EGroupMetadata (jid : string)
| EFetchStatus (jid : string)
| EProfilePictureUrl (jid : string)
| EHandleCommand (text : string)
| EHandleTelegramMessage (thread : option Z)
| EHandleCallbackQuery (data : string)
| EHandleMessageReaction (messageId : Z).

Global Instance level_eq_dec : EqDecision level.
Proof. solve_decision. Defined.
Global Instance cache_eq_dec : EqDecision cache.
Proof. solve_decision. Defined.
Global Instance chatRef_eq_dec : EqDecision chatRef.
Proof. solve_decision. Defined.
Global Instance doc_eq_dec : EqDecision doc.
Proof. solve_decision. Defined.
Global Instance filter_eq_dec : EqDecision filter.
Proof. solve_decision. Defined.
Global Instance event_eq_dec : EqDecision event.
Proof. solve_decision. Defined.

Definition isLog (e : event) : bool :=
  match e with ELog _ _ => true | _ => false end.

(** The events a Telegram user can see. *)
Definition userVisible (e : event) : bool :=
  match e with
  | ESendMessage _ _ _ | ESendPhoto _ _ | EAnswerCallbackQuery _ _ _
  | EPinChatMessage _ | EEditForumTopic _ _ | ECreateForumTopic _ _ _ => true
  | _ => false
  end.

(** ** The monad of methods: state, exceptions, trace *)

Inductive outcome (A : Type) :=
| Ret (a : A)
| Throw.
Arguments Ret {A} a.
Arguments Throw {A}.

Definition M (S A : Type) : Type := S → outcome A * S * list event.

Section Monad.
Context {S : Type}.

Definition ret {A} (a : A) : M S A := λ s, (Ret a, s, []).

Definition bind {A B} (m : M S A) (k : A → M S B) : M S B := λ s,
  match m s with
  | (Ret a, s1, t1) => let '(r, s2, t2) := k a s1 in (r, s2, t1 ++ t2)
  | (Throw, s1, t1) => (Throw, s1, t1)
  end.

Definition throw {A} : M S A := λ s, (Throw, s, []).

(** [try { m } catch (error) { h }] *)
Definition try_catch {A} (m h : M S A) : M S A := λ s,
  match m s with
  | (Ret a, s1, t1) => (Ret a, s1, t1)
  | (Throw, s1, t1) => let '(r, s2, t2) := h s1 in (r, s2, t1 ++ t2)
  end.

Definition get : M S S := λ s, (Ret s, s, []).
Definition gets {A} (f : S → A) : M S A := λ s, (Ret (f s), s, []).
Definition modify (f : S → S) : M S unit := λ s, (Ret tt, f s, []).
Definition emit (e : event) : M S unit := λ s, (Ret tt, s, [e]).
Definition log (l : level) (text : string) : M S unit := emit (ELog l text).

(** A call that leaves the process: the call is recorded, then it
    returns [a] or throws, as the remote side decides. *)
Definition call {A} (e : event) (r : option A) : M S A :=
  bind (emit e) (λ _, match r with Some a => ret a | None => throw end).

(** [for (const x of l) { body x }] *)
Fixpoint for_each {A} (l : list A) (body : A → M S unit) : M S unit :=
  match l with
  | [] => ret tt
  | x :: l' => bind (body x) (λ _, for_each l' body)
  end.

(** A loop that counts: [body x] says by how much the counter grows. *)
Fixpoint count_each {A} (l : list A) (body : A → M S Z) (n : Z) : M S Z :=
  match l with
  | [] => ret n
  | x :: l' => bind (body x) (λ k, count_each l' body (n + k))
  end.

Definition result {A} (r : outcome A * S * list event) : outcome A := r.1.1.
Definition final {A} (r : outcome A * S * list event) : S := r.1.2.
Definition trace {A} (r : outcome A * S * list event) : list event := r.2.
End Monad.

Notation "x <- m ;; k" := (bind m (λ x, k))
  (at level 20, m at level 99, k at level 200, only parsing).
Notation "'run' m ;; k" := (bind m (λ _, k))
  (at level 20, m at level 99, k at level 200, only parsing).

(** [ok] as the result of a call that returns nothing of interest. *)
Definition done_if (ok : bool) : option unit := if ok then Some tt else None.

(** ** Values a [Map] of message references is asked about

    [messageIdMapping.get(x)] accepts any value; the bridge has Telegram
    message ids (numbers) and WhatsApp message keys (objects) at hand. *)

Inductive msgRef :=
| TgId (id : Z)
| WaRef (k : waKey).

Global Instance msgRef_eq_dec : EqDecision msgRef.
Proof. solve_decision. Defined.

Global Instance waKey_countable : Countable waKey.
Proof.
  refine (inj_countable'
    (λ k, (remoteJid k, keyId k, fromMe k, participant k))
    (λ t, let '(a, b, c, d) := t in WaKey a b c d) _).
  by intros [].
Defined.

Global Instance msgRef_countable : Countable msgRef.
Proof.
  refine (inj_countable'
    (λ r, match r with TgId i => inl i | WaRef k => inr k end)
    (λ s, match s with inl i => TgId i | inr k => WaRef k end) _).
  by intros [].
Defined.

(** * [src/TelegramBridge.js], first class [TelegramBridge] *)

Module Bridge.

(** A [rateLimiter] entry, [{ count, resetTime }]. *)
Record rateEntry := RateEntry { count : Z; resetTime : Z }.

(** [config.get('telegram.rateLimit')], [{ messages, window }]. *)
Record rateLimit := RateLimit { messages : Z; window : Z }.

Record ephemeral := Ephemeral { eEnabled : bool; eTimer : Z }.

Global Instance rateEntry_eq_dec : EqDecision rateEntry.
Proof. solve_decision. Defined.

(** The fields of the bridge object the modelled methods touch, and the
    contents of the remote collection [this.collection] points to. *)
Record bridge := Build {
  chatMappings : gmap string Z;
  userMappings : gmap string userData;
  contactMappings : gmap string string;
  messageIdMapping : gmap msgRef waKey;
  ephemeralSettings : gmap string ephemeral;
  groupParticipants : gmap string (list string);
  profilePicCache : gmap string string;
  topicVerificationCache : gmap string bool;
  authorizedUsers : gset Z;
  blockedUsers : gset Z;
  rateLimiter : gmap string rateEntry;
  pollingRetries : Z;
  botChatId : option Z;
  collection : list doc
}.

(** The object the constructor builds, connected to an empty collection. *)
Definition new : bridge :=
  Build ∅ ∅ ∅ ∅ ∅ ∅ ∅ ∅ ∅ ∅ ∅ 0 None [].

Definition set_chatMappings (f : gmap string Z → gmap string Z) (b : bridge) :=
  Build (f (chatMappings b)) (userMappings b) (contactMappings b)
    (messageIdMapping b) (ephemeralSettings b) (groupParticipants b)
    (profilePicCache b) (topicVerificationCache b) (authorizedUsers b)
    (blockedUsers b) (rateLimiter b) (pollingRetries b) (botChatId b)
    (collection b).
Definition set_userMappings (f : gmap string userData → gmap string userData) (b : bridge) :=
  Build (chatMappings b) (f (userMappings b)) (contactMappings b)
    (messageIdMapping b) (ephemeralSettings b) (groupParticipants b)
    (profilePicCache b) (topicVerificationCache b) (authorizedUsers b)
    (blockedUsers b) (rateLimiter b) (pollingRetries b) (botChatId b)
    (collection b).
Definition set_contactMappings (f : gmap string string → gmap string string) (b : bridge) :=
  Build (chatMappings b) (userMappings b) (f (contactMappings b))
    (messageIdMapping b) (ephemeralSettings b) (groupParticipants b)
    (profilePicCache b) (topicVerificationCache b) (authorizedUsers b)
    (blockedUsers b) (rateLimiter b) (pollingRetries b) (botChatId b)
    (collection b).
Definition set_messageIdMapping (f : gmap msgRef waKey → gmap msgRef waKey) (b : bridge) :=
  Build (chatMappings b) (userMappings b) (contactMappings b)
    (f (messageIdMapping b)) (ephemeralSettings b) (groupParticipants b)
    (profilePicCache b) (topicVerificationCache b) (authorizedUsers b)
    (blockedUsers b) (rateLimiter b) (pollingRetries b) (botChatId b)
    (collection b).
Definition set_ephemeralSettings (f : gmap string ephemeral → gmap string ephemeral) (b : bridge) :=
  Build (chatMappings b) (userMappings b) (contactMappings b)
    (messageIdMapping b) (f (ephemeralSettings b)) (groupParticipants b)
    (profilePicCache b) (topicVerificationCache b) (authorizedUsers b)
    (blockedUsers b) (rateLimiter b) (pollingRetries b) (botChatId b)
    (collection b).
Definition set_groupParticipants (f : gmap string (list string) → gmap string (list string)) (b : bridge) :=
  Build (chatMappings b) (userMappings b) (contactMappings b)
    (messageIdMapping b) (ephemeralSettings b) (f (groupParticipants b))
    (profilePicCache b) (topicVerificationCache b) (authorizedUsers b)
    (blockedUsers b) (rateLimiter b) (pollingRetries b) (botChatId b)
    (collection b).
Definition set_profilePicCache (f : gmap string string → gmap string string) (b : bridge) :=
  Build (chatMappings b) (userMappings b) (contactMappings b)
    (messageIdMapping b) (ephemeralSettings b) (groupParticipants b)
    (f (profilePicCache b)) (topicVerificationCache b) (authorizedUsers b)
    (blockedUsers b) (rateLimiter b) (pollingRetries b) (botChatId b)
    (collection b).
Definition set_topicVerificationCache (f : gmap string bool → gmap string bool) (b : bridge) :=
  Build (chatMappings b) (userMappings b) (contactMappings b)
    (messageIdMapping b) (ephemeralSettings b) (groupParticipants b)
    (profilePicCache b) (f (topicVerificationCache b)) (authorizedUsers b)
    (blockedUsers b) (rateLimiter b) (pollingRetries b) (botChatId b)
    (collection b).
Definition set_rateLimiter (f : gmap string rateEntry → gmap string rateEntry) (b : bridge) :=
  Build (chatMappings b) (userMappings b) (contactMappings b)
    (messageIdMapping b) (ephemeralSettings b) (groupParticipants b)
    (profilePicCache b) (topicVerificationCache b) (authorizedUsers b)
    (blockedUsers b) (f (rateLimiter b)) (pollingRetries b) (botChatId b)
    (collection b).
Definition set_pollingRetries (n : Z) (b : bridge) :=
  Build (chatMappings b) (userMappings b) (contactMappings b)
    (messageIdMapping b) (ephemeralSettings b) (groupParticipants b)
    (profilePicCache b) (topicVerificationCache b) (authorizedUsers b)
    (blockedUsers b) (rateLimiter b) n (botChatId b)
    (collection b).
Definition set_botChatId (c : option Z) (b : bridge) :=
  Build (chatMappings b) (userMappings b) (contactMappings b)
    (messageIdMapping b) (ephemeralSettings b) (groupParticipants b)
    (profilePicCache b) (topicVerificationCache b) (authorizedUsers b)
    (blockedUsers b) (rateLimiter b) (pollingRetries b) c
    (collection b).
Definition set_collection (f : list doc → list doc) (b : bridge) :=
  Build (chatMappings b) (userMappings b) (contactMappings b)
    (messageIdMapping b) (ephemeralSettings b) (groupParticipants b)
    (profilePicCache b) (topicVerificationCache b) (authorizedUsers b)
    (blockedUsers b) (rateLimiter b) (pollingRetries b) (botChatId b)
    (f (collection b)).

(** The constructor leaves every cache empty; [clearCaches] puts the
    caches of a running bridge back into that state and keeps the
    collection. *)
Definition clearCaches (b : bridge) : bridge :=
  Build ∅ ∅ ∅ ∅ ∅ ∅ ∅ ∅ (authorizedUsers b) (blockedUsers b) ∅
    (pollingRetries b) (botChatId b) (collection b).

(** *** Calls on [this.collection] *)

Definition collection_find (ok : bool) : M bridge (list doc) :=
  run emit EDbFind ;;
  c <- gets collection ;;
  if ok then ret c else throw.

Definition collection_updateOne (ok : bool) (f : filter) (d : doc) : M bridge unit :=
  run emit (EDbUpdateOne f d) ;;
  if ok then modify (set_collection (Collection.updateOne f d)) else throw.

Definition collection_deleteOne (ok : bool) (f : filter) : M bridge unit :=
  run emit (EDbDeleteOne f) ;;
  if ok then modify (set_collection (Collection.deleteOne f)) else throw.

(** *** Access control gate *)

(** [isAuthorized(userId)], lines 124-126. *)
Definition isAuthorized (b : bridge) (userId : Z) : bool :=
  bool_decide (userId ∈ authorizedUsers b) && negb (bool_decide (userId ∈ blockedUsers b)).

(** [`${userId}_${action}`] *)
Definition rateKey (userId : Z) (action : string) : string :=
  pretty userId +:+ "_" +:+ action.

(** [config.get('telegram.rateLimit') || { messages: 30, window: 60000 }] *)
Definition limitOf (cfg : option rateLimit) : rateLimit :=
  match cfg with Some l => l | None => RateLimit 30 60000 end.

(** [checkRateLimit(userId, action)], lines 129-151; [now] is what
    [Date.now()] returns. *)
Definition checkRateLimit (cfg : option rateLimit) (now : Z)
    (userId : Z) (action : string) : M bridge bool :=
  let key := rateKey userId action in
  let limit := limitOf cfg in
  rl <- gets rateLimiter ;;
  match rl !! key with
  | None =>
      run modify (set_rateLimiter <[key := RateEntry 1 (now + window limit)]>) ;;
      ret true
  | Some data =>
      if now >? resetTime data then
        run modify (set_rateLimiter <[key := RateEntry 1 (now + window limit)]>) ;;
        ret true
      else if count data >=? messages limit then
        ret false
      else
        run modify (set_rateLimiter <[key := RateEntry (count data + 1) (resetTime data)]>) ;;
        ret true
  end.

(** *** Mapping store *)

(** [x || 0] on a counter. *)
Definition orZero (x : Z) : Z := if (x =? 0)%Z then 0 else x.

(** One turn of the [switch] in [loadMappingsFromDb]. *)
Definition loadOne (d : doc) : M bridge unit :=
  match d with
  | DChat jid topic _ _ =>
      run modify (set_chatMappings <[jid := topic]>) ;;
      emit (ECacheSet ChatMappings)
  | DUser id u _ =>
      run modify (set_userMappings
        <[id := UserData (name u) (phone u) (firstSeen u) (orZero (messageCount u))]>) ;;
      emit (ECacheSet UserMappings)
  | DContact ph nm _ =>
      run modify (set_contactMappings <[ph := nm]>) ;;
      emit (ECacheSet ContactMappings)
  | DMessage tg key _ =>
      run modify (set_messageIdMapping <[TgId tg := key]>) ;;
      emit (ECacheSet MessageIdMapping)
  | DEphemeral jid en tm =>
      run modify (set_ephemeralSettings <[jid := Ephemeral en tm]>) ;;
      emit (ECacheSet EphemeralSettings)
  | DOther _ => ret tt
  end.

(** [loadMappingsFromDb()], lines 153-189. *)
Definition loadMappingsFromDb (findOk : bool) : M bridge unit :=
  try_catch
    (mappings <- collection_find findOk ;;
     run for_each mappings loadOne ;;
     log Info "Loaded mappings")
    (log Error "Failed to load mappings").

(** [saveMessageMapping(telegramMsgId, whatsappKey)], lines 192-212;
    [now] is [new Date()]. *)
Definition saveMessageMapping (ok : bool) (now : Z)
    (telegramMsgId : Z) (whatsappKey : waKey) : M bridge unit :=
  try_catch
    (run collection_updateOne ok (FMessage telegramMsgId)
           (DMessage telegramMsgId whatsappKey now) ;;
     run modify (set_messageIdMapping <[TgId telegramMsgId := whatsappKey]>) ;;
     emit (ECacheSet MessageIdMapping))
    (log Error "Failed to save message mapping").

(** [saveChatMapping(whatsappJid, telegramTopicId)], lines 233-256. *)
Definition saveChatMapping (ok : bool) (now : Z)
    (whatsappJid : string) (telegramTopicId : Z) : M bridge unit :=
  try_catch
    (run collection_updateOne ok (FChat whatsappJid)
           (DChat whatsappJid telegramTopicId now now) ;;
     run modify (set_chatMappings <[whatsappJid := telegramTopicId]>) ;;
     run emit (ECacheSet ChatMappings) ;;
     run modify (set_topicVerificationCache (delete whatsappJid)) ;;
     log Debug "Saved chat mapping")
    (log Error "Failed to save chat mapping").

(** [saveUserMapping(whatsappId, userData)], lines 258-282. *)
Definition saveUserMapping (ok : bool) (now : Z)
    (whatsappId : string) (u : userData) : M bridge unit :=
  try_catch
    (run collection_updateOne ok (FUser whatsappId)
           (DUser whatsappId
              (UserData (name u) (phone u) (firstSeen u) (orZero (messageCount u))) now) ;;
     run modify (set_userMappings <[whatsappId := u]>) ;;
     run emit (ECacheSet UserMappings) ;;
     log Debug "Saved user mapping")
    (log Error "Failed to save user mapping").

(** [saveContactMapping(phone, name)], lines 284-305. *)
Definition saveContactMapping (ok : bool) (now : Z)
    (ph nm : string) : M bridge unit :=
  try_catch
    (run collection_updateOne ok (FContact ph) (DContact ph nm now) ;;
     run modify (set_contactMappings <[ph := nm]>) ;;
     run emit (ECacheSet ContactMappings) ;;
     log Debug "Saved contact mapping")
    (log Error "Failed to save contact mapping").

(** [this.messageIdMapping.get(x)], the one way the bridge looks a
    message reference up (lines 540 and 1721). *)
Definition resolve (b : bridge) (x : msgRef) : option waKey :=
  messageIdMapping b !! x.

(** *** Contacts *)

(** The configuration values the modelled methods read. *)
Record config := Config {
  telegramChatId : option string;
  telegramRateLimit : option rateLimit;
  profilePicSync : bool
}.

(** [!chatId || chatId.includes('YOUR_CHAT_ID')] *)
Definition chatIdMissing (cfg : config) : bool :=
  match telegramChatId cfg with
  | Some c => negb (JS.truthy c) || JS.includes "YOUR_CHAT_ID" c
  | None => true
  end.

(** [isValidContactName(name, phone)], lines 361-367, as the condition
    it is used for. *)
Definition isValidContactName (nm ph : string) : bool :=
  JS.truthy nm &&
  negb (String.eqb nm ph) &&
  negb (JS.startsWith "+" nm) &&
  (2 <? String.length nm)%nat &&
  negb (JS.test_digits nm).

(** An entry of [sock.store.contacts]. *)
Record waContact := WaContact {
  cName : option string;
  cNotify : option string;
  cVerifiedName : option string
}.

(** [this.contactMappings.get(phone) || `+${phone}`] *)
Definition contactLabel (b : bridge) (ph : string) : string :=
  JS.orElse (contactMappings b !! ph) ("+" +:+ ph).

(** [!jid.endsWith('@g.us') && jid !== 'status@broadcast' &&
    jid !== 'call@broadcast'], line 381. *)
Definition isDirectChat (jid : string) : bool :=
  negb (JS.endsWith "@g.us" jid) &&
  negb (String.eqb jid "status@broadcast") &&
  negb (String.eqb jid "call@broadcast").

(** [updateTopicNames()], lines 369-402; [editOk jid] tells whether
    [editForumTopic] succeeds for the topic of [jid].  The loop visits
    the entries in the order [map_to_list] gives, not in the insertion
    order of the [Map]. *)
Definition updateTopicNames (cfg : config) (editOk : string → bool) : M bridge unit :=
  try_catch
    (if chatIdMissing cfg then
       log Error "Invalid telegram.chatId for updating topic names"
     else
       run log Info "Updating Telegram topic names..." ;;
       b <- get ;;
       run for_each (map_to_list (chatMappings b)) (λ e,
         let '(jid, topicId) := e in
         if isDirectChat jid then
           let ph := JS.phoneOf jid in
           let contactName := contactLabel b ph in
           try_catch
             (run call (EEditForumTopic topicId contactName) (done_if (editOk jid)) ;;
              log Debug "Updated topic name")
             (log Error "Failed to update topic")
         else ret tt) ;;
       log Info "Updated topic names")
    (log Error "Failed to update topic names").

(** [c.field && this.isValidContactName(c.field, phone)] *)
Definition validField (field : option string) (ph : string) : bool :=
  match field with
  | Some n => JS.truthy n && isValidContactName n ph
  | None => false
  end.

(** The name [syncContacts] extracts from a contact, lines 328-337;
    [None] is [contactName = null]. *)
Definition pickName (c : waContact) (ph : string) : option string :=
  if validField (cName c) ph then cName c
  else if validField (cNotify c) ph then cNotify c
  else if validField (cVerifiedName c) ph then cVerifiedName c
  else None.

(** One entry of [Object.entries(contacts)], with the outcome of the
    write it may cause and the clock at that moment. *)
Record syncEntry := SyncEntry {
  sJid : string;
  sContact : option waContact;
  sSaveOk : bool;
  sNow : Z
}.

(** The body of the loop of [syncContacts]; it returns how much
    [syncedCount] grows. *)
Definition syncOne (e : syncEntry) : M bridge Z :=
  match sContact e with
  | None => ret 0
  | Some contact =>
      if negb (JS.truthy (sJid e)) || String.eqb (sJid e) "status@broadcast" then ret 0
      else
        let ph := JS.phoneOf (sJid e) in
        match pickName contact ph with
        | Some contactName =>
            if JS.truthy contactName then
              existingName <- gets (λ b, contactMappings b !! ph) ;;
              if bool_decide (existingName ≠ Some contactName) then
                run saveContactMapping (sSaveOk e) (sNow e) ph contactName ;;
                run log Debug "Synced contact" ;;
                ret 1
              else ret 0
            else ret 0
        | None => ret 0
        end
  end.

(** [syncContacts()], lines 308-358; [connected] is
    [this.whatsappBot?.sock?.user], [entries] the contacts of the
    WhatsApp store. *)
Definition syncContacts (cfg : config) (connected : bool)
    (entries : list syncEntry) (editOk : string → bool) : M bridge unit :=
  try_catch
    (if negb connected then
       log Warn "WhatsApp not connected, skipping contact sync"
     else
       run log Info "Syncing contacts from WhatsApp..." ;;
       run log Debug "Found contacts in WhatsApp store" ;;
       syncedCount <- count_each entries syncOne 0 ;;
       run log Info "Synced new/updated contacts" ;;
       if (0 <? syncedCount)%Z then updateTopicNames cfg editOk else ret tt)
    (log Error "Failed to sync contacts").

(** An element of a [contacts.update] or [contacts.upsert] event, with
    the outcomes of the calls it may cause. *)
Record contactEvent := ContactEvent {
  ceId : option string;
  ceName : option string;
  ceSaveOk : bool;
  ceNow : Z;
  ceEditOk : bool
}.

(** The first [contacts.update] listener, lines 2189-2224. *)
Definition onContactsUpdate (contacts : list contactEvent) : M bridge unit :=
  try_catch
    (updatedCount <- count_each contacts (λ c,
       match ceId c, ceName c with
       | Some id, Some nm =>
           if JS.truthy id && JS.truthy nm then
             let ph := JS.phoneOf id in
             oldName <- gets (λ b, contactMappings b !! ph) ;;
             if isValidContactName nm ph && bool_decide (oldName ≠ Some nm) then
               run saveContactMapping (ceSaveOk c) (ceNow c) ph nm ;;
               run log Info "Updated contact" ;;
               topic <- gets (λ b, chatMappings b !! id) ;;
               run match topic with
                   | Some topicId =>
                       try_catch
                         (run call (EEditForumTopic topicId nm) (done_if (ceEditOk c)) ;;
                          log Info "Updated topic name")
                         (log Debug "Could not update topic name")
                   | None => ret tt
                   end ;;
               ret 1
             else ret 0
           else ret 0
       | _, _ => ret 0
       end) 0 ;;
     if (0 <? updatedCount)%Z then log Info "Processed contact updates" else ret tt)
    (log Error "Failed to process contact updates").

(** The [contacts.upsert] listener, lines 2226-2245. *)
Definition onContactsUpsert (contacts : list contactEvent) : M bridge unit :=
  try_catch
    (newCount <- count_each contacts (λ c,
       match ceId c, ceName c with
       | Some id, Some nm =>
           if JS.truthy id && JS.truthy nm then
             let ph := JS.phoneOf id in
             known <- gets (λ b, bool_decide (is_Some (contactMappings b !! ph))) ;;
             if isValidContactName nm ph && negb known then
               run saveContactMapping (ceSaveOk c) (ceNow c) ph nm ;;
               run log Info "New contact" ;;
               ret 1
             else ret 0
           else ret 0
       | _, _ => ret 0
       end) 0 ;;
     if (0 <? newCount)%Z then log Info "Added new contacts" else ret tt)
    (log Error "Failed to process new contacts").

(** *** Topic lifecycle *)

(** [verifyTopicExists(topicId)], lines 744-758: a message is sent to
    the topic and deleted again.  [send] is the id of the sent message,
    [None] when [sendMessage] throws; [deleteOk] tells whether
    [deleteMessage] succeeds. *)
Definition verifyTopicExists (send : option Z) (deleteOk : bool)
    (topicId : Z) : M bridge bool :=
  try_catch
    (testMsg <- call (ESendMessage Forum "🔍" (Some topicId)) send ;;
     run call (EDeleteMessage Forum testMsg) (done_if deleteOk) ;;
     ret true)
    (ret false).

(** The WhatsApp message a topic is created for, as far as the
    lifecycle reads it. *)
Record waMessage := WaMessage {
  mKey : waKey;
  pushName : option string
}.

(** The outcomes of the calls of [sendWelcomeMessage] and
    [sendProfilePicture]. *)
Record welcomeEnv := WelcomeEnv {
  wGroupMetaOk : bool;
  wFetchStatusOk : bool;
  wSend : option Z;
  wPinOk : bool;
  wPictureUrl : option (option string);
  wSendPhotoOk : bool
}.

(** [sendProfilePicture(topicId, jid, isUpdate)], lines 1267-1286. *)
Definition sendProfilePicture (cfg : config) (w : welcomeEnv)
    (topicId : Z) (jid : string) (isUpdate : bool) : M bridge unit :=
  try_catch
    (if negb (profilePicSync cfg) then ret tt
     else
       profilePicUrl <- call (EProfilePictureUrl jid) (wPictureUrl w) ;;
       match profilePicUrl with
       | Some url =>
           if JS.truthy url then
             let caption := if isUpdate then "📸 Profile picture updated"
                            else "📸 Profile Picture" in
             run call (ESendPhoto topicId caption) (done_if (wSendPhotoOk w)) ;;
             run modify (set_profilePicCache <[jid := url]>) ;;
             emit (ECacheSet ProfilePicCache)
           else ret tt
       | None => ret tt
       end)
    (log Debug "Could not send profile picture").

(** [sendWelcomeMessage(topicId, jid, isGroup, whatsappMsg)], lines
    1208-1265.  The text of the message is represented by its heading. *)
Definition sendWelcomeMessage (cfg : config) (w : welcomeEnv)
    (topicId : Z) (jid : string) (isGroup : bool) (whatsappMsg : waMessage) : M bridge unit :=
  try_catch
    (welcomeText <-
       (if isGroup then
          try_catch
            (run call (EGroupMetadata jid) (done_if (wGroupMetaOk w)) ;;
             ret "Group Information")
            (run log Debug "Could not fetch group metadata" ;;
             ret "Group Chat")
        else
          run try_catch
                (call (EFetchStatus jid) (done_if (wFetchStatusOk w)))
                (log Debug "Could not fetch status") ;;
          ret "Contact Information") ;;
     sentMessage <- call (ESendMessage Forum welcomeText (Some topicId)) (wSend w) ;;
     run call (EPinChatMessage sentMessage) (done_if (wPinOk w)) ;;
     sendProfilePicture cfg w topicId jid false)
    (log Error "Failed to send welcome message").

(** The outcomes of the calls of [getOrCreateTopic]. *)
Record topicEnv := TopicEnv {
  probeSend : option Z;
  probeDeleteOk : bool;
  purgeOk : bool;
  groupMeta : option (string * list string);
  createForumTopic : option Z;
  saveOk : bool;
  now : Z;
  welcome : welcomeEnv
}.

(** The name and the icon colour of a new topic, lines 1160-1188. *)
Definition topicNameAndColor (env : topicEnv) (chatJid : string)
    : M bridge (string * Z) :=
  if String.eqb chatJid "status@broadcast" then ret ("📊 Status Updates", 16739125)
  else if String.eqb chatJid "call@broadcast" then ret ("📞 Call Logs", 16729943)
  else if JS.endsWith "@g.us" chatJid then
    topicName <-
      try_catch
        (meta <- call (EGroupMetadata chatJid) (groupMeta env) ;;
         run modify (set_groupParticipants <[chatJid := meta.2]>) ;;
         run emit (ECacheSet GroupParticipants) ;;
         ret meta.1)
        (run log Debug "Could not fetch group metadata" ;;
         ret "Group Chat") ;;
    ret (topicName, 7322096)
  else
    b <- get ;;
    ret (contactLabel b (JS.phoneOf chatJid), 8043068).

(** The creation path of [getOrCreateTopic], lines 1153-1205: what the
    method does once it is past the check of an existing mapping. *)
Definition createTopic (cfg : config) (env : topicEnv)
    (chatJid : string) (whatsappMsg : waMessage) : M bridge (option Z) :=
  if chatIdMissing cfg then
    run log Error "Telegram chat ID not configured" ;;
    ret None
  else
    try_catch
      (let isGroup := JS.endsWith "@g.us" chatJid in
       let isStatus := String.eqb chatJid "status@broadcast" in
       let isCall := String.eqb chatJid "call@broadcast" in
       nc <- topicNameAndColor env chatJid ;;
       topic <- call (ECreateForumTopic nc.1 nc.2 (createForumTopic env)) (createForumTopic env) ;;
       run saveChatMapping (saveOk env) (now env) chatJid topic ;;
       run log Info "Created Telegram topic" ;;
       run (if negb isStatus && negb isCall then
              sendWelcomeMessage cfg (welcome env) topic chatJid isGroup whatsappMsg
            else ret tt) ;;
       ret (Some topic))
      (run log Error "Failed to create Telegram topic" ;;
       ret None).

(** [getOrCreateTopic(chatJid, whatsappMsg)], lines 1136-1206. *)
Definition getOrCreateTopic (cfg : config) (env : topicEnv)
    (chatJid : string) (whatsappMsg : waMessage) : M bridge (option Z) :=
  mapped <- gets (λ b, chatMappings b !! chatJid) ;;
  match mapped with
  | Some topicId =>
      exists_ <- verifyTopicExists (probeSend env) (probeDeleteOk env) topicId ;;
      if exists_ then ret (Some topicId)
      else
        run log Warn "Topic was deleted, recreating..." ;;
        run modify (set_chatMappings (delete chatJid)) ;;
        run emit (ECacheDelete ChatMappings) ;;
        run collection_deleteOne (purgeOk env) (FChat chatJid) ;;
        createTopic cfg env chatJid whatsappMsg
  | None => createTopic cfg env chatJid whatsappMsg
  end.

(** *** Telegram handlers *)

Record tgMessage := TgMessage {
  fromId : Z;
  chatId : Z;
  chatType : string;
  isTopicMessage : bool;
  text : option string
}.

Record tgQuery := TgQuery {
  queryId : string;
  queryFrom : Z;
  queryData : string
}.

Record tgReaction := TgReaction {
  reactionUser : Z;
  reactionMessageId : Z
}.

(** [wrapHandler(handler)], lines 599-607. *)
Definition wrapHandler (handler : M bridge unit) : M bridge unit :=
  try_catch handler (log Error "Unhandled error in Telegram handler").

Section Handlers.
(** What an accepted request is handed to: the [switch] over the
    commands in [handleCommand], [handleTelegramMessage],
    [handleCallbackQuery] and [handleMessageReaction]. *)
Variable dispatchCommand : tgMessage → M bridge unit.
Variable handleTelegramMessage : tgMessage → M bridge unit.
Variable handleCallbackQuery : tgQuery → M bridge unit.
Variable handleMessageReaction : tgReaction → M bridge unit.

(** [TelegramCommands.handleCommand(msg)], lines 4582-4675;
    [replyOk] tells whether the refusal can be sent. *)
Definition handleCommand (replyOk : bool) (msg : tgMessage) : M bridge unit :=
  match text msg with
  | Some t =>
      if negb (JS.truthy t) || negb (JS.startsWith "/" t) then ret tt
      else
        b <- get ;;
        if negb (isAuthorized b (fromId msg)) then
          call (ESendMessage (Chat (chatId msg))
                  "❌ You are not authorized to use this bot." None)
               (done_if replyOk)
        else dispatchCommand msg
  | None => ret tt
  end.

(** The [message] listener, lines 449-471. *)
Definition onMessage (cfg : config) (clock : Z) (noticeOk replyOk : bool)
    (msg : tgMessage) : M bridge unit :=
  wrapHandler
    (run modify (set_pollingRetries 0) ;;
     b <- get ;;
     if negb (isAuthorized b (fromId msg)) then
       log Warn "Unauthorized access attempt"
     else
       allowed <- checkRateLimit (telegramRateLimit cfg) clock (fromId msg) "message" ;;
       if negb allowed then
         run log Warn "Rate limit exceeded" ;;
         call (ESendMessage (Chat (chatId msg))
                 "⚠️ Rate limit exceeded. Please slow down." None)
              (done_if noticeOk)
       else if String.eqb (chatType msg) "private" then
         run modify (set_botChatId (Some (chatId msg))) ;;
         handleCommand replyOk msg
       else if String.eqb (chatType msg) "supergroup" && isTopicMessage msg then
         handleTelegramMessage msg
       else ret tt).

(** The [callback_query] listener, lines 474-484. *)
Definition onCallbackQuery (answerOk : bool) (query : tgQuery) : M bridge unit :=
  wrapHandler
    (b <- get ;;
     if negb (isAuthorized b (queryFrom query)) then
       call (EAnswerCallbackQuery (queryId query) "❌ Unauthorized" true)
            (done_if answerOk)
     else handleCallbackQuery query).

(** The [message_reaction] listener, lines 487-490. *)
Definition onMessageReaction (reaction : tgReaction) : M bridge unit :=
  wrapHandler
    (b <- get ;;
     if negb (isAuthorized b (reactionUser reaction)) then ret tt
     else handleMessageReaction reaction).
End Handlers.

End Bridge.

(** * [src/TelegramBridge.js], second class [TelegramBridge] *)

Module BridgeV2.

(** [isAuthorized(userId)], lines 2455-2457.  The object has the same
    fields as the one of the first class. *)
Definition isAuthorized (b : Bridge.bridge) (userId : Z) : bool :=
  bool_decide (userId ∈ Bridge.authorizedUsers b).

End BridgeV2.

(** * [src/telegram/bridge.js] *)

Module Legacy.

(** The fields of the bridge object that [getOrCreateTopic] touches;
    [userNames] keeps the [name] of each [userMappings] entry. *)
Record bridge := Build {
  chatMappings : gmap string Z;
  topicMappings : gmap Z string;
  userNames : gmap string (option string);
  profilePicCache : gmap string string
}.

Definition set_chatMappings (f : gmap string Z → gmap string Z) (b : bridge) :=
  Build (f (chatMappings b)) (topicMappings b) (userNames b) (profilePicCache b).
Definition set_topicMappings (f : gmap Z string → gmap Z string) (b : bridge) :=
  Build (chatMappings b) (f (topicMappings b)) (userNames b) (profilePicCache b).
Definition set_profilePicCache (f : gmap string string → gmap string string) (b : bridge) :=
  Build (chatMappings b) (topicMappings b) (userNames b) (f (profilePicCache b)).

(** The outcomes of the calls of [getOrCreateTopic]. *)
Record topicEnv := TopicEnv {
  groupSubject : option string;
  createForumTopic : option Z;
  welcome : Bridge.welcomeEnv
}.

(** [sendProfilePicture(topicId, jid, isUpdate)], lines 443-460. *)
Definition sendProfilePicture (w : Bridge.welcomeEnv)
    (topicId : Z) (jid : string) (isUpdate : bool) : M bridge unit :=
  try_catch
    (profilePicUrl <- call (EProfilePictureUrl jid) (Bridge.wPictureUrl w) ;;
     cached <- gets (λ b, profilePicCache b !! jid) ;;
     match profilePicUrl with
     | Some url =>
         if JS.truthy url && bool_decide (Some url ≠ cached) then
           let caption := if isUpdate then "📸 Profile picture updated"
                          else "📸 Profile Picture" in
           run call (ESendPhoto topicId caption) (done_if (Bridge.wSendPhotoOk w)) ;;
           run modify (set_profilePicCache <[jid := url]>) ;;
           emit (ECacheSet ProfilePicCache)
         else ret tt
     | None => ret tt
     end)
    (log Debug "Could not send profile picture").

(** [sendWelcomeMessage(topicId, jid, isGroup)], lines 399-441.  The
    text of the message is represented by its heading. *)
Definition sendWelcomeMessage (w : Bridge.welcomeEnv)
    (topicId : Z) (jid : string) (isGroup : bool) : M bridge unit :=
  try_catch
    (welcomeText <-
       (if isGroup then
          try_catch
            (run call (EGroupMetadata jid) (done_if (Bridge.wGroupMetaOk w)) ;;
             ret "Group Information")
            (ret "Group Chat")
        else ret "Contact Information") ;;
     sentMessage <- call (ESendMessage Forum welcomeText (Some topicId)) (Bridge.wSend w) ;;
     run call (EPinChatMessage sentMessage) (done_if (Bridge.wPinOk w)) ;;
     sendProfilePicture w topicId jid false)
    (log Error "Failed to send welcome message").

(** The name and the icon colour of a new topic, lines 343-374. *)
Definition topicNameAndColor (env : topicEnv) (chatJid : string)
    : M bridge (string * Z) :=
  if String.eqb chatJid "status@broadcast" then ret ("📊 Status Updates", 16739125)
  else if String.eqb chatJid "call@broadcast" then ret ("📞 Call Logs", 16729943)
  else if JS.endsWith "@g.us" chatJid then
    topicName <-
      try_catch
        (call (EGroupMetadata chatJid) (groupSubject env))
        (ret "Group Chat") ;;
    ret (topicName, 7322096)
  else
    userInfo <- gets (λ b, userNames b !! chatJid) ;;
    match userInfo with
    | Some (Some nm) =>
        if JS.truthy nm then ret (nm, 8043068)
        else ret ("+" +:+ JS.phoneOf chatJid, 8043068)
    | _ => ret ("+" +:+ JS.phoneOf chatJid, 8043068)
    end.

(** [getOrCreateTopic(chatJid, whatsappMsg)], lines 331-397; [chatId] is
    [config.get('telegram.chatId')]. *)
Definition getOrCreateTopic (chatId : option string) (env : topicEnv)
    (chatJid : string) : M bridge (option Z) :=
  mapped <- gets (λ b, chatMappings b !! chatJid) ;;
  match mapped with
  | Some topicId => ret (Some topicId)
  | None =>
      if negb (JS.otruthy chatId) then
        run log Error "Telegram chat ID not configured" ;;
        ret None
      else
        try_catch
          (let isGroup := JS.endsWith "@g.us" chatJid in
           let isStatus := String.eqb chatJid "status@broadcast" in
           let isCall := String.eqb chatJid "call@broadcast" in
           nc <- topicNameAndColor env chatJid ;;
           topicId <- call (ECreateForumTopic nc.1 nc.2 (createForumTopic env))
                           (createForumTopic env) ;;
           run modify (set_chatMappings <[chatJid := topicId]>) ;;
           run emit (ECacheSet ChatMappings) ;;
           run modify (set_topicMappings <[topicId := chatJid]>) ;;
           run log Info "Created Telegram topic" ;;
           run (if negb isStatus && negb isCall then
                  sendWelcomeMessage (welcome env) topicId chatJid isGroup
                else ret tt) ;;
           ret (Some topicId))
          (run log Error "Failed to create Telegram topic" ;;
           ret None)
  end.

(** ** The message queue, lines 21-22, 59-74, 180 and 228-235

    A task is a closure; [T] is whatever tells the tasks apart. *)

Section Queue.
Variable T : Type.

(** [messageQueue] and [isProcessingQueue], with two histories kept for
    the statements: the tasks the consumer has called and not seen
    settle yet ([running]), and every task it has called, oldest first
    ([started]). *)
Record queue := Queue {
  messageQueue : list T;
  isProcessingQueue : bool;
  running : list T;
  started : list T
}.

(** The state after [initialize()]. *)
Definition empty : queue := Queue [] false [] [].

(** [this.messageQueue.push(task)], lines 180 and 232. *)
Definition push (t : T) (q : queue) : queue :=
  Queue (messageQueue q ++ [t]) (isProcessingQueue q) (running q) (started q).

(** [syncMessage(whatsappMsg, text)], lines 228-235; [ready] is
    [this.telegramBot && config.get('telegram.enabled')]. *)
Definition syncMessage (ready : bool) (t : T) (q : queue) : queue :=
  if ready then push t q else q.

(** The callback of [setInterval] up to its [await], lines 61-67: the
    guard, the flag, [shift()] and the call of the task. *)
Definition tick (q : queue) : queue :=
  if isProcessingQueue q then q
  else match messageQueue q with
       | [] => q
       | task :: rest => Queue rest true (task :: running q) (started q ++ [task])
       end.

(** The callback after its [await], lines 68-72: the task it called,
    the [i]-th of [running], has settled (a rejection is logged), and
    the flag is lowered. *)
Definition settle (i : nat) (q : queue) : queue :=
  Queue (messageQueue q) false (delete i (running q)) (started q).

(** The states the queue can be in, each with the tasks pushed so far:
    producers push, the timer fires, and a task that is running
    settles, in any order. *)
Inductive reachable : queue → list T → Prop :=
| reach_empty : reachable empty []
| reach_push t q h : reachable q h → reachable (push t q) (h ++ [t])
| reach_tick q h : reachable q h → reachable (tick q) h
| reach_settle i q h :
    reachable q h → (i < length (running q))%nat → reachable (settle i q) h.

End Queue.

(** ** What the listeners hand on, lines 177-182, 228-235, 1147-1178
       and 1185-1189 *)

(** A call event, as far as [handleCallNotification] reads it. *)
Record callEvent := CallEvent {
  callFrom : string;
  callId : string
}.

(** [`${callerId}_${callEvent.id}`], line 1151. *)
Definition callKey (c : callEvent) : string :=
  callFrom c +:+ "_" +:+ callId c.

(** A relay: the closure pushed at line 232, the closure pushed at line
    180, and the body of [handleCallNotification] from its [try] on
    (lines 1159-1177: the topic of the call log is looked up or
    created, and the notice is sent to Telegram). *)
Inductive relay :=
| ProcessWhatsAppMessage (whatsappMsg : Bridge.waMessage) (text : string)
| HandleTelegramMessage (msg : Bridge.tgMessage)
| CallNotice (c : callEvent).

(** The part of the bridge object the relays are started from:
    [messageQueue] and [isProcessingQueue] with the histories of
    [queue], [activeCallNotifications], and one more history,
    [outside]: the relays a listener has started itself and that have
    not settled yet. *)
Record relays := Relays {
  queued : queue relay;
  activeCallNotifications : gmap string bool;
  outside : list relay
}.

(** The state after [initialize()]. *)
Definition idle : relays := Relays (empty relay) ∅ [].

(** The [message] listener, lines 177-182. *)
Definition onMessage (msg : Bridge.tgMessage) (q : queue relay) : queue relay :=
  if String.eqb (Bridge.chatType msg) "supergroup" && Bridge.isTopicMessage msg
  then push relay (HandleTelegramMessage msg) q
  else q.

(** [handleCallNotification(callEvent)], lines 1147-1178, up to the
    first [await] of the relay it starts; [telegramBot] tells whether
    [this.telegramBot] is set. *)
Definition handleCallNotification (telegramBot : bool) (c : callEvent) (s : relays) : relays :=
  if negb telegramBot then s
  else if bool_decide (is_Some (activeCallNotifications s !! callKey c)) then s
  else Relays (queued s) (<[callKey c := true]> (activeCallNotifications s))
              (outside s ++ [CallNotice c]).

(** What happens to the bridge: a WhatsApp message is handed to
    [syncMessage], Telegram delivers a message, WhatsApp reports a call
    (the [call] listener, lines 1185-1189), the timeout of line 1156
    fires, the interval of the consumer fires, the task the consumer
    has called settles, a relay started outside the queue settles. *)
Inductive occurrence :=
| WhatsAppMessage (ready : bool) (whatsappMsg : Bridge.waMessage) (text : string)
| TelegramMessage (msg : Bridge.tgMessage)
| Call (telegramBot : bool) (c : callEvent)
| CallTimeout (key : string)
| Interval
| TaskSettled
| OutsideSettled (i : nat).

Definition step (s : relays) (o : occurrence) : relays :=
  match o with
  | WhatsAppMessage ready whatsappMsg text =>
      Relays (syncMessage relay ready (ProcessWhatsAppMessage whatsappMsg text) (queued s))
             (activeCallNotifications s) (outside s)
  | TelegramMessage msg =>
      Relays (onMessage msg (queued s)) (activeCallNotifications s) (outside s)
  | Call telegramBot c => handleCallNotification telegramBot c s
  | CallTimeout key =>
      Relays (queued s) (delete key (activeCallNotifications s)) (outside s)
  | Interval => Relays (tick relay (queued s)) (activeCallNotifications s) (outside s)
  | TaskSettled =>
      match running relay (queued s) with
      | [] => s
      | _ :: _ => Relays (settle relay 0 (queued s)) (activeCallNotifications s) (outside s)
      end
  | OutsideSettled i => Relays (queued s) (activeCallNotifications s) (delete i (outside s))
  end.

(** The bridge after the occurrences [os], from the state after
    [initialize()]. *)
Definition after (os : list occurrence) : relays := foldl step idle os.

(** The relays that are executing: the task the consumer has called,
    and the relays started outside the queue. *)
Definition executing (s : relays) : list relay :=
  running relay (queued s) ++ outside s.

(** The message relays an execution asks for, in the order of their
    arrival: the WhatsApp messages that reach [syncMessage] while the
    Telegram side is ready, and the topic messages of the Telegram
    group. *)
Definition messageRelay (o : occurrence) : option relay :=
  match o with
  | WhatsAppMessage true whatsappMsg text => Some (ProcessWhatsAppMessage whatsappMsg text)
  | TelegramMessage msg =>
      if String.eqb (Bridge.chatType msg) "supergroup" && Bridge.isTopicMessage msg
      then Some (HandleTelegramMessage msg) else None
  | _ => None
  end.

Definition messageRelays (os : list occurrence) : list relay := omap messageRelay os.

Definition isMessageRelay (r : relay) : bool :=
  match r with
  | ProcessWhatsAppMessage _ _ | HandleTelegramMessage _ => true
  | CallNotice _ => false
  end.

End Legacy.

(** * Overlapping calls of [getOrCreateTopic] in [src/TelegramBridge.js]

    An [async] method runs without interruption from one [await] to the
    next; between two of them any other pending call may run.  A call of
    [getOrCreateTopic] is cut at its awaits; [pc] names the call a task
    is waiting for.  A step of a task performs that call and the code
    after it, up to the next await.  [verifyTopicExists] and
    [sendWelcomeMessage] are taken as one call each. *)

Module Async.
Import Bridge.

Inductive pc :=
| Start
| Probing (topicId : Z)
| Purging
| FetchingGroup
| Creating (topicName : string) (iconColor : Z)
| Saving (topic : Z)
| Welcoming (topic : Z)
| Finished (r : option Z)
| Rejected.

(** Lines 1153-1188 without the awaits: the configuration check and the
    choice of the name for the kinds of chat that need no call. *)
Definition enterCreate (cfg : config) (chatJid : string) : M bridge pc :=
  if chatIdMissing cfg then
    run log Error "Telegram chat ID not configured" ;;
    ret (Finished None)
  else if String.eqb chatJid "status@broadcast" then ret (Creating "📊 Status Updates" 16739125)
  else if String.eqb chatJid "call@broadcast" then ret (Creating "📞 Call Logs" 16729943)
  else if JS.endsWith "@g.us" chatJid then ret FetchingGroup
  else
    b <- get ;;
    ret (Creating (contactLabel b (JS.phoneOf chatJid)) 8043068).

(** One step of a call of [getOrCreateTopic(chatJid, whatsappMsg)]. *)
Definition segment (cfg : config) (env : topicEnv) (chatJid : string)
    (whatsappMsg : waMessage) (p : pc) : M bridge pc :=
  match p with
  | Start =>
      mapped <- gets (λ b, chatMappings b !! chatJid) ;;
      match mapped with
      | Some topicId => ret (Probing topicId)
      | None => enterCreate cfg chatJid
      end
  | Probing topicId =>
      exists_ <- verifyTopicExists (probeSend env) (probeDeleteOk env) topicId ;;
      if exists_ then ret (Finished (Some topicId))
      else
        run log Warn "Topic was deleted, recreating..." ;;
        run modify (set_chatMappings (delete chatJid)) ;;
        run emit (ECacheDelete ChatMappings) ;;
        ret Purging
  | Purging =>
      try_catch
        (run collection_deleteOne (purgeOk env) (FChat chatJid) ;;
         enterCreate cfg chatJid)
        (ret Rejected)
  | FetchingGroup =>
      topicName <-
        try_catch
          (meta <- call (EGroupMetadata chatJid) (groupMeta env) ;;
           run modify (set_groupParticipants <[chatJid := meta.2]>) ;;
           run emit (ECacheSet GroupParticipants) ;;
           ret meta.1)
          (run log Debug "Could not fetch group metadata" ;;
           ret "Group Chat") ;;
      ret (Creating topicName 7322096)
  | Creating topicName iconColor =>
      try_catch
        (topic <- call (ECreateForumTopic topicName iconColor (createForumTopic env))
                       (createForumTopic env) ;;
         ret (Saving topic))
        (run log Error "Failed to create Telegram topic" ;;
         ret (Finished None))
  | Saving topic =>
      run saveChatMapping (saveOk env) (now env) chatJid topic ;;
      run log Info "Created Telegram topic" ;;
      if negb (String.eqb chatJid "status@broadcast") && negb (String.eqb chatJid "call@broadcast")
      then ret (Welcoming topic)
      else ret (Finished (Some topic))
  | Welcoming topic =>
      run sendWelcomeMessage cfg (welcome env) topic chatJid
            (JS.endsWith "@g.us" chatJid) whatsappMsg ;;
      ret (Finished (Some topic))
  | Finished r => ret (Finished r)
  | Rejected => ret Rejected
  end.

(** A pending call: its arguments, the outcomes of its calls, and where
    it stands. *)
Record task := Task {
  tJid : string;
  tMsg : waMessage;
  tEnv : topicEnv;
  tPc : pc
}.

(** The bridge object, the pending calls and what has happened so far. *)
Record system := System {
  shared : bridge;
  tasks : list task;
  history : list event
}.

(** The task with index [i] takes one step. *)
Definition advance (cfg : config) (i : nat) (sys : system) : system :=
  match tasks sys !! i with
  | Some t =>
      match segment cfg (tEnv t) (tJid t) (tMsg t) (tPc t) (shared sys) with
      | (Ret p, b, tr) =>
          System b (<[i := Task (tJid t) (tMsg t) (tEnv t) p]> (tasks sys))
                 (history sys ++ tr)
      | (Throw, b, tr) =>
          System b (<[i := Task (tJid t) (tMsg t) (tEnv t) Rejected]> (tasks sys))
                 (history sys ++ tr)
      end
  | None => sys
  end.

(** The tasks step in the order [schedule] lists them. *)
Definition execute (cfg : config) (schedule : list nat) (sys : system) : system :=
  foldl (λ s i, advance cfg i s) sys schedule.

(** A call run on its own from [p] until it settles; seven steps reach
    the end from [Start]. *)
Fixpoint alone (fuel : nat) (cfg : config) (env : topicEnv) (chatJid : string)
    (whatsappMsg : waMessage) (p : pc) : M bridge (option Z) :=
  match p, fuel with
  | Finished r, _ => ret r
  | Rejected, _ => throw
  | _, O => throw
  | _, S fuel' =>
      p' <- segment cfg env chatJid whatsappMsg p ;;
      alone fuel' cfg env chatJid whatsappMsg p'
  end.

(** The topics Telegram has created in a history. *)
Definition createdTopics (tr : list event) : list Z :=
  omap (λ e, match e with ECreateForumTopic _ _ (Some t) => Some t | _ => None end) tr.
Arguments createdTopics : simpl never.

(** The call has settled: it has returned or thrown. *)
Definition isFinished (t : task) : bool :=
  match tPc t with Finished _ | Rejected => true | _ => false end.

End Async.

(** * Scenarios the properties are stated on *)

Module Scenario.
Import Bridge.

(** One user repeats one action at the times [ts]; the answers of
    [checkRateLimit], in order. *)
Fixpoint burst (cfg : option rateLimit) (userId : Z) (action : string)
    (ts : list Z) : M bridge (list bool) :=
  match ts with
  | [] => ret []
  | t :: ts' =>
      a <- checkRateLimit cfg t userId action ;;
      rest <- burst cfg userId action ts' ;;
      ret (a :: rest)
  end.

(** How many requests of a burst were rejected. *)
Definition rejections (answers : list bool) : nat :=
  length (List.filter negb answers).

(** No window is running for the user and the action at [t0]: there has
    been no request yet, or the last window has run out. *)
Definition windowOpensAt (b : bridge) (userId : Z) (action : string) (t0 : Z) : Prop :=
  rateLimiter b !! rateKey userId action = None ∨
  ∃ d, rateLimiter b !! rateKey userId action = Some d ∧ resetTime d < t0.

(** The number of rejections the specification promises for a burst:
    one for each request beyond [maxCount]. *)
Definition onePerExcess (cfg : option rateLimit) (userId : Z) (action : string)
    (ts : list Z) (b : bridge) : Prop :=
  ∃ answers, result (burst cfg userId action ts b) = Ret answers ∧
    Z.of_nat (rejections answers) = Z.of_nat (length ts) - messages (limitOf cfg).

(** An upsert of the mapping store, with the outcome of its durable
    write and the clock. *)
Inductive upsert :=
| UChat (ok : bool) (now : Z) (whatsappJid : string) (telegramTopicId : Z)
| UUser (ok : bool) (now : Z) (whatsappId : string) (u : userData)
| UContact (ok : bool) (now : Z) (ph nm : string)
| UMessage (ok : bool) (now : Z) (telegramMsgId : Z) (whatsappKey : waKey).

Definition perform (u : upsert) : M bridge unit :=
  match u with
  | UChat ok now jid topic => saveChatMapping ok now jid topic
  | UUser ok now id d => saveUserMapping ok now id d
  | UContact ok now ph nm => saveContactMapping ok now ph nm
  | UMessage ok now tg key => saveMessageMapping ok now tg key
  end.

(** [getOrCreateTopic] called for the same chat once per element of
    [envs], each call after the one before it has returned; the topic
    ids the calls return. *)
Fixpoint inTurn (cfg : config) (envs : list topicEnv) (chatJid : string)
    (whatsappMsg : waMessage) : M bridge (list (option Z)) :=
  match envs with
  | [] => ret []
  | env :: envs' =>
      r <- getOrCreateTopic cfg env chatJid whatsappMsg ;;
      rest <- inTurn cfg envs' chatJid whatsappMsg ;;
      ret (r :: rest)
  end.

(** A configured bridge, a direct chat, and calls that all succeed:
    Telegram answers the two [createForumTopic] calls with the topic ids
    101 and 102. *)
Definition forum : config := Config (Some "-1001234") None true.
Definition alice : string := "4915@s.whatsapp.net".
Definition hello : waMessage := WaMessage (WaKey alice "3EB0A1" false None) (Some "Alice").
Definition welcomed : welcomeEnv :=
  WelcomeEnv true true (Some 900) true (Some (Some "https://pps/alice.jpg")) true.
Definition answers101 : topicEnv := TopicEnv (Some 500) true true None (Some 101) true 1000 welcomed.
Definition answers102 : topicEnv := TopicEnv (Some 501) true true None (Some 102) true 1001 welcomed.

(** The same calls, but the probe of an existing topic fails. *)
Definition topicGone : topicEnv := TopicEnv None true true None (Some 102) true 1001 welcomed.


(** Two first messages of [alice] arrive together: two calls of
    [getOrCreateTopic] are pending on a new bridge. *)
Definition twoFirstContacts : Async.system :=
  Async.System new
    [Async.Task alice hello answers101 Async.Start;
     Async.Task alice hello answers102 Async.Start] [].

(** The calls take their steps alternately. *)
Definition alternating : list nat := [0; 1; 0; 1; 0; 1; 0; 1]%nat.

(** All pending calls have settled. *)
Definition allSettled (sys : Async.system) : Prop :=
  Forall (λ t, Async.isFinished t = true) (Async.tasks sys).

(** What the specification promises for first contacts that arrive
    together: one topic is created. *)
Definition oneTopicCreated (sys : Async.system) : Prop :=
  length (Async.createdTopics (Async.history sys)) = 1%nat.

(** [alice] has the topic 17, in the cache and in the collection. *)
Definition aliceMapped : bridge := final (saveChatMapping true 900 alice 17 new).

(** The topic of [alice] is gone, and two messages of [alice] arrive
    together.  Telegram refuses the new topic of the first call and
    creates the topic 102 for the second.  The second call is through
    with its purge, its creation and its write before the delete of the
    first is carried out. *)
Definition telegramRefuses : topicEnv := TopicEnv None true true None None true 1000 welcomed.
Definition twoStaleCalls : Async.system :=
  Async.System aliceMapped
    [Async.Task alice hello telegramRefuses Async.Start;
     Async.Task alice hello topicGone Async.Start] [].
Definition lateDelete : list nat := [0; 1; 0; 1; 1; 1; 1; 1; 0; 0]%nat.

Definition legacyAnswers : Legacy.topicEnv := Legacy.TopicEnv None (Some 102) welcomed.

(** In [src/telegram/bridge.js]: a message of [alice] is handed to
    [syncMessage], the consumer takes it from the queue, and while it
    is being relayed WhatsApp reports a call of [alice]. *)
Definition aliceCalls : Legacy.callEvent := Legacy.CallEvent alice "call-1".
Definition callDuringRelay : list Legacy.occurrence :=
  [Legacy.WhatsAppMessage true hello "hi"; Legacy.Interval; Legacy.Call true aliceCalls].

(** Messages from both sides and a call, with the consumer at work in
    between. *)
Definition busyBridge : list Legacy.occurrence :=
  [Legacy.WhatsAppMessage true hello "a";
   Legacy.TelegramMessage (TgMessage 7 (-1001234) "supergroup" true (Some "b"));
   Legacy.Interval;
   Legacy.Call true aliceCalls;
   Legacy.TaskSettled;
   Legacy.TelegramMessage (TgMessage 7 7 "private" false (Some "/start"));
   Legacy.Interval;
   Legacy.WhatsAppMessage true hello "c"].

(** A request is dropped silently: whatever it causes is a log entry. *)
Definition silentlyDropped (tr : list event) : Prop :=
  Forall (λ e, isLog e = true) tr.

(** A callback query of a user nobody has authorized. *)
Definition strangerQuery : tgQuery := TgQuery "q-1" 666 "revoke_1700000000_abc".

(** A validated contact name for the phone number [ph]. *)
Definition validated (nm ph : string) : Prop :=
  nm ≠ "" ∧
  nm ≠ ph ∧
  JS.startsWith "+" nm = false ∧
  (2 < String.length nm)%nat ∧
  ¬ Forall (λ a, JS.isDigit a = true) (list_ascii_of_string nm).

(** ** Notions the statements use *)

(** [m] keeps [P]: whatever state satisfies [P] before, the state [m]
    leaves satisfies it, also when [m] throws. *)
Definition keeps {S A} (P : S → Prop) (m : M S A) : Prop :=
  ∀ s, P s → P (final (m s)).

(** What an upsert writes: the filter and the document of its
    [updateOne], and the cache entry it sets afterwards. *)
Definition written (u : upsert) : filter * doc :=
  match u with
  | UChat _ now jid topic => (FChat jid, DChat jid topic now now)
  | UUser _ now id d =>
      (FUser id,
       DUser id (UserData (name d) (phone d) (firstSeen d) (orZero (messageCount d))) now)
  | UContact _ now ph nm => (FContact ph, DContact ph nm now)
  | UMessage _ now tg key => (FMessage tg, DMessage tg key now)
  end.

(** The cache holds what the upsert was to store. *)
Definition cached (u : upsert) (b : bridge) : Prop :=
  match u with
  | UChat _ _ jid topic => chatMappings b !! jid = Some topic
  | UUser _ _ id d => userMappings b !! id = Some d
  | UContact _ _ ph nm => contactMappings b !! ph = Some nm
  | UMessage _ _ tg key => messageIdMapping b !! TgId tg = Some key
  end.

(** The cache an upsert writes to. *)
Definition cacheOf (u : upsert) : cache :=
  match u with
  | UChat _ _ _ _ => ChatMappings
  | UUser _ _ _ _ => UserMappings
  | UContact _ _ _ _ => ContactMappings
  | UMessage _ _ _ _ => MessageIdMapping
  end.

(** Whether the durable write of an upsert succeeds. *)
Definition durable (u : upsert) : bool :=
  match u with
  | UChat ok _ _ _ | UUser ok _ _ _ | UContact ok _ _ _ | UMessage ok _ _ _ => ok
  end.

(** The keys of [messageIdMapping] are Telegram message ids. *)
Definition telegramKeyed (b : bridge) : Prop :=
  ∀ k, messageIdMapping b !! WaRef k = None.

(** The topic the last chat document for [jid] in a collection names. *)
Fixpoint lastChat (jid : string) (c : list doc) : option Z :=
  match c with
  | [] => None
  | d :: c' =>
      match lastChat jid c' with
      | Some t => Some t
      | None =>
          match d with
          | DChat j t _ _ => if bool_decide (jid = j) then Some t else None
          | _ => None
          end
      end
  end.

(** The cache of chat mappings mirrors the collection, which has at
    most one chat document for a WhatsApp JID. *)
Definition synced (b : bridge) : Prop :=
  ∀ jid, chatMappings b !! jid = lastChat jid (collection b) ∧
         (Collection.count (FChat jid) (collection b) ≤ 1)%nat.

(** The bridge after the purge of the mapping of [chatJid]: the cache
    entry is gone, and so is the first chat document for [chatJid]. *)
Definition purged (chatJid : string) (b : bridge) : bridge :=
  set_collection (Collection.deleteOne (FChat chatJid))
    (set_chatMappings (delete chatJid) b).

(** A computation that always returns, leaves the chat cache and the
    collection alone, and creates no topic. *)
Definition harmless {A} (m : M bridge A) : Prop :=
  ∀ s, (∃ a, result (m s) = Ret a) ∧
       chatMappings (final (m s)) = chatMappings s ∧
       collection (final (m s)) = collection s ∧
       Async.createdTopics (trace (m s)) = [].

(** What [createTopic] does once Telegram has created the topic, lines
    1194-1201. *)
Definition afterCreate (cfg : config) (env : topicEnv) (chatJid : string)
    (whatsappMsg : waMessage) (topic : Z) : M bridge (option Z) :=
  run saveChatMapping (saveOk env) (now env) chatJid topic ;;
  run log Info "Created Telegram topic" ;;
  run (if negb (String.eqb chatJid "status@broadcast") &&
          negb (String.eqb chatJid "call@broadcast")
       then sendWelcomeMessage cfg (welcome env) topic chatJid
              (JS.endsWith "@g.us" chatJid) whatsappMsg
       else ret tt) ;;
  ret (Some topic).

(** The collection holds at most one chat document for a WhatsApp JID. *)
Definition oneDocPerChat (b : bridge) : Prop :=
  ∀ jid, (Collection.count (FChat jid) (collection b) ≤ 1)%nat.

(** Since the state [b0], every contact name that has come into the
    cache or into the collection is a validated name. *)
Definition validatedSince (b0 s : bridge) : Prop :=
  (∀ ph nm, contactMappings s !! ph = Some nm →
     contactMappings b0 !! ph = Some nm ∨ validated nm ph) ∧
  (∀ ph nm at_, DContact ph nm at_ ∈ collection s →
     DContact ph nm at_ ∈ collection b0 ∨ validated nm ph).

End Scenario.

(** * The topic lifecycle, seen from its outcomes *)

Module Lifecycle.
Import Bridge.

(** The probe of [verifyTopicExists] succeeds: the test message is sent
    and deleted again. *)
Definition probeOk (env : topicEnv) : bool :=
  match probeSend env with
  | Some _ => probeDeleteOk env
  | None => false
  end.

(** Whether a pending call of [getOrCreateTopic] can still reach its
    [createForumTopic]: 1 before that call, 0 after it. *)
Definition mayCreate (p : Async.pc) : nat :=
  match p with
  | Async.Start | Async.Probing _ | Async.Purging | Async.FetchingGroup
  | Async.Creating _ _ => 1
  | Async.Saving _ | Async.Welcoming _ | Async.Finished _ | Async.Rejected => 0
  end.

(** How many of the pending calls can still create a topic. *)
Definition pendingCreations (sys : Async.system) : nat :=
  sum_list (mayCreate ∘ Async.tPc <$> Async.tasks sys).

(** The log entry, the cache update and the request to the collection
    with which [getOrCreateTopic] drops a mapping whose topic is gone,
    lines 1144-1149. *)
Definition purgeEvents (chatJid : string) : list event :=
  [ELog Warn "Topic was deleted, recreating...";
   ECacheDelete ChatMappings; EDbDeleteOne (FChat chatJid)].

End Lifecycle.

(** * [src/TelegramBridge.js], first class: presence, calls, revoke
      buttons, read receipts and the relay of messages

    These methods use fields of the bridge object beyond the mapping
    store, call the WhatsApp socket, and start timers.  [state] adds
    those fields to [Bridge.bridge].  Two histories are kept beside
    them for the statements: [outbox], the calls made to the WhatsApp
    socket and the Telegram calls [event] has no name for, oldest
    first, and [timers], the timeouts that have been set and have not
    fired or been cleared.  A method runs without interruption from one
    [await] to the next.  [processReadReceipts], whose timeouts for one
    chat follow one another closely and which empties the queue only
    after its [await], is cut there: its second half is kept in
    [timers] until the awaited call settles.  The other methods are
    taken in one piece, as they run when no other method of the bridge
    runs between their awaits. *)

Module Ext.
Import Bridge.

(** A call that leaves the process and is not an [event]. *)
Inductive outCall :=
| WSendPresenceUpdate (presenceType jid : string)
| WReadMessages (keys : list waKey)
| WSendDelete (jid : string) (key : waKey)
| WSendReact (jid emoji : string) (key : waKey)
| WSendText (jid : string) (text : option string) (mentions : list string)
    (ephemeralExpiration : option Z) (quoted : option waKey)
| WSendDisappearing (jid : string) (timer : option Z)
| TEditMessageText (text : string)
| TSetReaction (chatId messageId : Z) (emoji : string).

Global Instance outCall_eq_dec : EqDecision outCall.
Proof. solve_decision. Defined.

(** What a timeout does when it fires, and, for a method that goes on
    changing the bridge after an [await], what it does when the awaited
    call settles. *)
Inductive timerTask :=
| ForgetCall (callKey : string)
| ProcessReadReceipts (chatJid : string)
| ReadMessagesSettled (chatJid : string)
| PausePresence (jid : string)
| AvailablePresence (jid : string)
| MarkAsRead (jid : string) (keys : list waKey).

Global Instance timerTask_eq_dec : EqDecision timerTask.
Proof. solve_decision. Defined.

(** A pending callback.  For a timeout: the handle [setTimeout]
    returned, the delay in milliseconds, and the callback.  For a
    method waiting at an [await]: a handle of the model's own, no
    delay, and the rest of the method. *)
Record timer := Timer {
  timerId : nat;
  delay : Z;
  task : timerTask
}.

Record state := State {
  base : bridge;
  revokeButtons : gmap string waKey;
  lastPresenceUpdate : gmap string Z;
  activeCallNotifications : gmap string bool;
  messageQueue : gmap string (list waKey);
  presenceTimeout : option nat;
  timers : list timer;
  nextTimer : nat;
  outbox : list outCall
}.

(** The object the constructor builds. *)
Definition new : state := State Bridge.new ∅ ∅ ∅ ∅ None [] 0 [].

Definition set_base (f : bridge → bridge) (s : state) :=
  State (f (base s)) (revokeButtons s) (lastPresenceUpdate s) (activeCallNotifications s)
    (messageQueue s) (presenceTimeout s) (timers s) (nextTimer s) (outbox s).
Definition set_revokeButtons (f : gmap string waKey → gmap string waKey) (s : state) :=
  State (base s) (f (revokeButtons s)) (lastPresenceUpdate s) (activeCallNotifications s)
    (messageQueue s) (presenceTimeout s) (timers s) (nextTimer s) (outbox s).
Definition set_lastPresenceUpdate (f : gmap string Z → gmap string Z) (s : state) :=
  State (base s) (revokeButtons s) (f (lastPresenceUpdate s)) (activeCallNotifications s)
    (messageQueue s) (presenceTimeout s) (timers s) (nextTimer s) (outbox s).
Definition set_activeCallNotifications (f : gmap string bool → gmap string bool) (s : state) :=
  State (base s) (revokeButtons s) (lastPresenceUpdate s) (f (activeCallNotifications s))
    (messageQueue s) (presenceTimeout s) (timers s) (nextTimer s) (outbox s).
Definition set_messageQueue
    (f : gmap string (list waKey) → gmap string (list waKey)) (s : state) :=
  State (base s) (revokeButtons s) (lastPresenceUpdate s) (activeCallNotifications s)
    (f (messageQueue s)) (presenceTimeout s) (timers s) (nextTimer s) (outbox s).
Definition set_presenceTimeout (p : option nat) (s : state) :=
  State (base s) (revokeButtons s) (lastPresenceUpdate s) (activeCallNotifications s)
    (messageQueue s) p (timers s) (nextTimer s) (outbox s).
Definition set_timers (f : list timer → list timer) (s : state) :=
  State (base s) (revokeButtons s) (lastPresenceUpdate s) (activeCallNotifications s)
    (messageQueue s) (presenceTimeout s) (f (timers s)) (nextTimer s) (outbox s).
Definition set_nextTimer (n : nat) (s : state) :=
  State (base s) (revokeButtons s) (lastPresenceUpdate s) (activeCallNotifications s)
    (messageQueue s) (presenceTimeout s) (timers s) n (outbox s).
Definition set_outbox (f : list outCall → list outCall) (s : state) :=
  State (base s) (revokeButtons s) (lastPresenceUpdate s) (activeCallNotifications s)
    (messageQueue s) (presenceTimeout s) (timers s) (nextTimer s) (f (outbox s)).

(** A method of the mapping store or of the topic lifecycle, run on the
    larger object. *)
Definition lift {A} (m : M bridge A) : M state A := λ s,
  let '(r, b, t) := m (base s) in (r, set_base (λ _, b) s, t).

(** A call of the WhatsApp socket, or one of the Telegram calls of
    [outCall]: the call is recorded, then it returns or throws. *)
Definition send (c : outCall) (ok : bool) : M state unit :=
  run modify (set_outbox (λ o, o ++ [c])) ;;
  if ok then ret tt else throw.

(** [setTimeout(callback, delay)] *)
Definition setTimeout (d : Z) (k : timerTask) : M state nat :=
  id <- gets nextTimer ;;
  run modify (set_timers (λ ts, ts ++ [Timer id d k])) ;;
  run modify (set_nextTimer (S id)) ;;
  ret id.

(** A method stops at an [await] after which it changes the bridge;
    [k], the rest of the method, is kept with the pending callbacks
    and runs when the awaited call settles. *)
Definition await (k : timerTask) : M state nat := setTimeout 0 k.

(** [clearTimeout(handle)] *)
Definition clearTimeout (id : nat) : M state unit :=
  modify (set_timers (List.filter (λ t, negb (timerId t =? id)%nat))).

(** The [telegram.*] switches the methods read; [readReceipts] may be
    absent from the configuration. *)
Record features := Features {
  telegramEnabled : bool;
  presenceUpdates : bool;
  callLogs : bool;
  readReceipts : option bool;
  revokeButtonsEnabled : bool
}.

(** [setReaction(chatId, messageId, emoji)], lines 405-416. *)
Definition setReaction (ok : bool) (chatId messageId : Z) (emoji : string) : M state unit :=
  try_catch
    (send (TSetReaction chatId messageId emoji) ok)
    (log Debug "Failed to set reaction").

(** ** Presence *)

(** [sendPresence(jid, presenceType)], lines 702-719; [sock] tells
    whether [this.whatsappBot?.sock] is there, [now] is [Date.now()]. *)
Definition sendPresence (ft : features) (sock : bool) (now : Z) (sendOk : bool)
    (jid presenceType : string) : M state unit :=
  try_catch
    (if negb sock || negb (presenceUpdates ft) then ret tt
     else
       lastUpdate <- gets (λ s, default 0 (lastPresenceUpdate s !! jid)) ;;
       if now - lastUpdate <? 1000 then ret tt
       else
         run modify (set_lastPresenceUpdate <[jid := now]>) ;;
         run send (WSendPresenceUpdate presenceType jid) sendOk ;;
         log Debug "Sent presence update")
    (log Debug "Failed to send presence").

(** [sendTypingPresence(jid)], lines 721-742. *)
Definition sendTypingPresence (ft : features) (sock : bool) (now : Z) (sendOk : bool)
    (jid : string) : M state unit :=
  try_catch
    (if negb sock || negb (presenceUpdates ft) then ret tt
     else
       run sendPresence ft sock now sendOk jid "composing" ;;
       pending <- gets presenceTimeout ;;
       run match pending with
           | Some id => clearTimeout id
           | None => ret tt
           end ;;
       id <- setTimeout 3000 (PausePresence jid) ;;
       modify (set_presenceTimeout (Some id)))
    (log Debug "Failed to send typing presence").

(** ** Call notifications *)

Record callEvent := CallEvent {
  callFrom : string;
  callId : string;
  callStatus : option string
}.

(** [`${callerId}_${callEvent.id}`] *)
Definition callKey (e : callEvent) : string :=
  callFrom e +:+ "_" +:+ callId e.

(** [handleCallNotification(callEvent)], lines 1288-1330; [botUp] is
    [this.telegramBot], [env] has the outcomes of the calls of
    [getOrCreateTopic], [sendOk] that of the notification.  The text of
    the notification is represented by its heading. *)
Definition handleCallNotification (cfg : config) (ft : features) (botUp : bool)
    (env : topicEnv) (sendOk : bool) (e : callEvent) : M state unit :=
  if negb botUp || negb (callLogs ft) then ret tt
  else
    let k := callKey e in
    active <- gets (λ s, bool_decide (is_Some (activeCallNotifications s !! k))) ;;
    if active then ret tt
    else
      run modify (set_activeCallNotifications <[k := true]>) ;;
      run setTimeout 30000 (ForgetCall k) ;;
      try_catch
        (topicId <- lift (getOrCreateTopic cfg env "call@broadcast"
                            (WaMessage (WaKey "call@broadcast" "" false (Some (callFrom e)))
                               None)) ;;
         match topicId with
         | Some t =>
             if t =? 0 then log Error "Could not create call topic"
             else
               run lift (call (ESendMessage Forum "📞 Incoming Call" (Some t))
                              (done_if sendOk)) ;;
               log Info "Sent call notification"
         | None => log Error "Could not create call topic"
         end)
        (log Error "Error handling call notification").

(** ** Revoke buttons *)

(** [createRevokeButton(whatsappKey)], lines 419-430; [buttonId] is the
    identifier made from the clock and a random number. *)
Definition createRevokeButton (buttonId : string) (whatsappKey : waKey) : M state string :=
  run modify (set_revokeButtons <[buttonId := whatsappKey]>) ;;
  ret buttonId.

(** The outcomes of the calls of [handleCallbackQuery]. *)
Record revokeEnv := RevokeEnv {
  rDeleteOk : bool;
  rEditOk : bool;
  rAnswerOk : bool;
  rAnswerFailedOk : bool
}.

(** [handleCallbackQuery(query)], lines 496-535. *)
Definition handleCallbackQuery (env : revokeEnv) (query : tgQuery) : M state unit :=
  try_catch
    (let buttonId := queryData query in
     whatsappKey <- gets (λ s, revokeButtons s !! buttonId) ;;
     match whatsappKey with
     | None =>
         call (EAnswerCallbackQuery (queryId query) "❌ Revoke button expired" true)
              (done_if (rAnswerOk env))
     | Some key =>
         run send (WSendDelete (remoteJid key) key) (rDeleteOk env) ;;
         run send (TEditMessageText "🗑️ Message revoked") (rEditOk env) ;;
         run call (EAnswerCallbackQuery (queryId query) "✅ Message revoked successfully" false)
                  (done_if (rAnswerOk env)) ;;
         modify (set_revokeButtons (delete buttonId))
     end)
    (run log Error "Failed to handle callback query" ;;
     call (EAnswerCallbackQuery (queryId query) "❌ Failed to revoke message" true)
          (done_if (rAnswerFailedOk env))).

(** [handleMessageReaction(reaction)], lines 538-558; [emoji] is
    [reaction.new_reaction?.[0]?.emoji]. *)
Definition handleMessageReaction (sendOk : bool) (emoji : option string)
    (reaction : tgReaction) : M state unit :=
  try_catch
    (whatsappKey <- gets (λ s, messageIdMapping (base s) !! TgId (reactionMessageId reaction)) ;;
     match whatsappKey with
     | None => ret tt
     | Some key =>
         match emoji with
         | Some em =>
             if negb (JS.truthy em) then ret tt
             else
               run send (WSendReact (remoteJid key) em key) sendOk ;;
               log Debug "Sent reaction to WhatsApp"
         | None => ret tt
         end
     end)
    (log Error "Failed to handle message reaction").

(** ** Read receipts *)

(** [queueMessageForReadReceipt(chatJid, messageKey)], lines 1076-1088. *)
Definition queueMessageForReadReceipt (ft : features)
    (chatJid : string) (messageKey : waKey) : M state unit :=
  if negb (default false (readReceipts ft)) then ret tt
  else
    run modify (set_messageQueue (λ q, <[chatJid := default [] (q !! chatJid) ++ [messageKey]]> q)) ;;
    run setTimeout 2000 (ProcessReadReceipts chatJid) ;;
    ret tt.

(** [processReadReceipts(chatJid)], lines 1090-1104, up to its [await]
    (lines 1092-1096).  With a socket, [readMessages] is called with
    the array the queue holds, recorded here with the keys it has at
    the time of the call, and the method waits: the queue is emptied
    only by [readMessagesSettled].  Without a socket nothing is awaited
    and the queue is emptied at once. *)
Definition processReadReceipts (sock : bool) (chatJid : string) : M state unit :=
  messages <- gets (λ s, messageQueue s !! chatJid) ;;
  match messages with
  | None | Some [] => ret tt
  | Some ms =>
      if sock then
        run modify (set_outbox (λ o, o ++ [WReadMessages ms])) ;;
        run await (ReadMessagesSettled chatJid) ;;
        ret tt
      else modify (set_messageQueue <[chatJid := []]>)
  end.

(** [processReadReceipts(chatJid)] after its [await], lines 1096-1103:
    when [readMessages] has returned, whatever the queue of the chat
    holds by then is replaced by an empty array; when it has thrown,
    the queue stays as it is. *)
Definition readMessagesSettled (readOk : bool) (chatJid : string) : M state unit :=
  try_catch
    (run (if readOk then ret tt else throw) ;;
     run log Debug "Marked messages as read" ;;
     modify (set_messageQueue <[chatJid := []]>))
    (log Debug "Failed to send read receipts").

(** [markAsRead(jid, messageKeys)], lines 1597-1607. *)
Definition markAsRead (ft : features) (sock readOk : bool)
    (jid : string) (messageKeys : list waKey) : M state unit :=
  try_catch
    (if negb sock || bool_decide (messageKeys = []) || negb (default false (readReceipts ft))
     then ret tt
     else
       run send (WReadMessages messageKeys) readOk ;;
       log Debug "Marked messages as read")
    (log Debug "Failed to mark messages as read").

(** ** Participants *)

(** The clock readings and the outcome of the write of
    [createUserMapping]. *)
Record userEnv := UserEnv {
  uSaveOk : bool;
  uFirstSeen : Z;
  uNow : Z
}.

(** [createUserMapping(participant, whatsappMsg)], lines 1106-1134.  The
    entry of a known participant is the object the cache holds: the
    method counts the message in that object before it asks for the
    write. *)
Definition createUserMapping (env : userEnv) (participant : string) : M state unit :=
  known <- gets (λ s, userMappings (base s) !! participant) ;;
  match known with
  | Some userData =>
      let counted := UserData (name userData) (phone userData) (firstSeen userData)
                       (orZero (messageCount userData) + 1) in
      run modify (set_base (set_userMappings <[participant := counted]>)) ;;
      lift (saveUserMapping (uSaveOk env) (uNow env) participant counted)
  | None =>
      let userPhone := JS.phoneOf participant in
      userName <- gets (λ s, contactMappings (base s) !! userPhone) ;;
      run lift (saveUserMapping (uSaveOk env) (uNow env) participant
                  (UserData userName userPhone (uFirstSeen env) 1)) ;;
      log Debug "Created user mapping"
  end.

(** [findWhatsAppJidByTopic(topicId)], lines 2147-2154; [topicId] is
    [None] for [undefined].  The loop visits the entries in the order
    [map_to_list] gives, not in the insertion order of the [Map]. *)
Definition findWhatsAppJidByTopic (b : bridge) (topicId : option Z) : option string :=
  match topicId with
  | Some t => fst <$> List.find (λ e, bool_decide (e.2 = t)) (map_to_list (chatMappings b))
  | None => None
  end.

(** ** Timeouts *)

(** What the socket and the clock answer when a timeout fires. *)
Record fireEnv := FireEnv {
  fSock : bool;
  fNow : Z;
  fOk : bool
}.

(** The callbacks handed to [setTimeout], lines 1297-1299, 1085-1087,
    731-737, 1658-1660 and 1707-1709, and the rest of
    [processReadReceipts]. *)
Definition runTask (ft : features) (env : fireEnv) (k : timerTask) : M state unit :=
  match k with
  | ForgetCall key => modify (set_activeCallNotifications (delete key))
  | ProcessReadReceipts chatJid => processReadReceipts (fSock env) chatJid
  | ReadMessagesSettled chatJid => readMessagesSettled (fOk env) chatJid
  | PausePresence jid =>
      try_catch
        (sendPresence ft (fSock env) (fNow env) (fOk env) jid "paused")
        (log Debug "Failed to send paused presence")
  | AvailablePresence jid => sendPresence ft (fSock env) (fNow env) (fOk env) jid "available"
  | MarkAsRead jid keys => markAsRead ft (fSock env) (fOk env) jid keys
  end.

(** The pending callback with the handle [id] runs: the timeout fires,
    or the awaited call settles.  It is no longer pending.  Nothing
    happens when no such callback is pending. *)
Definition fire (ft : features) (env : fireEnv) (id : nat) : M state unit :=
  ts <- gets timers ;;
  match List.find (λ t, (timerId t =? id)%nat) ts with
  | Some t =>
      run clearTimeout id ;;
      runTask ft env (task t)
  | None => ret tt
  end.

End Ext.

(** * [src/TelegramBridge.js], first class: the relay of messages *)

Module Relay.
Import Bridge Ext.

(** The fields of [whatsappMsg.message] that [syncMessage] and
    [syncOutgoingMessage] look at: which of them are present. *)
Record waBody := WaBody {
  quotedMessage : bool;
  ptvMessage : bool;
  videoPtv : bool;
  imageMessage : bool;
  videoMessage : bool;
  audioMessage : bool;
  documentMessage : bool;
  stickerMessage : bool;
  locationMessage : bool;
  contactMessage : bool
}.

(** A message that carries text only. *)
Definition plain : waBody :=
  WaBody false false false false false false false false false false.

(** The outcomes of the calls of [syncMessage] for a text. *)
Record syncEnv := SyncEnv {
  yUser : userEnv;
  yTopic : topicEnv;
  ySend : option Z;
  ySaveOk : bool;
  yNow : Z
}.

Definition newline : string := String (Ascii.ascii_of_nat 10) "".

(** [sendSimpleMessage(topicId, text, sender)], lines 2122-2137; [send]
    is the id of the message Telegram answers with. *)
Definition sendSimpleMessage (send : option Z) (topicId : option Z)
    (text : string) : M state (option Z) :=
  match topicId with
  | None => ret None
  | Some t =>
      if t =? 0 then ret None
      else
        try_catch
          (messageId <- call (ESendMessage Forum text (Some t)) send ;;
           ret (Some messageId))
          (run log Error "Failed to send message to Telegram" ;;
           ret None)
  end.

(** [if (sentMsg && whatsappMsg.key?.id) await this.saveMessageMapping(...)] *)
Definition recordSent (env : syncEnv) (sentMsg : option Z) (key : waKey) : M state unit :=
  match sentMsg with
  | Some m =>
      if negb (m =? 0) && JS.truthy (keyId key)
      then lift (saveMessageMapping (ySaveOk env) (yNow env) m key)
      else ret tt
  | None => ret tt
  end.

(** The handlers of the other kinds of message: [handleStatusMessage],
    [handleMentionAll], [handleQuotedMessage], [handleWhatsAppMedia],
    [handleWhatsAppLocation] and [handleWhatsAppContact]. *)
Record waHandlers := WaHandlers {
  handleStatusMessage : waMessage → string → M state unit;
  handleMentionAll : waMessage → string → option Z → M state unit;
  handleQuotedMessage : waMessage → string → option Z → M state unit;
  handleWhatsAppMedia : waMessage → string → option Z → bool → M state unit;
  handleWhatsAppLocation : waMessage → option Z → bool → M state unit;
  handleWhatsAppContact : waMessage → option Z → bool → M state unit
}.

(** [syncOutgoingMessage(whatsappMsg, text, topicId, sender)], lines
    1046-1074. *)
Definition syncOutgoingMessage (h : waHandlers) (env : syncEnv)
    (whatsappMsg : waMessage) (body : waBody)
    (text : string) (topicId : Z) : M state unit :=
  try_catch
    (if ptvMessage body || videoPtv body then
       handleWhatsAppMedia h whatsappMsg "video_note" (Some topicId) true
     else if imageMessage body then handleWhatsAppMedia h whatsappMsg "image" (Some topicId) true
     else if videoMessage body then handleWhatsAppMedia h whatsappMsg "video" (Some topicId) true
     else if audioMessage body then handleWhatsAppMedia h whatsappMsg "audio" (Some topicId) true
     else if documentMessage body then
       handleWhatsAppMedia h whatsappMsg "document" (Some topicId) true
     else if stickerMessage body then
       handleWhatsAppMedia h whatsappMsg "sticker" (Some topicId) true
     else if locationMessage body then handleWhatsAppLocation h whatsappMsg (Some topicId) true
     else if contactMessage body then handleWhatsAppContact h whatsappMsg (Some topicId) true
     else if JS.truthy text then
       sentMsg <- sendSimpleMessage (ySend env) (Some topicId) ("📤 You: " +:+ text) ;;
       recordSent env sentMsg (mKey whatsappMsg)
     else ret tt)
    (log Error "Failed to sync outgoing message").

(** [syncMessage(whatsappMsg, text)], lines 803-872; [botUp] is
    [this.telegramBot]. *)
Definition syncMessage (h : waHandlers) (cfg : config) (ft : features) (botUp : bool)
    (env : syncEnv)
    (whatsappMsg : waMessage) (body : waBody) (text : string) : M state unit :=
  if negb botUp || negb (telegramEnabled ft) then ret tt
  else
    let key := mKey whatsappMsg in
    let sender := remoteJid key in
    let participant := JS.orElse (participant key) sender in
    if String.eqb sender "status@broadcast" then handleStatusMessage h whatsappMsg text
    else if fromMe key then
      existingTopicId <- gets (λ s, chatMappings (base s) !! sender) ;;
      match existingTopicId with
      | Some t =>
          if t =? 0 then ret tt
          else syncOutgoingMessage h env whatsappMsg body text t
      | None => ret tt
      end
    else
      run createUserMapping (yUser env) participant ;;
      topicId <- lift (getOrCreateTopic cfg (yTopic env) sender whatsappMsg) ;;
      run (if JS.truthy text && JS.endsWith "@g.us" sender &&
              (JS.includes "@all" text || JS.includes "@everyone" text)
           then handleMentionAll h whatsappMsg text topicId
           else ret tt) ;;
      if quotedMessage body then handleQuotedMessage h whatsappMsg text topicId
      else
        run (if ptvMessage body || videoPtv body then
               handleWhatsAppMedia h whatsappMsg "video_note" topicId false
             else if imageMessage body then handleWhatsAppMedia h whatsappMsg "image" topicId false
             else if videoMessage body then handleWhatsAppMedia h whatsappMsg "video" topicId false
             else if audioMessage body then handleWhatsAppMedia h whatsappMsg "audio" topicId false
             else if documentMessage body then
               handleWhatsAppMedia h whatsappMsg "document" topicId false
             else if stickerMessage body then
               handleWhatsAppMedia h whatsappMsg "sticker" topicId false
             else if locationMessage body then handleWhatsAppLocation h whatsappMsg topicId false
             else if contactMessage body then handleWhatsAppContact h whatsappMsg topicId false
             else if JS.truthy text then
               messageText <-
                 (if JS.endsWith "@g.us" sender && negb (String.eqb participant sender) then
                    let senderPhone := JS.phoneOf participant in
                    senderName <- gets (λ s,
                      JS.orElse (contactMappings (base s) !! senderPhone) senderPhone) ;;
                    ret ("👤 " +:+ senderName +:+ ":" +:+ newline +:+ text)
                  else ret text) ;;
               sentMsg <- sendSimpleMessage (ySend env) topicId messageText ;;
               recordSent env sentMsg key
             else ret tt) ;;
        if JS.truthy (keyId key) && negb (bool_decide (readReceipts ft = Some false))
        then queueMessageForReadReceipt ft sender key
        else ret tt.

(** ** From Telegram to WhatsApp *)

(** A message of a Telegram topic, as far as [handleTelegramMessage]
    and the handlers of a text read it: [tReply] is the id of
    [reply_to_message] and whether a bot sent it; the flags tell which
    attachments are present. *)
Record telegramMsg := TelegramMsg {
  tChatId : Z;
  tMessageId : Z;
  tThread : option Z;
  tReply : option (Z * bool);
  tText : option string;
  tSpoiler : bool;
  tPhoto : bool;
  tVideo : bool;
  tAnimation : bool;
  tVideoNote : bool;
  tVoice : bool;
  tAudio : bool;
  tDocument : bool;
  tSticker : bool;
  tLocation : bool;
  tContact : bool
}.

(** A text message without a reply and without attachments. *)
Definition textMessage (chat id : Z) (thread : option Z) (text : string) : telegramMsg :=
  TelegramMsg chat id thread None (Some text) false
    false false false false false false false false false false.

(** The outcomes of the calls of the Telegram handlers: [gSelf] is
    [this.whatsappBot.sock.user.id]; [gSendResult] is what
    [whatsappBot.sendMessage] answers, [None] when it throws and
    [Some None] when the answer has no key; the other fields tell
    whether a call succeeds, and give the clock and an identifier for a
    revoke button. *)
Record tgEnv := TgEnv {
  gSock : bool;
  gNow : Z;
  gPresenceOk : bool;
  gSelf : option string;
  gSendResult : option (option waKey);
  gReactionOk : bool;
  gSaveOk : bool;
  gButtonId : string;
  gOptionsOk : bool
}.

(** What follows a successful [whatsappBot.sendMessage] in
    [handleTelegramText], lines 1695-1710, and in [handleTelegramQuote],
    lines 1735-1743. *)
Definition afterSend (ft : features) (env : tgEnv) (msg : telegramMsg)
    (whatsappJid : string) (withButton : bool) (sendResult : option waKey) : M state unit :=
  match sendResult with
  | Some key =>
      if JS.truthy (keyId key) then
        run setReaction (gReactionOk env) (tChatId msg) (tMessageId msg) "👍" ;;
        run lift (saveMessageMapping (gSaveOk env) (gNow env) (tMessageId msg) key) ;;
        run (if withButton && revokeButtonsEnabled ft then
               run createRevokeButton (gButtonId env) key ;;
               call (ESendMessage (Chat (tChatId msg)) "🔧 Message options:" (tThread msg))
                    (done_if (gOptionsOk env))
             else ret tt) ;;
        run setTimeout 1000 (MarkAsRead whatsappJid [key]) ;;
        ret tt
      else ret tt
  | None => ret tt
  end.

(** [handleTelegramText(msg, whatsappJid)], lines 1669-1716. *)
Definition handleTelegramText (ft : features) (env : tgEnv) (msg : telegramMsg)
    (whatsappJid : string) : M state unit :=
  try_catch
    (let text := if tSpoiler msg then (λ t, "🫥 " +:+ t) <$> tText msg else tText msg in
     mentions <-
       (if JS.endsWith "@g.us" whatsappJid then
          match tText msg with
          | None => throw
          | Some t =>
              if JS.includes "@all" t || JS.includes "@everyone" t then
                participants <- gets (λ s,
                  default [] (groupParticipants (base s) !! whatsappJid)) ;;
                match participants with
                | [] => ret []
                | _ =>
                    match gSelf env with
                    | Some self =>
                        ret (List.filter (λ p, negb (String.eqb p self)) participants)
                    | None => throw
                    end
                end
              else ret []
          end
        else ret []) ;;
     ephemeralSetting <- gets (λ s, ephemeralSettings (base s) !! whatsappJid) ;;
     let ephemeralExpiration :=
       match ephemeralSetting with
       | Some e => if eEnabled e then Some (eTimer e) else None
       | None => None
       end in
     run modify (set_outbox (λ o, o ++
           [WSendText whatsappJid text mentions ephemeralExpiration None])) ;;
     match gSendResult env with
     | None => throw
     | Some sendResult => afterSend ft env msg whatsappJid true sendResult
     end)
    (run log Error "Failed to handle Telegram text" ;;
     setReaction (gReactionOk env) (tChatId msg) (tMessageId msg) "❌").

(** [handleTelegramQuote(msg, whatsappJid)], lines 1718-1748. *)
Definition handleTelegramQuote (ft : features) (env : tgEnv) (msg : telegramMsg)
    (whatsappJid : string) : M state unit :=
  try_catch
    (match tReply msg with
     | None => throw
     | Some (quotedMsgId, _) =>
         quotedWhatsappKey <- gets (λ s, messageIdMapping (base s) !! TgId quotedMsgId) ;;
         match quotedWhatsappKey with
         | None => handleTelegramText ft env msg whatsappJid
         | Some quoted =>
             run modify (set_outbox (λ o, o ++
                   [WSendText whatsappJid (tText msg) [] None (Some quoted)])) ;;
             match gSendResult env with
             | None => throw
             | Some sendResult => afterSend ft env msg whatsappJid false sendResult
             end
         end
     end)
    (run log Error "Failed to handle Telegram quote" ;;
     setReaction (gReactionOk env) (tChatId msg) (tMessageId msg) "❌").

(** The handlers of replies to a status and of attachments:
    [handleStatusReply], [handleTelegramMedia], [handleTelegramLocation]
    and [handleTelegramContact]. *)
Record tgHandlers := TgHandlers {
  handleStatusReply : telegramMsg → M state unit;
  handleTelegramMedia : telegramMsg → string → M state unit;
  handleTelegramLocation : telegramMsg → M state unit;
  handleTelegramContact : telegramMsg → M state unit
}.

(** [handleTelegramMessage(msg)], lines 1609-1668. *)
Definition handleTelegramMessage (h : tgHandlers) (ft : features) (env : tgEnv)
    (msg : telegramMsg) : M state unit :=
  try_catch
    (found <- gets (λ s, findWhatsAppJidByTopic (base s) (tThread msg)) ;;
     match found with
     | None => log Warn "Could not find WhatsApp chat for Telegram message"
     | Some whatsappJid =>
         if negb (JS.truthy whatsappJid) then
           log Warn "Could not find WhatsApp chat for Telegram message"
         else
           run sendTypingPresence ft (gSock env) (gNow env) (gPresenceOk env) whatsappJid ;;
           if String.eqb whatsappJid "status@broadcast" && bool_decide (is_Some (tReply msg))
           then handleStatusReply h msg
           else if match tReply msg with Some (_, isBot) => isBot | None => false end
           then handleTelegramQuote ft env msg whatsappJid
           else
             run (if tPhoto msg then handleTelegramMedia h msg "photo"
                  else if tVideo msg then handleTelegramMedia h msg "video"
                  else if tAnimation msg then handleTelegramMedia h msg "animation"
                  else if tVideoNote msg then handleTelegramMedia h msg "video_note"
                  else if tVoice msg then handleTelegramMedia h msg "voice"
                  else if tAudio msg then handleTelegramMedia h msg "audio"
                  else if tDocument msg then handleTelegramMedia h msg "document"
                  else if tSticker msg then handleTelegramMedia h msg "sticker"
                  else if tLocation msg then handleTelegramLocation h msg
                  else if tContact msg then handleTelegramContact h msg
                  else if JS.otruthy (tText msg) then handleTelegramText ft env msg whatsappJid
                  else ret tt) ;;
             run setTimeout 2000 (AvailablePresence whatsappJid) ;;
             ret tt
     end)
    (run log Error "Failed to handle Telegram message" ;;
     setReaction (gReactionOk env) (tChatId msg) (tMessageId msg) "❌").

End Relay.

(** * [TelegramCommands]: the commands that change the bridge *)

Module Commands.
Import Bridge Ext.

Definition set_authorizedUsers (f : gset Z → gset Z) (b : bridge) :=
  Build (chatMappings b) (userMappings b) (contactMappings b)
    (messageIdMapping b) (ephemeralSettings b) (groupParticipants b)
    (profilePicCache b) (topicVerificationCache b) (f (authorizedUsers b))
    (blockedUsers b) (rateLimiter b) (pollingRetries b) (botChatId b)
    (collection b).

(** [s.toLowerCase()] on the letters A to Z.  The other characters are
    left alone; no other character becomes a letter of a command name
    or of [on] and [off], which is what the results are compared
    with. *)
Definition lowerChar (a : Ascii.ascii) : Ascii.ascii :=
  let n := Ascii.nat_of_ascii a in
  if (65 <=? n)%nat && (n <=? 90)%nat then Ascii.ascii_of_nat (n + 32) else a.

Fixpoint toLowerCase (s : string) : string :=
  match s with
  | EmptyString => EmptyString
  | String a s' => String (lowerChar a) (toLowerCase s')
  end.

(** [s.split(c)] for a separator of one character. *)
Fixpoint split (c : Ascii.ascii) (s : string) : list string :=
  match s with
  | EmptyString => [EmptyString]
  | String a s' =>
      if Ascii.eqb a c then EmptyString :: split c s'
      else match split c s' with
           | w :: ws => String a w :: ws
           | [] => [String a EmptyString]
           end
  end.

(** [number.includes('@') ? number : `${number}@s.whatsapp.net`] *)
Definition jidOf (number : string) : string :=
  if JS.includes "@" number then number else number +:+ "@s.whatsapp.net".

(** The value of a string of decimal digits. *)
Fixpoint digitsValue (acc : Z) (s : string) : Z :=
  match s with
  | EmptyString => acc
  | String a s' => digitsValue (acc * 10 + (Z.of_nat (Ascii.nat_of_ascii a) - 48)) s'
  end.

(** The string without its last character, and that character. *)
Fixpoint splitLast (s : string) : option (string * Ascii.ascii) :=
  match s with
  | EmptyString => None
  | String a s' =>
      match splitLast s' with
      | None => Some (EmptyString, a)
      | Some (front, z) => Some (String a front, z)
      end
  end.

(** [parseDuration(duration)], lines 5333-5346: digits followed by one
    of [h], [d] and [m].  The arithmetic is that of the integers; the
    method computes with floating point numbers, which agree with it
    as long as the results stay below 2^53. *)
Definition parseDuration (duration : string) : Z :=
  match splitLast duration with
  | Some (value, unit) =>
      if JS.test_digits value then
        if Ascii.eqb unit "h" then digitsValue 0 value * 60 * 60 * 1000
        else if Ascii.eqb unit "d" then digitsValue 0 value * 24 * 60 * 60 * 1000
        else if Ascii.eqb unit "m" then digitsValue 0 value * 60 * 1000
        else 8 * 60 * 60 * 1000
      else 8 * 60 * 60 * 1000
  | None => 8 * 60 * 60 * 1000
  end.

(** [parseEphemeralTimer(timer)], lines 5348-5355. *)
Definition parseEphemeralTimer (timer : string) : Z :=
  if String.eqb timer "24h" then 86400
  else if String.eqb timer "7d" then 604800
  else if String.eqb timer "90d" then 7776000
  else 604800.

Section Authorization.
(** [parseInt(s)], [None] for [NaN]. *)
Variable parseInt : string → option Z.
(** [config.get('telegram.ownerId')] *)
Variable ownerId : option Z.

(** [handleAuthorize(chatId, args)], lines 5135-5164. *)
Definition handleAuthorize (replyOk : bool) (chatId : Z) (args : list string)
    : M bridge unit :=
  if negb (bool_decide (Some chatId = ownerId)) then
    call (ESendMessage (Chat chatId) "❌ Only the owner can authorize users" None)
         (done_if replyOk)
  else
    match args with
    | [] =>
        call (ESendMessage (Chat chatId) "❌ Usage: /authorize <user_id>" None)
             (done_if replyOk)
    | a :: _ =>
        match parseInt a with
        | None =>
            call (ESendMessage (Chat chatId) "❌ Invalid user ID" None) (done_if replyOk)
        | Some userId =>
            run modify (set_authorizedUsers (λ u, u ∪ {[userId]})) ;;
            call (ESendMessage (Chat chatId) "✅ Authorized user" None) (done_if replyOk)
        end
    end.

(** [handleUnauthorize(chatId, args)], lines 5166-5195. *)
Definition handleUnauthorize (replyOk : bool) (chatId : Z) (args : list string)
    : M bridge unit :=
  if negb (bool_decide (Some chatId = ownerId)) then
    call (ESendMessage (Chat chatId) "❌ Only the owner can unauthorize users" None)
         (done_if replyOk)
  else
    match args with
    | [] =>
        call (ESendMessage (Chat chatId) "❌ Usage: /unauthorize <user_id>" None)
             (done_if replyOk)
    | a :: _ =>
        match parseInt a with
        | None =>
            call (ESendMessage (Chat chatId) "❌ Invalid user ID" None) (done_if replyOk)
        | Some userId =>
            run modify (set_authorizedUsers (λ u, u ∖ {[userId]})) ;;
            call (ESendMessage (Chat chatId) "❌ Unauthorized user" None) (done_if replyOk)
        end
    end.

(** The other cases of the [switch] in [handleCommand]: the command as
    it was typed, the chat and the arguments. *)
Variable otherCommand : string → Z → list string → M bridge unit.

(** The [switch] of [handleCommand] with its [try] and [catch], lines
    4593-4674. *)
Definition dispatchCommand (replyOk errorOk : bool) (msg : tgMessage) : M bridge unit :=
  match text msg with
  | Some t =>
      match split " " t with
      | command :: args =>
          try_catch
            (if String.eqb (toLowerCase command) "/authorize"
             then handleAuthorize replyOk (chatId msg) args
             else if String.eqb (toLowerCase command) "/unauthorize"
             then handleUnauthorize replyOk (chatId msg) args
             else otherCommand command (chatId msg) args)
            (run log Error "Error handling command" ;;
             call (ESendMessage (Chat (chatId msg)) "❌ Command error" None)
                  (done_if errorOk))
      | [] => ret tt
      end
  | None => ret tt
  end.

End Authorization.

(** The outcomes of the calls of [handleEphemeral]. *)
Record ephemeralEnv := EphemeralEnv {
  eSendOk : bool;
  eReplyOk : bool;
  eErrorReplyOk : bool
}.

(** [handleEphemeral(chatId, args)], lines 4971-5021;
    [WSendDisappearing jid None] is the request with
    [disappearingMessagesInChat: false]. *)
Definition handleEphemeral (env : ephemeralEnv) (chatId : Z) (args : list string)
    : M state unit :=
  match args with
  | number :: action :: rest =>
      let timer := JS.orElse (head rest) "7d" in
      try_catch
        (let jid := jidOf number in
         if String.eqb (toLowerCase action) "on" then
           let timerSeconds := parseEphemeralTimer timer in
           run send (WSendDisappearing jid (Some timerSeconds)) (eSendOk env) ;;
           run modify (set_base (set_ephemeralSettings <[jid := Ephemeral true timerSeconds]>)) ;;
           call (ESendMessage (Chat chatId) "⏰ Enabled ephemeral messages" None)
                (done_if (eReplyOk env))
         else if String.eqb (toLowerCase action) "off" then
           run send (WSendDisappearing jid None) (eSendOk env) ;;
           run modify (set_base (set_ephemeralSettings (delete jid))) ;;
           call (ESendMessage (Chat chatId) "⏰ Disabled ephemeral messages" None)
                (done_if (eReplyOk env))
         else throw)
        (call (ESendMessage (Chat chatId) "❌ Error setting ephemeral" None)
              (done_if (eErrorReplyOk env)))
  | _ =>
      call (ESendMessage (Chat chatId) "❌ Usage: /ephemeral <number> <on|off> [timer]" None)
           (done_if (eReplyOk env))
  end.

End Commands.

(** * What the collection says about a cache *)

Module Mirror.
Import Bridge.

(** The value the last document of [c] that has an entry for [k]
    carries: what the loader leaves in the cache under [k]. *)
Fixpoint lastEntry {K V : Type} `{EqDecision K} (entry : doc → option (K * V))
    (k : K) (c : list doc) : option V :=
  match c with
  | [] => None
  | d :: c' =>
      match lastEntry entry k c' with
      | Some v => Some v
      | None =>
          match entry d with
          | Some (k', v) => if bool_decide (k = k') then Some v else None
          | None => None
          end
      end
  end.

(** The cache entries the loader makes of a document, lines 158-182. *)
Definition userEntry (d : doc) : option (string * userData) :=
  match d with
  | DUser id u _ =>
      Some (id, UserData (name u) (phone u) (firstSeen u) (orZero (messageCount u)))
  | _ => None
  end.

Definition contactEntry (d : doc) : option (string * string) :=
  match d with
  | DContact ph nm _ => Some (ph, nm)
  | _ => None
  end.

Definition messageEntry (d : doc) : option (Z * waKey) :=
  match d with
  | DMessage tg key _ => Some (tg, key)
  | _ => None
  end.

(** A cache, read through [look], mirrors the collection: it holds what
    the loader would make of the documents, and the collection has at
    most one document for a key. *)
Definition mirrors {K V : Type} `{EqDecision K} (entry : doc → option (K * V))
    (flt : K → filter) (look : bridge → K → option V) (b : bridge) : Prop :=
  ∀ k, look b k = lastEntry entry k (collection b) ∧
       (Collection.count (flt k) (collection b) ≤ 1)%nat.

(** The entry [d] is the entry [u] as it was at an earlier write: the
    same name, phone and first contact, and a count that is not
    larger. *)
Definition behind (d u : userData) : Prop :=
  name d = name u ∧ phone d = phone u ∧ firstSeen d = firstSeen u ∧
  messageCount d ≤ messageCount u.

(** The participants a reload gives, against the participants the cache
    had: the same participants, each entry behind the cached one. *)
Definition lagging (loaded cached : option userData) : Prop :=
  match loaded, cached with
  | Some d, Some u => behind d u
  | None, None => True
  | _, _ => False
  end.

(** The cache of participants is in step with the collection but for
    the counts: it has an entry for the participants the collection has
    a document for, and what the loader would make of the document is
    behind the entry. *)
Definition usersLag (b : bridge) : Prop :=
  ∀ id, lagging (lastEntry userEntry id (collection b)) (userMappings b !! id) ∧
        (Collection.count (FUser id) (collection b) ≤ 1)%nat.

(** The upserts of participants. *)
Definition isUser (u : Scenario.upsert) : bool :=
  match u with Scenario.UUser _ _ _ _ => true | _ => false end.

(** The caches of contacts and message ids mirror the collection, and
    the cache of participants is in step with it but for the counts. *)
Definition mirrored (b : bridge) : Prop :=
  usersLag b ∧
  mirrors contactEntry FContact (λ b ph, contactMappings b !! ph) b ∧
  mirrors messageEntry FMessage (λ b tg, messageIdMapping b !! TgId tg) b ∧
  Scenario.telegramKeyed b.

End Mirror.

(** * Runs the further properties are stated on *)

Module Runs.
Import Bridge Ext.

(** A request for a presence update: the clock, the kind of presence,
    and whether the socket accepts the update. *)
Record presenceRequest := PresenceRequest {
  pNow : Z;
  pType : string;
  pOk : bool
}.

(** [sendPresence] called for one chat once per request, with the
    socket connected. *)
Fixpoint presenceBurst (ft : features) (jid : string)
    (reqs : list presenceRequest) : M state unit :=
  match reqs with
  | [] => ret tt
  | r :: reqs' =>
      run sendPresence ft true (pNow r) (pOk r) jid (pType r) ;;
      presenceBurst ft jid reqs'
  end.



(** Messages of one participant, one after the other. *)
Fixpoint messagesFrom (envs : list userEnv) (participant : string) : M state unit :=
  match envs with
  | [] => ret tt
  | env :: envs' =>
      run createUserMapping env participant ;;
      messagesFrom envs' participant
  end.

(** The keys of the incoming messages of a chat are queued for a read
    receipt, one after the other. *)
Fixpoint queueAll (ft : features) (chatJid : string) (keys : list waKey) : M state unit :=
  match keys with
  | [] => ret tt
  | k :: keys' =>
      run queueMessageForReadReceipt ft chatJid k ;;
      queueAll ft chatJid keys'
  end.

(** The timeouts with the handles [ids] fire in that order. *)
Fixpoint fireAll (ft : features) (envs : list fireEnv) (ids : list nat) : M state unit :=
  match envs, ids with
  | env :: envs', id :: ids' =>
      run fire ft env id ;;
      fireAll ft envs' ids'
  | _, _ => ret tt
  end.

(** [n] timeouts of [queueMessageForReadReceipt] with the handles
    [first], [first + 1], ... fire, and the call of [readMessages] the
    first of them makes settles before the second fires.  [fired] and
    [settled] are what the socket answers when a timeout fires and when
    a call settles. *)
Definition settledInTime (ft : features) (fired settled : list fireEnv)
    (first n : nat) : M state unit :=
  run fireAll ft (take 1 fired) [first] ;;
  run fireAll ft (take 1 settled) [(first + n)%nat] ;;
  fireAll ft (drop 1 fired) (seq (S first) (n - 1)).

(** The [n] timeouts fire one after the other before any of the calls
    of [readMessages] they make settles; then the calls settle. *)
Definition backToBack (ft : features) (fired settled : list fireEnv)
    (first n : nat) : M state unit :=
  run fireAll ft fired (seq first n) ;;
  fireAll ft settled (seq (first + n) n).

(** What the program writes into the caches and the collection: a
    message of a participant is counted by [createUserMapping] (lines
    1106-1134, the one caller of [saveUserMapping]), and the three
    other save methods are called. *)
Inductive cacheWrite :=
| CountParticipant (env : userEnv) (participant : string)
| SaveContact (ok : bool) (now : Z) (ph nm : string)
| SaveMessage (ok : bool) (now : Z) (telegramMsgId : Z) (whatsappKey : waKey)
| SaveChat (ok : bool) (now : Z) (whatsappJid : string) (telegramTopicId : Z).

Definition write (w : cacheWrite) : M state unit :=
  match w with
  | CountParticipant env participant => createUserMapping env participant
  | SaveContact ok now ph nm => lift (saveContactMapping ok now ph nm)
  | SaveMessage ok now tg key => lift (saveMessageMapping ok now tg key)
  | SaveChat ok now jid topic => lift (saveChatMapping ok now jid topic)
  end.

(** The durable write of [w] succeeds. *)
Definition written (w : cacheWrite) : bool :=
  match w with
  | CountParticipant env _ => uSaveOk env
  | SaveContact ok _ _ _ | SaveMessage ok _ _ _ | SaveChat ok _ _ _ => ok
  end.

(** Handlers of the other kinds of message that do nothing. *)
Definition idleWa : Relay.waHandlers :=
  Relay.WaHandlers (λ _ _, ret tt) (λ _ _ _, ret tt) (λ _ _ _, ret tt)
    (λ _ _ _ _, ret tt) (λ _ _ _, ret tt) (λ _ _ _, ret tt).
Definition idleTg : Relay.tgHandlers :=
  Relay.TgHandlers (λ _, ret tt) (λ _ _, ret tt) (λ _, ret tt) (λ _, ret tt).

(** The messages and photos of a history that Telegram was asked to
    send. *)
Definition sentToTelegram (tr : list event) : list event :=
  List.filter (λ e, match e with
                    | ESendMessage _ _ _ | ESendPhoto _ _ => true
                    | _ => false
                    end) tr.

(** Every switch of the configuration is on. *)
Definition allOn : features := Features true true true (Some true) true.

(** In the bridge of [src/telegram/bridge.js], [topicMappings] leads
    from the topic of every chat back to the chat. *)
Definition routedBack (b : Legacy.bridge) : Prop :=
  ∀ jid t, Legacy.chatMappings b !! jid = Some t → Legacy.topicMappings b !! t = Some jid.

(** No two chats share a topic. *)
Definition topicsDistinct (b : bridge) : Prop :=
  ∀ j1 j2 t, chatMappings b !! j1 = Some t → chatMappings b !! j2 = Some t → j1 = j2.

End Runs.

(** * Properties *)

Import Bridge Scenario.

(** ** Reasoning about methods *)

Section Keeps.
Context {S : Type} (P : S → Prop).

Lemma keeps_ret {A} (a : A) : keeps P (ret a).
Proof. intros s H. exact H. Qed.

Lemma keeps_throw {A} : keeps P (@throw S A).
Proof. intros s H. exact H. Qed.

Lemma keeps_emit e : keeps P (emit e).
Proof. intros s H. exact H. Qed.

Lemma keeps_log l t : keeps P (log l t).
Proof. intros s H. exact H. Qed.

Lemma keeps_gets {A} (f : S → A) : keeps P (gets f).
Proof. intros s H. exact H. Qed.

Lemma keeps_get : keeps P get.
Proof. intros s H. exact H. Qed.

Lemma keeps_modify f : (∀ s, P s → P (f s)) → keeps P (modify f).
Proof. intros Hf s H. apply Hf, H. Qed.

Lemma keeps_bind {A B} (m : M S A) (k : A → M S B) :
  keeps P m → (∀ a, keeps P (k a)) → keeps P (bind m k).
Proof.
  intros Hm Hk s H. unfold bind, final. specialize (Hm s H).
  destruct (m s) as [[[a|] s1] t1] eqn:E; cbn in *; [|exact Hm].
  specialize (Hk a s1 Hm). unfold final in Hk.
  destruct (k a s1) as [[r s2] t2]; exact Hk.
Qed.

Lemma keeps_try_catch {A} (m h : M S A) :
  keeps P m → keeps P h → keeps P (try_catch m h).
Proof.
  intros Hm Hh s H. unfold try_catch, final. specialize (Hm s H).
  destruct (m s) as [[[a|] s1] t1] eqn:E; cbn in *; [exact Hm|].
  specialize (Hh s1 Hm). unfold final in Hh.
  destruct (h s1) as [[r s2] t2]; exact Hh.
Qed.

Lemma keeps_call {A} e (r : option A) : keeps P (call e r).
Proof.
  unfold call. apply keeps_bind; [apply keeps_emit|].
  intros _. destruct r; [apply keeps_ret|apply keeps_throw].
Qed.

Lemma keeps_for_each {A} (l : list A) (body : A → M S unit) :
  (∀ x, keeps P (body x)) → keeps P (for_each l body).
Proof.
  intros Hb. induction l as [|x l IH]; cbn; [apply keeps_ret|].
  apply keeps_bind; [apply Hb|]. intros _. exact IH.
Qed.

Lemma keeps_count_each {A} (l : list A) (body : A → M S Z) n :
  (∀ x, keeps P (body x)) → keeps P (count_each l body n).
Proof.
  intros Hb. revert n. induction l as [|x l IH]; intros n; cbn; [apply keeps_ret|].
  apply keeps_bind; [apply Hb|]. intros k. apply IH.
Qed.

End Keeps.

(** Loading never throws out of its loop, and a loop of [loadOne]
    returns normally. *)
Lemma for_each_loadOne_returns l b :
  result (for_each l loadOne b) = Ret tt.
Proof.
  revert b. induction l as [|d l IH]; intros b; [reflexivity|].
  cbn [for_each]. unfold bind, result.
  destruct d; cbn;
    match goal with
    | |- context [for_each l loadOne ?s] =>
        specialize (IH s); unfold result in IH;
        destruct (for_each l loadOne s) as [[r s2] t2]; exact IH
    end.
Qed.

(** ** Access control gate *)


(** The second class does not consult [blockedUsers]; it gives the same
    answer as the first on every bridge whose block set is empty. *)
Lemma isAuthorizedV2_agrees (b : bridge) (userId : Z) :
  blockedUsers b = ∅ →
  BridgeV2.isAuthorized b userId = isAuthorized b userId.
Proof.
  intros Hb. unfold BridgeV2.isAuthorized, isAuthorized. rewrite Hb.
  rewrite (bool_decide_eq_false_2 (userId ∈ (∅ : gset Z))) by set_solver.
  cbn. by rewrite andb_true_r.
Qed.

(** No modelled method of the mapping store adds a blocked user. *)
Lemma perform_blockedUsers u b :
  blockedUsers (final (perform u b)) = blockedUsers b.
Proof. destruct u as [[] ?|[] ?|[] ?|[] ?]; reflexivity. Qed.

(** *** Rate limiter *)

Section RateLimit.
Variable cfg : option rateLimit.
Variable userId : Z.
Variable action : string.

Let key := rateKey userId action.
Let limit := limitOf cfg.

(** A first request opens a window. *)
Lemma checkRateLimit_first now b :
  rateLimiter b !! key = None →
  checkRateLimit cfg now userId action b =
    (Ret true, set_rateLimiter <[key := RateEntry 1 (now + window limit)]> b, []).
Proof. intros H. unfold checkRateLimit, bind, gets. cbn. fold key. by rewrite H. Qed.

(** A request after the window has run out opens a new one. *)
Lemma checkRateLimit_expired now b d :
  rateLimiter b !! key = Some d →
  resetTime d < now →
  checkRateLimit cfg now userId action b =
    (Ret true, set_rateLimiter <[key := RateEntry 1 (now + window limit)]> b, []).
Proof.
  intros H Hlt. unfold checkRateLimit, bind, gets. cbn. fold key. rewrite H.
  destruct (now >? resetTime d) eqn:E; [reflexivity|]. lia.
Qed.

(** A request inside the window is counted while the limit allows. *)
Lemma checkRateLimit_counted now b d :
  rateLimiter b !! key = Some d →
  now ≤ resetTime d →
  count d < messages limit →
  checkRateLimit cfg now userId action b =
    (Ret true,
     set_rateLimiter <[key := RateEntry (count d + 1) (resetTime d)]> b, []).
Proof.
  intros H Hle Hc. unfold checkRateLimit, bind, gets. cbn. fold key. rewrite H.
  destruct (now >? resetTime d) eqn:E; [lia|]. fold limit.
  destruct (count d >=? messages limit) eqn:E2; [lia|]. reflexivity.
Qed.

(** A request inside the window beyond the limit is rejected and
    changes nothing. *)
Lemma checkRateLimit_rejected now b d :
  rateLimiter b !! key = Some d →
  now ≤ resetTime d →
  messages limit ≤ count d →
  checkRateLimit cfg now userId action b = (Ret false, b, []).
Proof.
  intros H Hle Hc. unfold checkRateLimit, bind, gets. cbn. fold key. rewrite H.
  destruct (now >? resetTime d) eqn:E; [lia|]. fold limit.
  destruct (count d >=? messages limit) eqn:E2; [reflexivity|]. lia.
Qed.

(** Requests that all fall inside the current window: as many are
    allowed as the limit leaves room for, the others are rejected. *)
Lemma burst_in_window ts : ∀ b d,
  rateLimiter b !! key = Some d →
  Forall (λ t, t ≤ resetTime d) ts →
  let room := Z.to_nat (messages limit - count d) in
  ∃ b',
    burst cfg userId action ts b =
      (Ret (replicate (length ts `min` room) true ++ replicate (length ts - room) false),
       b', []) ∧
    rateLimiter b' !! key =
      Some (RateEntry (count d + Z.of_nat (length ts `min` room)) (resetTime d)).
Proof.
  induction ts as [|t ts IH]; intros b d Hd Hts room.
  - exists b. cbn. split; [reflexivity|]. rewrite Hd. destruct d; cbn. f_equal. f_equal. lia.
  - apply Forall_cons in Hts as [Ht Hts].
    cbn [burst]. unfold bind at 1.
    destruct (Z_lt_le_dec (count d) (messages limit)) as [Hc|Hc].
    + rewrite (checkRateLimit_counted t b d Hd Ht Hc).
      set (b1 := set_rateLimiter _ b).
      assert (H1 : rateLimiter b1 !! key = Some (RateEntry (count d + 1) (resetTime d))).
      { unfold b1. cbn. apply lookup_insert_eq. }
      destruct (IH b1 _ H1 Hts) as (b' & Hrun & Hb'). cbn in Hrun, Hb'.
      exists b'. unfold bind at 1. rewrite Hrun. cbn. split.
      * f_equal. f_equal.
        assert (Hroom : room = Datatypes.S (Z.to_nat (messages limit - (count d + 1)))).
        { unfold room. lia. }
        rewrite Hroom. cbn. reflexivity.
      * rewrite Hb'. f_equal. f_equal.
        assert (Hroom : room = Datatypes.S (Z.to_nat (messages limit - (count d + 1)))).
        { unfold room. lia. }
        rewrite Hroom. lia.
    + rewrite (checkRateLimit_rejected t b d Hd Ht Hc).
      destruct (IH b d Hd Hts) as (b' & Hrun & Hb'). cbn in Hrun, Hb'.
      exists b'. unfold bind at 1. rewrite Hrun. cbn.
      assert (Hroom : room = 0%nat) by (unfold room; lia).
      rewrite Hroom in *.
      replace (Z.to_nat (messages limit - count d)) with 0%nat in * by lia.
      rewrite Nat.min_0_r in *. cbn in *. rewrite Nat.sub_0_r. split; [reflexivity|].
      exact Hb'.
Qed.

End RateLimit.

Lemma rejections_replicate (a r : nat) :
  rejections (replicate a true ++ replicate r false) = r.
Proof.
  unfold rejections. induction a as [|a IH]; cbn; [|exact IH].
  induction r as [|r IHr]; cbn; [reflexivity|]. by rewrite IHr.
Qed.

(** C3, as the code has it.  Let the limit be at least one.  A request
    at [t0] that finds no running window is allowed and opens the window
    [t0 .. t0 + windowMs] with the counter at 1.  Of the requests that
    follow inside that window the first [maxCount - 1] are counted and
    allowed; every later one is rejected and leaves the counter where it
    is, so [n] requests in one window meet [n - maxCount] rejections.
    The first request after the window has run out is allowed and opens
    a new window with the counter at 1. *)
Theorem checkRateLimit_fixed_window
    (cfg : option rateLimit) (userId : Z) (action : string)
    (t0 : Z) (ts : list Z) (t' : Z) (b : bridge) :
  1 ≤ messages (limitOf cfg) →
  windowOpensAt b userId action t0 →
  Forall (λ t, t ≤ t0 + window (limitOf cfg)) ts →
  t0 + window (limitOf cfg) < t' →
  let n := length (t0 :: ts) in
  let m := Z.to_nat (messages (limitOf cfg)) in
  ∃ b',
    burst cfg userId action (t0 :: ts) b =
      (Ret (replicate (n `min` m) true ++ replicate (n - m) false), b', []) ∧
    rateLimiter b' !! rateKey userId action =
      Some (RateEntry (Z.of_nat (n `min` m)) (t0 + window (limitOf cfg))) ∧
    (messages (limitOf cfg) < Z.of_nat n → onePerExcess cfg userId action (t0 :: ts) b) ∧
    checkRateLimit cfg t' userId action b' =
      (Ret true,
       set_rateLimiter
         <[rateKey userId action := RateEntry 1 (t' + window (limitOf cfg))]> b', []).
Proof.
  intros Hm Hopen Hts Hlate n m.
  set (b1 := set_rateLimiter
    <[rateKey userId action := RateEntry 1 (t0 + window (limitOf cfg))]> b).
  assert (Hfirst : checkRateLimit cfg t0 userId action b = (Ret true, b1, [])).
  { destruct Hopen as [Hnone|(d & Hd & Hexp)].
    - by apply checkRateLimit_first.
    - by eapply checkRateLimit_expired. }
  assert (H1 : rateLimiter b1 !! rateKey userId action =
               Some (RateEntry 1 (t0 + window (limitOf cfg)))).
  { unfold b1. cbn. apply lookup_insert_eq. }
  destruct (burst_in_window cfg userId action ts b1 _ H1 Hts) as (b' & Hrun & Hb').
  cbn [count resetTime] in Hrun, Hb'.
  assert (Hroom : m = Datatypes.S (Z.to_nat (messages (limitOf cfg) - 1))).
  { unfold m. lia. }
  assert (Hburst : burst cfg userId action (t0 :: ts) b =
    (Ret (replicate (n `min` m) true ++ replicate (n - m) false), b', [])).
  { cbn [burst]. unfold bind at 1. rewrite Hfirst. unfold bind at 1. rewrite Hrun.
    cbn. unfold n. rewrite Hroom. cbn. reflexivity. }
  exists b'. split; [exact Hburst|]. split; [|split].
  - rewrite Hb'. f_equal. f_equal. unfold n. rewrite Hroom. cbn [length]. lia.
  - intros Hn. eexists. unfold result. rewrite Hburst. cbn. split; [reflexivity|].
    rewrite rejections_replicate. unfold m. cbn [length] in *. lia.
  - eapply checkRateLimit_expired; [exact Hb'|]. cbn. exact Hlate.
Qed.

(** The theorem at a limit of two requests per second: of four requests
    in one window two are rejected. *)
Lemma checkRateLimit_fixed_window_witness :
  1 ≤ 2 ∧
  ∃ b',
    burst (Some (RateLimit 2 1000)) 7 "message" [0; 10; 20; 30] new =
      (Ret [true; true; false; false], b', []) ∧
    rateLimiter b' !! "7_message" = Some (RateEntry 2 1000) ∧
    (2 < 4 → onePerExcess (Some (RateLimit 2 1000)) 7 "message" [0; 10; 20; 30] new) ∧
    checkRateLimit (Some (RateLimit 2 1000)) 1001 7 "message" b' =
      (Ret true, set_rateLimiter <["7_message" := RateEntry 1 2001]> b', []).
Proof.
  split; [lia|].
  apply (checkRateLimit_fixed_window (Some (RateLimit 2 1000)) 7 "message"
           0 [10; 20; 30] 1001 new).
  - cbn. lia.
  - left. reflexivity.
  - cbn. repeat constructor; lia.
  - cbn. lia.
Defined.

(** C3, as the specification words it, fails for a limit of zero: the
    first request is allowed whatever the limit, so of three requests in
    one window two are rejected, not three. *)
Lemma checkRateLimit_zero_limit :
  result (burst (Some (RateLimit 0 60000)) 7 "message" [0; 1; 2] new)
    = Ret [true; false; false] ∧
  ¬ onePerExcess (Some (RateLimit 0 60000)) 7 "message" [0; 1; 2] new.
Proof.
  split; [reflexivity|].
  intros (answers & Hr & Hn).
  assert (answers = [true; false; false]) as ->.
  { vm_compute in Hr. by injection Hr. }
  vm_compute in Hn. discriminate.
Qed.

(** ** Mapping store *)

(** C5, as the code has it.  Every upsert of a chat, user, contact or
    message record issues the durable write first.  When the write
    succeeds the collection holds the new document and the cache is set
    next.  When the write fails the failure is logged, nothing else
    happens, and the bridge, its caches included, is as it was. *)
Theorem upsert_durable_then_cache (u : upsert) (b : bridge) :
  let r := perform u b in
  result r = Ret tt ∧
  head (trace r) = Some (EDbUpdateOne (written u).1 (written u).2) ∧
  (if durable u then
     collection (final r) = Collection.updateOne (written u).1 (written u).2 (collection b) ∧
     trace r !! 1%nat = Some (ECacheSet (cacheOf u)) ∧
     cached u (final r)
   else
     final r = b ∧
     ∃ text, trace r = [EDbUpdateOne (written u).1 (written u).2; ELog Error text]).
Proof.
  destruct u as [[] now jid topic|[] now id d|[] now ph nm|[] now tg key]; cbn;
    repeat split; try reflexivity; try apply lookup_insert_eq; try (by destruct b);
    eexists; reflexivity.
Qed.

(** C5, as the specification words it, fails: a chat mapping whose
    durable write fails is not in the cache afterwards. *)
Lemma upsert_failed_write_not_cached :
  let u := UChat false 1000 "4915@s.whatsapp.net" 17 in
  durable u = false ∧ ¬ cached u (final (perform u new)).
Proof. split; [reflexivity|]. cbn. discriminate. Qed.

(** ** Cross-reference index *)

Lemma telegramKeyed_new : telegramKeyed new.
Proof. intros k. reflexivity. Qed.

Lemma telegramKeyed_perform u : keeps telegramKeyed (perform u).
Proof.
  intros b H. destruct u as [[] ?|[] ?|[] ?|[] ?]; try exact H; intros k; cbn;
    try apply H.
  rewrite lookup_insert_ne by discriminate. apply H.
Qed.

Lemma telegramKeyed_loadOne d : keeps telegramKeyed (loadOne d).
Proof.
  intros b H. destruct d; try exact H; intros k; cbn; try apply H.
  rewrite lookup_insert_ne by discriminate. apply H.
Qed.

Lemma telegramKeyed_load ok : keeps telegramKeyed (loadMappingsFromDb ok).
Proof.
  unfold loadMappingsFromDb. apply keeps_try_catch; [|apply keeps_log].
  apply keeps_bind.
  - unfold collection_find. apply keeps_bind; [apply keeps_emit|]. intros _.
    apply keeps_bind; [apply keeps_gets|]. intros c.
    destruct ok; [apply keeps_ret|apply keeps_throw].
  - intros l. apply keeps_bind; [|intros; apply keeps_log].
    apply keeps_for_each. intros d. apply telegramKeyed_loadOne.
Qed.

(** C7, as the code has it.  After a relay has recorded the pair with
    [saveMessageMapping], looking the Telegram message id up returns the
    WhatsApp message key; the index has no entry under a WhatsApp key,
    so a look-up by the WhatsApp key finds nothing. *)
Theorem saveMessageMapping_resolves (now telegramMsgId : Z) (whatsappKey : waKey)
    (b : bridge) :
  telegramKeyed b →
  let b' := final (saveMessageMapping true now telegramMsgId whatsappKey b) in
  resolve b' (TgId telegramMsgId) = Some whatsappKey ∧
  ∀ k, resolve b' (WaRef k) = None.
Proof.
  intros H b'. split.
  - apply lookup_insert_eq.
  - intros k. unfold resolve, b'. cbn.
    rewrite lookup_insert_ne by discriminate. apply H.
Qed.

Lemma saveMessageMapping_resolves_witness :
  telegramKeyed new ∧
  let k := WaKey "4915@s.whatsapp.net" "3EB0A1" false None in
  let b' := final (saveMessageMapping true 1000 42 k new) in
  resolve b' (TgId 42) = Some k ∧ ∀ k', resolve b' (WaRef k') = None.
Proof.
  split; [exact telegramKeyed_new|].
  apply (saveMessageMapping_resolves 1000 42
           (WaKey "4915@s.whatsapp.net" "3EB0A1" false None) new telegramKeyed_new).
Defined.

(** C7, as the specification words it, fails in the direction from the
    WhatsApp key to the Telegram id: after the pair (42, k) has been
    recorded, a look-up of [k] returns nothing. *)
Lemma resolve_remote_key_fails :
  let k := WaKey "4915@s.whatsapp.net" "3EB0A1" false None in
  let b' := final (saveMessageMapping true 1000 42 k new) in
  resolve b' (TgId 42) = Some k ∧ resolve b' (WaRef k) = None.
Proof. split; reflexivity. Qed.

(** *** Loading *)

Lemma for_each_loadOne_cons d l b :
  final (for_each (d :: l) loadOne b) = final (for_each l loadOne (final (loadOne d b))).
Proof.
  cbn [for_each]. unfold bind, final.
  destruct (loadOne d b) as [[[[]|] s1] t1] eqn:E; cbn.
  - by destruct (for_each l loadOne s1) as [[r s2] t2].
  - destruct d; discriminate.
Qed.

Lemma loaded_chat l : ∀ b jid,
  chatMappings (final (for_each l loadOne b)) !! jid =
    match lastChat jid l with
    | Some t => Some t
    | None => chatMappings b !! jid
    end.
Proof.
  induction l as [|d l IH]; intros b jid; [reflexivity|].
  rewrite for_each_loadOne_cons, IH. cbn [lastChat].
  destruct (lastChat jid l); [reflexivity|].
  destruct d; try reflexivity. cbn.
  case_bool_decide as Hj.
  - subst. apply lookup_insert_eq.
  - by apply lookup_insert_ne.
Qed.

Lemma loadMappingsFromDb_final b :
  final (loadMappingsFromDb true b) = final (for_each (collection b) loadOne b).
Proof.
  unfold loadMappingsFromDb, try_catch, collection_find, bind, gets, emit, final. cbn.
  pose proof (for_each_loadOne_returns (collection b) b) as Hr. unfold result in Hr.
  destruct (for_each (collection b) loadOne b) as [[r s2] t2]. cbn in *. by subst.
Qed.

Lemma count_zero_lastChat jid c :
  Collection.count (FChat jid) c = 0%nat → lastChat jid c = None.
Proof.
  unfold Collection.count. induction c as [|d c IH]; [reflexivity|]. cbn.
  destruct (matches (FChat jid) d) eqn:E; cbn; [intros; discriminate|].
  intros H. rewrite (IH H). destruct d; try reflexivity.
  unfold matches in E. by rewrite E.
Qed.

Lemma lastChat_updateOne_chat jid topic a a' c jid' :
  (Collection.count (FChat jid) c ≤ 1)%nat →
  lastChat jid' (Collection.updateOne (FChat jid) (DChat jid topic a a') c) =
    if bool_decide (jid' = jid) then Some topic else lastChat jid' c.
Proof.
  unfold Collection.count. induction c as [|d c IH]; intros Hc.
  - reflexivity.
  - cbn [Collection.updateOne]. cbn [List.filter] in Hc.
    destruct (matches (FChat jid) d) eqn:E.
    + cbn [length] in Hc.
      assert (H0 : lastChat jid c = None).
      { apply count_zero_lastChat. unfold Collection.count. lia. }
      destruct d; try discriminate. unfold matches in E.
      apply bool_decide_eq_true in E. subst.
      cbn [lastChat]. case_bool_decide as Hj; [subst; by rewrite H0|].
      destruct (lastChat jid' c); reflexivity.
    + cbn [lastChat]. rewrite (IH Hc). case_bool_decide as Hj; reflexivity.
Qed.

(** An upsert of another type leaves the chat documents alone. *)
Lemma updateOne_other_chat f d c jid :
  (∀ x, matches f x = true → matches (FChat jid) x = false) →
  matches (FChat jid) d = false →
  lastChat jid (Collection.updateOne f d c) = lastChat jid c ∧
  Collection.count (FChat jid) (Collection.updateOne f d c) = Collection.count (FChat jid) c.
Proof.
  assert (Hlast : ∀ x, matches (FChat jid) x = false →
            match x with
            | DChat j t _ _ => if bool_decide (jid = j) then Some t else None
            | _ => None
            end = None).
  { intros [] Hx; try reflexivity. unfold matches in Hx. by rewrite Hx. }
  intros Hf Hd. unfold Collection.count. induction c as [|x c [IH1 IH2]].
  - cbn [Collection.updateOne List.filter lastChat]. rewrite Hd, (Hlast d Hd). done.
  - cbn [Collection.updateOne]. destruct (matches f x) eqn:E.
    + pose proof (Hf x E) as Hx. cbn [List.filter lastChat]. rewrite Hd, Hx.
      rewrite (Hlast d Hd), (Hlast x Hx). done.
    + cbn [List.filter lastChat]. rewrite IH1.
      destruct (matches (FChat jid) x); cbn [length]; by rewrite IH2.
Qed.

Lemma count_updateOne_same jid topic a a' c :
  Collection.count (FChat jid) (Collection.updateOne (FChat jid) (DChat jid topic a a') c)
    = (1 `max` Collection.count (FChat jid) c)%nat.
Proof.
  assert (Em : matches (FChat jid) (DChat jid topic a a') = true).
  { unfold matches. by apply bool_decide_eq_true. }
  unfold Collection.count. induction c as [|x c IH].
  - cbn [Collection.updateOne List.filter]. by rewrite Em.
  - cbn [Collection.updateOne List.filter]. destruct (matches (FChat jid) x) eqn:E.
    + cbn [List.filter]. rewrite Em. cbn [length]. lia.
    + cbn [List.filter]. rewrite E. exact IH.
Qed.

Lemma count_updateOne_chat jid topic a a' c jid' :
  (Collection.count (FChat jid') c ≤ 1)%nat →
  (Collection.count (FChat jid') (Collection.updateOne (FChat jid) (DChat jid topic a a') c) ≤ 1)%nat.
Proof.
  intros Hc. destruct (decide (jid' = jid)) as [->|Hne].
  - rewrite count_updateOne_same. lia.
  - destruct (updateOne_other_chat (FChat jid) (DChat jid topic a a') c jid') as [_ E].
    + intros [] Hx; try reflexivity. unfold matches in Hx |- *.
      apply bool_decide_eq_true in Hx. subst. by apply bool_decide_eq_false.
    + unfold matches. by apply bool_decide_eq_false.
    + by rewrite E.
Qed.

Lemma synced_new : synced new.
Proof. intros jid. split; [reflexivity|]. unfold Collection.count. cbn. lia. Qed.

Lemma synced_perform u : keeps synced (perform u).
Proof.
  intros b H.
  destruct u as [[] now jid topic|[] now id d|[] now ph nm|[] now tg key];
    try exact H; intros j; destruct (H j) as [Hl Hc]; cbn.
  - split.
    + rewrite lastChat_updateOne_chat by apply H.
      case_bool_decide as Hj; [subst; apply lookup_insert_eq|].
      rewrite lookup_insert_ne by done. exact Hl.
    + by apply count_updateOne_chat.
  - destruct (updateOne_other_chat (FUser id)
      (DUser id (UserData (name d) (phone d) (firstSeen d) (orZero (messageCount d))) now)
      (collection b) j) as [E1 E2]; try reflexivity.
    { by intros []. }
    rewrite E1, E2. split; assumption.
  - destruct (updateOne_other_chat (FContact ph) (DContact ph nm now)
      (collection b) j) as [E1 E2]; try reflexivity.
    { by intros []. }
    rewrite E1, E2. split; assumption.
  - destruct (updateOne_other_chat (FMessage tg) (DMessage tg key now)
      (collection b) j) as [E1 E2]; try reflexivity.
    { by intros []. }
    rewrite E1, E2. split; assumption.
Qed.

(** A bridge whose chat cache mirrors the collection gets the same chat
    cache back when the caches are cleared and loaded again. *)
Lemma synced_roundtrip b :
  synced b →
  chatMappings (final (loadMappingsFromDb true (clearCaches b))) = chatMappings b.
Proof.
  intros H. apply map_eq. intros jid.
  rewrite loadMappingsFromDb_final, loaded_chat. cbn.
  destruct (H jid) as [Hl _]. rewrite Hl.
  destruct (lastChat jid (collection b)); reflexivity.
Qed.

(** C6.  Start from a new bridge and perform any upserts, each with a
    durable write that succeeds or fails.  Clearing the caches and
    loading from the collection then gives back the chat cache as it was
    before the clear: the same WhatsApp JIDs with the same topic ids. *)
Theorem load_roundtrip (us : list upsert) :
  let b := final (for_each us perform new) in
  chatMappings (final (loadMappingsFromDb true (clearCaches b))) = chatMappings b.
Proof.
  intros b. apply synced_roundtrip.
  apply (keeps_for_each synced us perform synced_perform new synced_new).
Qed.

(** ** Topic lifecycle *)


Lemma getOrCreateTopic_unmapped cfg env chatJid msg b :
  chatMappings b !! chatJid = None →
  getOrCreateTopic cfg env chatJid msg b = createTopic cfg env chatJid msg b.
Proof.
  intros H. unfold getOrCreateTopic, bind at 1, gets. rewrite H.
  destruct (createTopic cfg env chatJid msg b) as [[r s] t]. reflexivity.
Qed.

(** With a mapping, the method starts with the probe. *)
Lemma getOrCreateTopic_mapped_eq cfg env chatJid msg topicId s :
  chatMappings s !! chatJid = Some topicId →
  getOrCreateTopic cfg env chatJid msg s =
  (exists_ <- verifyTopicExists (probeSend env) (probeDeleteOk env) topicId ;;
   if exists_ then ret (Some topicId)
   else
     run log Warn "Topic was deleted, recreating..." ;;
     run modify (set_chatMappings (delete chatJid)) ;;
     run emit (ECacheDelete ChatMappings) ;;
     run collection_deleteOne (purgeOk env) (FChat chatJid) ;;
     createTopic cfg env chatJid msg) s.
Proof.
  intros H. unfold getOrCreateTopic, bind at 1, gets. rewrite H.
  by destruct (bind _ _ s) as [[r s'] t'].
Qed.

Lemma sendProfilePicture_harmless cfg w topicId jid isUpdate :
  harmless (sendProfilePicture cfg w topicId jid isUpdate).
Proof.
  intros s. unfold sendProfilePicture.
  destruct (profilePicSync cfg); [|by repeat split; eexists].
  destruct w as [? ? ? ? [[url|]|] []]; cbn;
    try (by repeat split; eexists);
    destruct url; cbn; by repeat split; eexists.
Qed.

Lemma sendWelcomeMessage_harmless cfg w topicId jid isGroup msg :
  harmless (sendWelcomeMessage cfg w topicId jid isGroup msg).
Proof.
  intros s. unfold sendWelcomeMessage.
  destruct (sendProfilePicture_harmless cfg w topicId jid false s) as ([a Ha] & Hc & Hd & Ht).
  unfold result, final, trace in *.
  destruct w as [gm fs [sent|] pin url photo]; destruct isGroup, gm, fs, pin;
    unfold bind, try_catch, call, emit, ret, throw, log, done_if; cbn;
    try (by repeat split; eexists);
    destruct (sendProfilePicture cfg _ topicId jid false s) as [[[[]|] s'] t'] eqn:E;
    cbn in *; try discriminate;
    (split; [by eexists|]); (split; [exact Hc|]); (split; [exact Hd|]);
    try exact Ht.
Qed.

Lemma topicNameAndColor_harmless env chatJid :
  harmless (topicNameAndColor env chatJid).
Proof.
  intros s. unfold topicNameAndColor.
  destruct (String.eqb chatJid "status@broadcast"); [by repeat split; eexists|].
  destruct (String.eqb chatJid "call@broadcast"); [by repeat split; eexists|].
  destruct (JS.endsWith "@g.us" chatJid); [|by repeat split; eexists].
  destruct (groupMeta env) as [[subject members]|];
    unfold bind, try_catch, call, emit, ret, throw, log, modify; cbn;
    by repeat split; eexists.
Qed.
Lemma createdTopics_app t1 t2 :
  Async.createdTopics (t1 ++ t2) = Async.createdTopics t1 ++ Async.createdTopics t2.
Proof. unfold Async.createdTopics. apply omap_app. Qed.

Lemma createTopic_creates cfg env chatJid msg b t :
  chatIdMissing cfg = false →
  createForumTopic env = Some t →
  saveOk env = true →
  let r := createTopic cfg env chatJid msg b in
  result r = Ret (Some t) ∧
  chatMappings (final r) = <[chatJid := t]> (chatMappings b) ∧
  collection (final r) =
    Collection.updateOne (FChat chatJid) (DChat chatJid t (now env) (now env)) (collection b) ∧
  Async.createdTopics (trace r) = [t].
Proof.
  intros Hcfg Hc Hs r. subst r.
  remember (createTopic cfg env chatJid msg b) as X eqn:HX.
  unfold createTopic in HX. rewrite Hcfg in HX.
  destruct (topicNameAndColor_harmless env chatJid b) as ([nc Hn] & Hn1 & Hn2 & Hn3).
  unfold try_catch, bind at 1 in HX.
  destruct (topicNameAndColor env chatJid b) as [[o s1] t1].
  unfold result, final, trace in Hn, Hn1, Hn2, Hn3. cbn in Hn, Hn1, Hn2, Hn3. subst o.
  unfold call, saveChatMapping, collection_updateOne in HX. rewrite Hc, Hs in HX.
  unfold bind at 1 2 3 4 in HX. unfold try_catch, emit, ret, log, modify in HX. cbn in HX.
  set (W := if negb (chatJid =? "status@broadcast")%string && negb (chatJid =? "call@broadcast")%string then _ else _) in HX.
  set (s2 := set_topicVerificationCache _ _) in HX.
  assert (HW : harmless W).
  { unfold W. destruct (negb _ && negb _); [apply sendWelcomeMessage_harmless|].
    intros s. by repeat split; eexists. }
  destruct (HW s2) as ([[] Hw] & Hw1 & Hw2 & Hw3).
  unfold bind in HX. destruct (W s2) as [[o s3] t3].
  unfold result, final, trace in Hw, Hw1, Hw2, Hw3. cbn in Hw, Hw1, Hw2, Hw3. subst o.
  cbn in HX. subst X. cbn. rewrite Hw1, Hw2. unfold s2. cbn. rewrite Hn1, Hn2.
  repeat split.
  rewrite createdTopics_app, Hn3. cbn.
  unfold Async.createdTopics in *. cbn. by rewrite app_nil_r, Hw3.
Qed.

(** A call that finds a mapping whose probe succeeds returns the mapped
    topic, changes nothing and creates nothing. *)
Lemma getOrCreateTopic_reuses cfg env chatJid msg b t :
  chatMappings b !! chatJid = Some t →
  is_Some (probeSend env) → probeDeleteOk env = true →
  ∃ tr, getOrCreateTopic cfg env chatJid msg b = (Ret (Some t), b, tr) ∧
        Async.createdTopics tr = [].
Proof.
  intros Hm [testMsg Hp] Hd.
  rewrite (getOrCreateTopic_mapped_eq cfg env chatJid msg t b Hm).
  unfold verifyTopicExists. rewrite Hp, Hd.
  eexists. split; reflexivity.
Qed.

Lemma inTurn_reuses cfg chatJid msg t rest : ∀ b,
  chatMappings b !! chatJid = Some t →
  Forall (λ e, is_Some (probeSend e) ∧ probeDeleteOk e = true) rest →
  ∃ tr, inTurn cfg rest chatJid msg b = (Ret (replicate (length rest) (Some t)), b, tr) ∧
        Async.createdTopics tr = [].
Proof.
  induction rest as [|env rest IH]; intros b Hm Hrest.
  - exists []. split; reflexivity.
  - apply Forall_cons in Hrest as [[Hp Hd] Hrest].
    destruct (getOrCreateTopic_reuses cfg env chatJid msg b t Hm Hp Hd) as (tr1 & H1 & Hc1).
    destruct (IH b Hm Hrest) as (tr2 & H2 & Hc2).
    exists (tr1 ++ tr2 ++ []). split.
    + cbn [inTurn]. unfold bind at 1. rewrite H1. unfold bind at 1. rewrite H2. reflexivity.
    + by rewrite !createdTopics_app, Hc1, Hc2.
Qed.

Lemma count_deleteOne_le f g c :
  (Collection.count g (Collection.deleteOne f c) ≤ Collection.count g c)%nat.
Proof.
  unfold Collection.count. induction c as [|x c IH]; [reflexivity|].
  cbn [Collection.deleteOne List.filter]. destruct (matches f x).
  - destruct (matches g x); cbn [length]; lia.
  - cbn [List.filter]. destruct (matches g x); cbn [length]; lia.
Qed.

Lemma oneDocPerChat_saveChatMapping ok now jid topic :
  keeps oneDocPerChat (saveChatMapping ok now jid topic).
Proof.
  intros b H. destruct ok; [|exact H]. intros j. cbn.
  apply count_updateOne_chat, H.
Qed.

Lemma oneDocPerChat_deleteOne ok jid :
  keeps oneDocPerChat (collection_deleteOne ok (FChat jid)).
Proof.
  intros b H. destruct ok; [|exact H]. intros j. cbn.
  etrans; [apply count_deleteOne_le|apply H].
Qed.

Lemma oneDocPerChat_harmless {A} (m : M bridge A) :
  harmless m → keeps oneDocPerChat m.
Proof. intros Hm b H j. destruct (Hm b) as (_ & _ & Hc & _). rewrite Hc. apply H. Qed.

Lemma oneDocPerChat_enterCreate cfg jid :
  keeps oneDocPerChat (Async.enterCreate cfg jid).
Proof.
  unfold Async.enterCreate.
  destruct (chatIdMissing cfg); [by intros b H|].
  destruct (String.eqb jid "status@broadcast"); [by intros b H|].
  destruct (String.eqb jid "call@broadcast"); [by intros b H|].
  destruct (JS.endsWith "@g.us" jid); by intros b H.
Qed.

Lemma oneDocPerChat_segment cfg env jid msg p :
  keeps oneDocPerChat (Async.segment cfg env jid msg p).
Proof.
  destruct p; cbn [Async.segment]; try apply keeps_ret.
  - apply keeps_bind; [apply keeps_gets|]. intros [t|]; [apply keeps_ret|].
    apply oneDocPerChat_enterCreate.
  - apply keeps_bind.
    + unfold verifyTopicExists. apply keeps_try_catch; [|apply keeps_ret].
      apply keeps_bind; [apply keeps_call|]. intros mid.
      apply keeps_bind; [apply keeps_call|]. intros _. apply keeps_ret.
    + intros []; [apply keeps_ret|].
      apply keeps_bind; [apply keeps_log|]. intros _.
      apply keeps_bind; [by apply keeps_modify|]. intros _.
      apply keeps_bind; [apply keeps_emit|]. intros _. apply keeps_ret.
  - apply keeps_try_catch; [|apply keeps_ret].
    apply keeps_bind; [apply oneDocPerChat_deleteOne|]. intros _.
    apply oneDocPerChat_enterCreate.
  - apply keeps_bind; [|intros; apply keeps_ret].
    apply keeps_try_catch.
    + apply keeps_bind; [apply keeps_call|]. intros meta.
      apply keeps_bind; [by apply keeps_modify|]. intros _.
      apply keeps_bind; [apply keeps_emit|]. intros _. apply keeps_ret.
    + apply keeps_bind; [apply keeps_log|]. intros _. apply keeps_ret.
  - apply keeps_try_catch.
    + apply keeps_bind; [apply keeps_call|]. intros t. apply keeps_ret.
    + apply keeps_bind; [apply keeps_log|]. intros _. apply keeps_ret.
  - apply keeps_bind; [apply oneDocPerChat_saveChatMapping|]. intros _.
    apply keeps_bind; [apply keeps_log|]. intros _.
    destruct (negb _ && negb _); apply keeps_ret.
  - apply keeps_bind; [|intros; apply keeps_ret].
    apply oneDocPerChat_harmless, sendWelcomeMessage_harmless.
Qed.

Lemma oneDocPerChat_advance cfg i sys :
  oneDocPerChat (Async.shared sys) → oneDocPerChat (Async.shared (Async.advance cfg i sys)).
Proof.
  intros H. unfold Async.advance. destruct (Async.tasks sys !! i) as [t|]; [|exact H].
  pose proof (oneDocPerChat_segment cfg (Async.tEnv t) (Async.tJid t) (Async.tMsg t)
                (Async.tPc t) _ H) as Hs.
  unfold final in Hs.
  destruct (Async.segment _ _ _ _ _ _) as [[[p|] s] tr]; exact Hs.
Qed.

Lemma oneDocPerChat_execute cfg schedule : ∀ sys,
  oneDocPerChat (Async.shared sys) →
  oneDocPerChat (Async.shared (Async.execute cfg schedule sys)).
Proof.
  unfold Async.execute.
  induction schedule as [|i schedule IH]; intros sys H; [exact H|].
  cbn [foldl]. apply IH, oneDocPerChat_advance, H.
Qed.

(** ** A call on its own takes the steps of the method

    The steps of [Async.segment], taken one after the other without any
    other call in between, do what [getOrCreateTopic] does. *)

Ltac tidy_trace :=
  repeat first [rewrite app_nil_r | rewrite <- app_assoc]; cbn [app]; try reflexivity.

Section Alone.
Variables (cfg : config) (env : topicEnv) (chatJid : string) (msg : waMessage).

Lemma alone_finished n r s :
  Async.alone n cfg env chatJid msg (Async.Finished r) s = (Ret r, s, []).
Proof. by destruct n. Qed.

Lemma alone_rejected n s :
  Async.alone n cfg env chatJid msg Async.Rejected s = (Throw, s, []).
Proof. by destruct n. Qed.

Lemma alone_step n p s :
  match p with Async.Finished _ | Async.Rejected => False | _ => True end →
  Async.alone (Datatypes.S n) cfg env chatJid msg p s =
  bind (Async.segment cfg env chatJid msg p) (Async.alone n cfg env chatJid msg) s.
Proof. by destruct p. Qed.

Lemma alone_welcoming n topic s :
  Async.alone (Datatypes.S n) cfg env chatJid msg (Async.Welcoming topic) s =
  bind (sendWelcomeMessage cfg (welcome env) topic chatJid (JS.endsWith "@g.us" chatJid) msg)
       (λ _, ret (Some topic)) s.
Proof.
  rewrite alone_step by done. cbn [Async.segment]. unfold bind, ret.
  destruct (sendWelcomeMessage _ _ _ _ _ _ s) as [[[[]|] s1] t1]; [|reflexivity].
  rewrite alone_finished. tidy_trace.
Qed.

Lemma alone_saving n topic s :
  Async.alone (Datatypes.S (Datatypes.S n)) cfg env chatJid msg (Async.Saving topic) s =
  afterCreate cfg env chatJid msg topic s.
Proof.
  rewrite alone_step by done. cbn [Async.segment]. unfold afterCreate, bind, log, emit, ret.
  destruct (saveChatMapping (saveOk env) (now env) chatJid topic s) as [[[[]|] s1] t1];
    [|reflexivity].
  destruct (negb _ && negb _).
  - rewrite alone_welcoming. unfold bind, ret.
    destruct (sendWelcomeMessage _ _ _ _ _ _ s1) as [[[[]|] s2] t2]; tidy_trace.
  - rewrite alone_finished. tidy_trace.
Qed.

Lemma afterCreate_returns topic s :
  ∃ s' tr, afterCreate cfg env chatJid msg topic s = (Ret (Some topic), s', tr).
Proof.
  unfold afterCreate, bind, log, emit, ret.
  assert (Hs : ∃ s1 t1, saveChatMapping (saveOk env) (now env) chatJid topic s
                        = (Ret tt, s1, t1)).
  { unfold saveChatMapping. destruct (saveOk env); by eexists _, _. }
  destruct Hs as (s1 & t1 & ->).
  destruct (negb _ && negb _); [|by eexists _, _].
  destruct (sendWelcomeMessage_harmless cfg (welcome env) topic chatJid
              (JS.endsWith "@g.us" chatJid) msg s1) as ([[] Hr] & _).
  unfold result in Hr.
  destruct (sendWelcomeMessage _ _ _ _ _ _ s1) as [[o s2] t2]. cbn in Hr. subst o.
  by eexists _, _.
Qed.

Lemma alone_creating n topicName iconColor s :
  Async.alone (Datatypes.S (Datatypes.S (Datatypes.S n))) cfg env chatJid msg
    (Async.Creating topicName iconColor) s =
  try_catch
    (topic <- call (ECreateForumTopic topicName iconColor (createForumTopic env))
                   (createForumTopic env) ;;
     afterCreate cfg env chatJid msg topic)
    (run log Error "Failed to create Telegram topic" ;; ret None) s.
Proof.
  rewrite alone_step by done. cbn [Async.segment].
  unfold try_catch, call, bind, log, emit, ret, throw.
  destruct (createForumTopic env) as [topic|].
  - rewrite alone_saving.
    destruct (afterCreate_returns topic s) as (s' & tr & ->). tidy_trace.
  - rewrite alone_finished. tidy_trace.
Qed.

Lemma try_catch_bind {A B} (m : M bridge A) (k : A → M bridge B) h s a s1 t1 :
  m s = (Ret a, s1, t1) →
  try_catch (bind m k) h s =
    (let '(r, s2, t2) := try_catch (k a) h s1 in (r, s2, t1 ++ t2)).
Proof.
  intros E. unfold try_catch, bind. rewrite E.
  destruct (k a s1) as [[[b|] s2] t2]; [reflexivity|].
  destruct (h s2) as [[r s3] t3]. by rewrite app_assoc.
Qed.

Lemma createTopic_afterCreate s :
  createTopic cfg env chatJid msg s =
  (if chatIdMissing cfg then
     run log Error "Telegram chat ID not configured" ;; ret None
   else
     try_catch
       (nc <- topicNameAndColor env chatJid ;;
        topic <- call (ECreateForumTopic nc.1 nc.2 (createForumTopic env))
                      (createForumTopic env) ;;
        afterCreate cfg env chatJid msg topic)
       (run log Error "Failed to create Telegram topic" ;; ret None)) s.
Proof. reflexivity. Qed.

Lemma alone_enterCreate n s :
  bind (Async.enterCreate cfg chatJid)
       (Async.alone (Datatypes.S (Datatypes.S (Datatypes.S (Datatypes.S n))))
          cfg env chatJid msg) s =
  createTopic cfg env chatJid msg s.
Proof.
  rewrite createTopic_afterCreate. unfold Async.enterCreate.
  destruct (chatIdMissing cfg).
  { unfold bind, log, emit, ret. rewrite alone_finished. tidy_trace. }
  destruct (String.eqb chatJid "status@broadcast") eqn:Es.
  { rewrite (try_catch_bind _ _ _ s ("📊 Status Updates", 16739125) s []).
    2:{ unfold topicNameAndColor. by rewrite Es. }
    unfold bind at 1. unfold ret at 1. by rewrite alone_creating. }
  destruct (String.eqb chatJid "call@broadcast") eqn:Ec.
  { rewrite (try_catch_bind _ _ _ s ("📞 Call Logs", 16729943) s []).
    2:{ unfold topicNameAndColor. by rewrite Es, Ec. }
    unfold bind at 1. unfold ret at 1. by rewrite alone_creating. }
  destruct (JS.endsWith "@g.us" chatJid) eqn:Eg.
  - unfold bind at 1. unfold ret at 1. rewrite alone_step by done.
    cbn [Async.segment]. cbn [app].
    destruct (groupMeta env) as [meta|] eqn:Em.
    + rewrite (try_catch_bind _ _ _ s (meta.1, 7322096)
                 (set_groupParticipants <[chatJid := meta.2]> s)
                 [EGroupMetadata chatJid; ECacheSet GroupParticipants]).
      2:{ unfold topicNameAndColor. by rewrite Es, Ec, Eg, Em. }
      unfold bind at 1. unfold try_catch at 1, bind at 1 2 3 4, call, emit, ret, modify.
      cbn -[Async.alone]. rewrite alone_creating.
      destruct (try_catch _ _ _) as [[r s2] t2]. tidy_trace.
    + rewrite (try_catch_bind _ _ _ s ("Group Chat", 7322096) s
                 [EGroupMetadata chatJid; ELog Debug "Could not fetch group metadata"]).
      2:{ unfold topicNameAndColor. by rewrite Es, Ec, Eg, Em. }
      unfold bind at 1. unfold try_catch at 1, bind at 1 2 3, call, emit, ret, throw, log, emit.
      cbn -[Async.alone]. rewrite alone_creating.
      destruct (try_catch _ _ _) as [[r s2] t2]. tidy_trace.
  - rewrite (try_catch_bind _ _ _ s (contactLabel s (JS.phoneOf chatJid), 8043068) s []).
    2:{ unfold topicNameAndColor. by rewrite Es, Ec, Eg. }
    unfold bind at 1 2. unfold get, ret at 1. cbn -[Async.alone].
    by rewrite alone_creating.
Qed.

Lemma enterCreate_returns s :
  ∃ p s' tr, Async.enterCreate cfg chatJid s = (Ret p, s', tr).
Proof.
  unfold Async.enterCreate.
  destruct (chatIdMissing cfg); [by eexists _, _, _|].
  destruct (String.eqb chatJid "status@broadcast"); [by eexists _, _, _|].
  destruct (String.eqb chatJid "call@broadcast"); [by eexists _, _, _|].
  destruct (JS.endsWith "@g.us" chatJid); by eexists _, _, _.
Qed.

Lemma alone_purging n s :
  Async.alone (Datatypes.S (Datatypes.S (Datatypes.S (Datatypes.S (Datatypes.S n)))))
    cfg env chatJid msg Async.Purging s =
  (run collection_deleteOne (purgeOk env) (FChat chatJid) ;;
   createTopic cfg env chatJid msg) s.
Proof.
  rewrite alone_step by done. cbn [Async.segment].
  unfold collection_deleteOne. destruct (purgeOk env).
  - unfold try_catch, bind, emit, modify.
    cbn -[Async.alone createTopic Async.enterCreate].
    set (s1 := set_collection _ s).
    pose proof (alone_enterCreate n s1) as H. unfold bind in H.
    destruct (enterCreate_returns s1) as (p & s2 & t2 & E). rewrite E in H |- *.
    rewrite <- H.
    destruct (Async.alone _ _ _ _ _ p s2) as [[r s3] t3]. tidy_trace.
  - unfold try_catch, bind, emit, throw, ret. cbn -[Async.alone].
    rewrite alone_rejected. tidy_trace.
Qed.

Lemma alone_probing n topicId s :
  Async.alone
    (Datatypes.S (Datatypes.S (Datatypes.S (Datatypes.S (Datatypes.S (Datatypes.S n))))))
    cfg env chatJid msg (Async.Probing topicId) s =
  (exists_ <- verifyTopicExists (probeSend env) (probeDeleteOk env) topicId ;;
   if exists_ then ret (Some topicId)
   else
     run log Warn "Topic was deleted, recreating..." ;;
     run modify (set_chatMappings (delete chatJid)) ;;
     run emit (ECacheDelete ChatMappings) ;;
     run collection_deleteOne (purgeOk env) (FChat chatJid) ;;
     createTopic cfg env chatJid msg) s.
Proof.
  rewrite alone_step by done. cbn [Async.segment].
  set (K := bind (collection_deleteOne (purgeOk env) (FChat chatJid))
                 (λ _, createTopic cfg env chatJid msg)).
  assert (HK : ∀ s', Async.alone
            (Datatypes.S (Datatypes.S (Datatypes.S (Datatypes.S (Datatypes.S n)))))
            cfg env chatJid msg Async.Purging s' = K s').
  { intros s'. apply alone_purging. }
  clearbody K. unfold bind, log, emit, modify, ret.
  destruct (verifyTopicExists (probeSend env) (probeDeleteOk env) topicId s)
    as [[[[]|] s1] t1]; [| |reflexivity].
  - rewrite alone_finished. tidy_trace.
  - cbn -[Async.alone]. rewrite HK.
    destruct (K _) as [[r s2] t2]. tidy_trace.
Qed.

(** A call of [getOrCreateTopic] that runs on its own through its seven
    steps returns what the method returns, leaves the bridge as the
    method leaves it, and causes the same events in the same order. *)
Lemma alone_getOrCreateTopic s :
  Async.alone 7 cfg env chatJid msg Async.Start s =
  getOrCreateTopic cfg env chatJid msg s.
Proof.
  rewrite alone_step by done. cbn [Async.segment].
  destruct (chatMappings s !! chatJid) as [topicId|] eqn:Hm.
  - rewrite (getOrCreateTopic_mapped_eq cfg env chatJid msg topicId s Hm), <- (alone_probing 0).
    unfold bind at 1. unfold bind at 1. unfold gets. rewrite Hm. unfold ret.
    destruct (Async.alone _ _ _ _ _ _ s) as [[r s2] t2]. tidy_trace.
  - rewrite (getOrCreateTopic_unmapped cfg env chatJid msg s Hm), <- (alone_enterCreate 2).
    unfold bind, gets. rewrite Hm.
    destruct (Async.enterCreate cfg chatJid s) as [[[p|] s1] t1];
      [destruct (Async.alone _ _ _ _ _ p s1) as [[r s2] t2]|]; tidy_trace.
Qed.

End Alone.

(** C2, as the code has it.  First contacts of one unseen chat that are
    handled one after the other, the first with a topic creation and a
    durable write that succeed, the later ones with a probe that
    succeeds, all get the topic of the first: one topic is created, the
    cache maps the chat to it, and the collection holds one chat
    document for the chat.  Calls that overlap, in any number and any
    order of their steps, keep at most one chat document for each chat
    in the collection (the cache, a [Map], has one entry for a key by
    construction). *)
Theorem first_contacts_one_mapping (cfg : config) (env0 : topicEnv)
    (rest : list topicEnv) (chatJid : string) (msg : waMessage) (b : bridge) (t : Z) :
  chatIdMissing cfg = false →
  chatMappings b !! chatJid = None →
  Collection.count (FChat chatJid) (collection b) = 0%nat →
  createForumTopic env0 = Some t →
  saveOk env0 = true →
  Forall (λ e, is_Some (probeSend e) ∧ probeDeleteOk e = true) rest →
  let r := inTurn cfg (env0 :: rest) chatJid msg b in
  result r = Ret (replicate (Datatypes.S (length rest)) (Some t)) ∧
  Async.createdTopics (trace r) = [t] ∧
  chatMappings (final r) !! chatJid = Some t ∧
  Collection.count (FChat chatJid) (collection (final r)) = 1%nat ∧
  ∀ pending schedule,
    oneDocPerChat b →
    oneDocPerChat (Async.shared (Async.execute cfg schedule (Async.System b pending []))).
Proof.
  intros Hcfg Hm Hc Ht Hs Hrest r.
  assert (Hover : ∀ pending schedule, oneDocPerChat b →
            oneDocPerChat (Async.shared (Async.execute cfg schedule (Async.System b pending [])))).
  { intros pending schedule Hb. by apply oneDocPerChat_execute. }
  subst r. remember (inTurn cfg (env0 :: rest) chatJid msg b) as X eqn:HX.
  cbn [inTurn] in HX. unfold bind at 1 in HX.
  rewrite (getOrCreateTopic_unmapped cfg env0 chatJid msg b Hm) in HX.
  destruct (createTopic_creates cfg env0 chatJid msg b t Hcfg Ht Hs) as (H1 & H2 & H3 & H4).
  destruct (createTopic cfg env0 chatJid msg b) as [[o s1] t1].
  unfold result, final, trace in H1, H2, H3, H4. cbn in H1, H2, H3, H4. subst o.
  assert (Hm1 : chatMappings s1 !! chatJid = Some t).
  { rewrite H2. apply lookup_insert_eq. }
  destruct (inTurn_reuses cfg chatJid msg t rest s1 Hm1 Hrest) as (tr & Hr & Htr).
  unfold bind in HX. rewrite Hr in HX. cbn in HX. subst X. cbn.
  split; [reflexivity|]. split; [|split; [exact Hm1|split; [|exact Hover]]].
  - by rewrite !createdTopics_app, H4, Htr.
  - rewrite H3, count_updateOne_same, Hc. reflexivity.
Qed.

Lemma first_contacts_one_mapping_witness :
  chatIdMissing forum = false ∧
  chatMappings new !! alice = None ∧
  Collection.count (FChat alice) (collection new) = 0%nat ∧
  createForumTopic answers101 = Some 101 ∧
  saveOk answers101 = true ∧
  Forall (λ e, is_Some (probeSend e) ∧ probeDeleteOk e = true) [answers102; answers102] ∧
  let r := inTurn forum [answers101; answers102; answers102] alice hello new in
  result r = Ret [Some 101; Some 101; Some 101] ∧
  Async.createdTopics (trace r) = [101] ∧
  chatMappings (final r) !! alice = Some 101 ∧
  Collection.count (FChat alice) (collection (final r)) = 1%nat ∧
  ∀ pending schedule,
    oneDocPerChat new →
    oneDocPerChat (Async.shared (Async.execute forum schedule (Async.System new pending []))).
Proof.
  assert (Hrest : Forall (λ e, is_Some (probeSend e) ∧ probeDeleteOk e = true)
                    [answers102; answers102]).
  { repeat constructor; by eexists. }
  do 5 (split; [reflexivity|]). split; [exact Hrest|].
  exact (first_contacts_one_mapping forum answers101 [answers102; answers102]
           alice hello new 101 eq_refl eq_refl eq_refl eq_refl eq_refl Hrest).
Defined.

(** C2, as the specification words it, fails: when the calls for two
    first messages of one chat take their steps alternately, both find
    no mapping, and both create a topic. *)
Lemma overlapping_first_contacts_create_two_topics :
  let sys := Async.execute forum alternating twoFirstContacts in
  allSettled sys ∧
  Async.createdTopics (Async.history sys) = [101; 102] ∧
  ¬ oneTopicCreated sys.
Proof.
  split; [|split].
  - repeat constructor.
  - reflexivity.
  - unfold oneTopicCreated. vm_compute. discriminate.
Qed.

(** What [createTopic] leaves behind, whatever the calls answer: it
    returns what [createForumTopic] returned, and it records the mapping
    exactly when the topic was created and the durable write succeeded. *)
Lemma createTopic_summary cfg env chatJid msg b :
  chatIdMissing cfg = false →
  let r := createTopic cfg env chatJid msg b in
  result r = Ret (createForumTopic env) ∧
  chatMappings (final r) =
    match createForumTopic env with
    | Some t => if saveOk env then <[chatJid := t]> (chatMappings b) else chatMappings b
    | None => chatMappings b
    end ∧
  collection (final r) =
    match createForumTopic env with
    | Some t =>
        if saveOk env
        then Collection.updateOne (FChat chatJid) (DChat chatJid t (now env) (now env))
               (collection b)
        else collection b
    | None => collection b
    end ∧
  Async.createdTopics (trace r) = option_list (createForumTopic env).
Proof.
  intros Hcfg r. subst r.
  remember (createTopic cfg env chatJid msg b) as X eqn:HX.
  rewrite createTopic_afterCreate in HX. rewrite Hcfg in HX.
  destruct (topicNameAndColor_harmless env chatJid b) as ([nc Hn] & Hn1 & Hn2 & Hn3).
  destruct (topicNameAndColor env chatJid b) as [[o s1] t1] eqn:EN.
  unfold result, final, trace in Hn, Hn1, Hn2, Hn3. cbn in Hn, Hn1, Hn2, Hn3. subst o.
  rewrite (try_catch_bind _ _ _ _ _ _ _ EN) in HX.
  destruct (createForumTopic env) as [t|] eqn:Ec.
  - destruct (afterCreate_returns cfg env chatJid msg t s1) as (s2 & t2 & E2).
    assert (Hs2 : chatMappings s2 =
                    (if saveOk env then <[chatJid := t]> (chatMappings s1) else chatMappings s1) ∧
                  collection s2 =
                    (if saveOk env
                     then Collection.updateOne (FChat chatJid)
                            (DChat chatJid t (now env) (now env)) (collection s1)
                     else collection s1) ∧
                  Async.createdTopics t2 = []).
    { revert E2. unfold afterCreate, saveChatMapping, collection_updateOne.
      set (W := if negb (chatJid =? "status@broadcast")%string &&
                   negb (chatJid =? "call@broadcast")%string then _ else _).
      assert (HW : harmless W).
      { unfold W. destruct (negb _ && negb _); [apply sendWelcomeMessage_harmless|].
        intros s. by repeat split; eexists. }
      destruct (saveOk env);
        unfold bind, try_catch, emit, ret, throw, log, emit, modify; cbn;
        match goal with |- context [W ?s] =>
          destruct (HW s) as ([[] Hw] & Hw1 & Hw2 & Hw3);
          destruct (W s) as [[o s3] t3]
        end;
        unfold result, final, trace in Hw, Hw1, Hw2, Hw3; cbn in Hw, Hw1, Hw2, Hw3;
        subst o; cbn; intros [= <- <-]; rewrite Hw1, Hw2; cbn;
        (split; [reflexivity|]); (split; [reflexivity|]);
        unfold Async.createdTopics in *; cbn; by rewrite app_nil_r, Hw3. }
    destruct Hs2 as (Hc2 & Hd2 & Ht2).
    unfold try_catch, call, bind, emit, ret in HX. rewrite E2 in HX. cbn in HX. subst X.
    cbn. rewrite Hc2, Hd2, Hn1, Hn2. repeat split.
    rewrite createdTopics_app, Hn3. unfold Async.createdTopics in *. cbn.
    by rewrite Ht2.
  - unfold try_catch, call, bind, emit, ret, throw, log, emit in HX. cbn in HX. subst X.
    cbn. rewrite Hn1, Hn2. repeat split.
    rewrite createdTopics_app, Hn3. reflexivity.
Qed.

Lemma createTopic_not_configured cfg env chatJid msg b :
  chatIdMissing cfg = true →
  createTopic cfg env chatJid msg b =
    (Ret None, b, [ELog Error "Telegram chat ID not configured"]).
Proof. intros H. unfold createTopic. by rewrite H. Qed.





(** ** The gate in front of the Telegram handlers *)

(** C4, as the code has it.  Each listener looks at the authorization
    first.  A message of an unauthorized user is logged and dropped:
    nothing is sent, and the bridge, the rate limiter included, stays as
    it is but for [pollingRetries].  A callback query of an unauthorized
    user is answered with the alert "Unauthorized", a reaction is
    dropped without a trace, and a command that reaches [handleCommand]
    is answered with a refusal; none of them touches the rate limiter. *)
Theorem unauthorized_requests
    (dispatchCommand handleTelegramMessage : tgMessage → M bridge unit)
    (handleCallbackQuery : tgQuery → M bridge unit)
    (handleMessageReaction : tgReaction → M bridge unit)
    (cfg : config) (clock : Z) (noticeOk replyOk answerOk : bool)
    (msg : tgMessage) (query : tgQuery) (reaction : tgReaction) (b : bridge) :
  isAuthorized b (fromId msg) = false →
  isAuthorized b (queryFrom query) = false →
  isAuthorized b (reactionUser reaction) = false →
  let m := onMessage dispatchCommand handleTelegramMessage cfg clock noticeOk replyOk msg b in
  let q := onCallbackQuery handleCallbackQuery answerOk query b in
  let r := onMessageReaction handleMessageReaction reaction b in
  let c := handleCommand dispatchCommand replyOk msg b in
  (trace m = [ELog Warn "Unauthorized access attempt"] ∧
   silentlyDropped (trace m) ∧
   final m = set_pollingRetries 0 b ∧
   rateLimiter (final m) = rateLimiter b) ∧
  (head (trace q) = Some (EAnswerCallbackQuery (queryId query) "❌ Unauthorized" true) ∧
   final q = b) ∧
  (trace r = [] ∧ final r = b) ∧
  ((∀ t, text msg = Some t → JS.startsWith "/" t = true →
      trace c = [ESendMessage (Chat (chatId msg))
                   "❌ You are not authorized to use this bot." None]) ∧
   final c = b).
Proof.
  intros Hm Hq Hr. cbv zeta.
  unfold onMessage, onCallbackQuery, onMessageReaction, handleCommand, wrapHandler.
  unfold bind, try_catch, get, modify, log, emit, call, ret, throw, done_if,
    trace, final, silentlyDropped.
  cbn. rewrite Hq, Hr.
  change (isAuthorized (set_pollingRetries 0 b) (fromId msg)) with (isAuthorized b (fromId msg)).
  rewrite Hm. cbn.
  split; [|split; [|split; [|split]]].
  - repeat split; repeat constructor.
  - destruct answerOk; split; reflexivity.
  - split; reflexivity.
  - intros t Ht Hs. rewrite Ht, Hs. destruct t as [|a t]; [by vm_compute in Hs|]. cbn.
    rewrite Hm. cbn. by destruct replyOk.
  - destruct (text msg) as [[|a t]|]; cbn; try reflexivity.
    destruct (JS.startsWith "/" (String a t)); cbn; [|reflexivity].
    rewrite Hm. cbn. by destruct replyOk.
Qed.

Lemma unauthorized_requests_witness :
  let msg := TgMessage 666 666 "private" false (Some "/start") in
  isAuthorized new (fromId msg) = false ∧
  isAuthorized new (queryFrom strangerQuery) = false ∧
  isAuthorized new (reactionUser (TgReaction 666 42)) = false ∧
  let m := onMessage (λ _, ret tt) (λ _, ret tt) forum 5000 true true msg new in
  let q := onCallbackQuery (λ _, ret tt) true strangerQuery new in
  let r := onMessageReaction (λ _, ret tt) (TgReaction 666 42) new in
  let c := handleCommand (λ _, ret tt) true msg new in
  (trace m = [ELog Warn "Unauthorized access attempt"] ∧
   silentlyDropped (trace m) ∧
   final m = set_pollingRetries 0 new ∧
   rateLimiter (final m) = rateLimiter new) ∧
  (head (trace q) = Some (EAnswerCallbackQuery "q-1" "❌ Unauthorized" true) ∧
   final q = new) ∧
  (trace r = [] ∧ final r = new) ∧
  ((∀ t, text msg = Some t → JS.startsWith "/" t = true →
      trace c = [ESendMessage (Chat 666)
                   "❌ You are not authorized to use this bot." None]) ∧
   final c = new).
Proof.
  intros msg. do 3 (split; [reflexivity|]).
  exact (unauthorized_requests (λ _, ret tt) (λ _, ret tt) (λ _, ret tt) (λ _, ret tt)
           forum 5000 true true true msg strangerQuery (TgReaction 666 42) new
           eq_refl eq_refl eq_refl).
Defined.

(** C4, as the specification words it, fails for callback queries: an
    unauthorized user who presses a button is shown the alert
    "Unauthorized", which is a reply and not a log entry. *)
Lemma unauthorized_callback_query_is_answered :
  isAuthorized new (queryFrom strangerQuery) = false ∧
  trace (onCallbackQuery (λ _, ret tt) true strangerQuery new)
    = [EAnswerCallbackQuery "q-1" "❌ Unauthorized" true] ∧
  Exists (λ e, userVisible e = true)
    (trace (onCallbackQuery (λ _, ret tt) true strangerQuery new)) ∧
  ¬ silentlyDropped (trace (onCallbackQuery (λ _, ret tt) true strangerQuery new)).
Proof.
  split; [reflexivity|]. split; [reflexivity|]. split.
  - by constructor.
  - intros H. apply Forall_cons in H as [H _]. discriminate.
Qed.

(** ** The message queue of [src/telegram/bridge.js] *)

Section QueueFacts.
Variable T : Type.

(** Either nothing runs, or the flag is up and one task runs. *)
Lemma queue_flag_guards q h :
  Legacy.reachable T q h →
  (length (Legacy.running T q) ≤ 1)%nat ∧
  (Legacy.isProcessingQueue T q = false → Legacy.running T q = []).
Proof.
  induction 1 as [|t q h Hq [IH1 IH2]|q h Hq [IH1 IH2]|i q h Hq [IH1 IH2] Hi].
  - split; [cbn; lia|reflexivity].
  - split; [exact IH1|exact IH2].
  - unfold Legacy.tick. destruct (Legacy.isProcessingQueue T q) eqn:E.
    { rewrite E. split; [exact IH1|intros; discriminate]. }
    destruct (Legacy.messageQueue T q) as [|task rest].
    { rewrite E. split; [exact IH1|exact IH2]. }
    cbn. rewrite (IH2 eq_refl). split; [cbn; lia|discriminate].
  - cbn. destruct (Legacy.running T q) as [|x [|y l]]; cbn in *; try lia.
    destruct i; [|lia]. split; [cbn; lia|reflexivity].
Qed.

(** The tasks the consumer has called, followed by the tasks still in
    the queue, are the tasks pushed so far, in the order of the pushes. *)
Lemma queue_order q h :
  Legacy.reachable T q h →
  Legacy.started T q ++ Legacy.messageQueue T q = h.
Proof.
  induction 1 as [|t q h Hq IH|q h Hq IH|i q h Hq IH Hi].
  - reflexivity.
  - cbn. by rewrite app_assoc, IH.
  - unfold Legacy.tick. destruct (Legacy.isProcessingQueue T q); [exact IH|].
    destruct (Legacy.messageQueue T q) as [|task rest] eqn:E; [by rewrite E|].
    cbn. by rewrite <- app_assoc.
  - exact IH.
Qed.

End QueueFacts.

(** [syncMessage] is a producer: it pushes, or does nothing. *)
Lemma reachable_syncMessage (T : Type) ready t q h :
  Legacy.reachable T q h →
  Legacy.reachable T (Legacy.syncMessage T ready t q) (if ready then h ++ [t] else h).
Proof. intros H. destruct ready; [by constructor|exact H]. Qed.

(** The queue of the bridge is a queue the producers and the consumer
    have made, and the tasks pushed so far are the message relays asked
    for so far. *)
Lemma reachable_after os :
  Legacy.reachable Legacy.relay (Legacy.queued (Legacy.after os)) (Legacy.messageRelays os).
Proof.
  unfold Legacy.after, Legacy.messageRelays.
  induction os as [|o os IH] using rev_ind; [apply Legacy.reach_empty|].
  rewrite foldl_app, omap_app. cbn [foldl omap].
  set (s := foldl Legacy.step Legacy.idle os) in *.
  destruct o as [ready whatsappMsg text|msg|telegramBot c|key| | |i];
    cbn [Legacy.step Legacy.messageRelay omap list_omap].
  - cbn [Legacy.queued].
    pose proof (reachable_syncMessage Legacy.relay ready
                  (Legacy.ProcessWhatsAppMessage whatsappMsg text) _ _ IH) as H.
    by destruct ready; [|rewrite app_nil_r].
  - cbn [Legacy.queued]. unfold Legacy.onMessage.
    destruct (String.eqb (chatType msg) "supergroup" && isTopicMessage msg).
    + by constructor.
    + by rewrite app_nil_r.
  - rewrite app_nil_r. unfold Legacy.handleCallNotification.
    destruct (negb telegramBot); [exact IH|].
    by case_bool_decide.
  - by rewrite app_nil_r.
  - rewrite app_nil_r. by constructor.
  - rewrite app_nil_r.
    destruct (Legacy.running Legacy.relay (Legacy.queued s)) as [|x l] eqn:E; [exact IH|].
    cbn [Legacy.queued]. constructor; [exact IH|]. rewrite E. cbn. lia.
  - by rewrite app_nil_r.
Qed.

(** What runs outside the queue is a call notice. *)
Lemma outside_after os :
  Forall (λ r, Legacy.isMessageRelay r = false) (Legacy.outside (Legacy.after os)).
Proof.
  unfold Legacy.after.
  induction os as [|o os IH] using rev_ind; [constructor|].
  rewrite foldl_app. cbn [foldl].
  set (s := foldl Legacy.step Legacy.idle os) in *.
  destruct o as [ready whatsappMsg text|msg|telegramBot c|key| | |i]; cbn [Legacy.step];
    try exact IH.
  - unfold Legacy.handleCallNotification.
    destruct (negb telegramBot); [exact IH|].
    case_bool_decide; [exact IH|]. cbn [Legacy.outside].
    apply Forall_app. split; [exact IH|]. by repeat constructor.
  - by destruct (Legacy.running Legacy.relay (Legacy.queued s)).
  - cbn [Legacy.outside]. by apply Forall_delete.
Qed.

(** C9, as [src/telegram/bridge.js] has it.  Whatever happens to the
    bridge, in whatever order (WhatsApp messages reach [syncMessage],
    Telegram delivers messages, calls are reported, the interval of the
    consumer fires, relays settle), the message relays pass through the
    one queue: the tasks the consumer has called so far followed by the
    tasks that wait are the message relays asked for, in the order of
    their arrival, so the consumer calls them in that order; at most
    one task of the queue is running, none while [isProcessingQueue] is
    false; and no message relay runs outside the queue, so at most one
    message relay executes at any time. *)
Theorem queue_serial_fifo (os : list Legacy.occurrence) :
  let s := Legacy.after os in
  let q := Legacy.queued s in
  (length (Legacy.running Legacy.relay q) ≤ 1)%nat ∧
  (Legacy.isProcessingQueue Legacy.relay q = false → Legacy.running Legacy.relay q = []) ∧
  Legacy.started Legacy.relay q ++ Legacy.messageQueue Legacy.relay q
    = Legacy.messageRelays os ∧
  Legacy.started Legacy.relay q `prefix_of` Legacy.messageRelays os ∧
  Forall (λ r, Legacy.isMessageRelay r = false) (Legacy.outside s) ∧
  (length (List.filter Legacy.isMessageRelay (Legacy.executing s)) ≤ 1)%nat.
Proof.
  intros s q. pose proof (reachable_after os) as H. fold s q in H.
  destruct (queue_flag_guards Legacy.relay q _ H) as [H1 H2].
  pose proof (queue_order Legacy.relay q _ H) as H3.
  pose proof (outside_after os) as H4. fold s in H4.
  repeat split; try assumption.
  - exists (Legacy.messageQueue Legacy.relay q). by rewrite H3.
  - unfold Legacy.executing. fold q.
    assert (H0 : List.filter Legacy.isMessageRelay (Legacy.outside s) = []).
    { clear -H4. induction H4 as [|x l Hx _ IH]; [reflexivity|]. cbn. by rewrite Hx. }
    rewrite List.filter_app, H0, app_nil_r.
    etrans; [apply List.filter_length_le|exact H1].
Qed.

(** Messages from both sides and a call: the first message has been
    relayed, the second is being relayed, the third waits, and the call
    notice runs beside the queue. *)
Lemma queue_serial_fifo_witness :
  let s := Legacy.after busyBridge in
  let q := Legacy.queued s in
  (Legacy.started Legacy.relay q =
     [Legacy.ProcessWhatsAppMessage hello "a";
      Legacy.HandleTelegramMessage (TgMessage 7 (-1001234) "supergroup" true (Some "b"))] ∧
   Legacy.running Legacy.relay q =
     [Legacy.HandleTelegramMessage (TgMessage 7 (-1001234) "supergroup" true (Some "b"))] ∧
   Legacy.messageQueue Legacy.relay q = [Legacy.ProcessWhatsAppMessage hello "c"] ∧
   Legacy.outside s = [Legacy.CallNotice aliceCalls]) ∧
  (length (Legacy.running Legacy.relay q) ≤ 1)%nat ∧
  (Legacy.isProcessingQueue Legacy.relay q = false → Legacy.running Legacy.relay q = []) ∧
  Legacy.started Legacy.relay q ++ Legacy.messageQueue Legacy.relay q
    = Legacy.messageRelays busyBridge ∧
  Legacy.started Legacy.relay q `prefix_of` Legacy.messageRelays busyBridge ∧
  Forall (λ r, Legacy.isMessageRelay r = false) (Legacy.outside s) ∧
  (length (List.filter Legacy.isMessageRelay (Legacy.executing s)) ≤ 1)%nat.
Proof.
  split; [by vm_compute|].
  exact (queue_serial_fifo busyBridge).
Defined.

(** C9, as the specification words it, fails for the call notices of
    [src/telegram/bridge.js].  The [call] listener runs
    [handleCallNotification] itself (lines 1185-1189), and the method
    looks up or creates the topic of the call log and sends the notice
    to Telegram (lines 1159-1177) without the queue: while the consumer
    is relaying a message, a call is relayed beside it, and the notice
    was never a task of the queue. *)
Lemma call_notice_bypasses_the_queue :
  let s := Legacy.after callDuringRelay in
  let q := Legacy.queued s in
  Legacy.isProcessingQueue Legacy.relay q = true ∧
  Legacy.executing s =
    [Legacy.ProcessWhatsAppMessage hello "hi"; Legacy.CallNotice aliceCalls] ∧
  Legacy.started Legacy.relay q ++ Legacy.messageQueue Legacy.relay q =
    [Legacy.ProcessWhatsAppMessage hello "hi"] ∧
  (length (Legacy.executing s) = 2)%nat.
Proof. by vm_compute. Qed.

(** ** Contact names *)

Lemma allDigits_Forall s :
  JS.allDigits s = true ↔ Forall (λ a, JS.isDigit a = true) (list_ascii_of_string s).
Proof.
  induction s as [|a s IH]; cbn.
  - split; [constructor|reflexivity].
  - rewrite andb_true_iff, IH. split.
    + intros [H1 H2]. by constructor.
    + intros H. by apply Forall_cons in H.
Qed.

(** [isValidContactName] accepts exactly the validated names. *)
Lemma isValidContactName_validated nm ph :
  isValidContactName nm ph = true ↔ validated nm ph.
Proof.
  unfold isValidContactName, validated.
  rewrite !andb_true_iff, !negb_true_iff, Nat.ltb_lt, String.eqb_neq.
  split.
  - intros ((((H1 & H2) & H3) & H4) & H5). repeat split; try assumption.
    + intros ->. discriminate.
    + intros HF. apply allDigits_Forall in HF.
      destruct nm; [discriminate|]. unfold JS.test_digits in H5.
      rewrite HF in H5. discriminate.
  - intros (H1 & H2 & H3 & H4 & H5). repeat split; try assumption.
    + by destruct nm.
    + destruct nm; [reflexivity|]. unfold JS.test_digits.
      destruct (JS.allDigits (String a nm)) eqn:E; [|reflexivity].
      exfalso. apply H5. by apply allDigits_Forall.
Qed.

Lemma pickName_valid c ph nm :
  pickName c ph = Some nm → isValidContactName nm ph = true.
Proof.
  unfold pickName, validField.
  destruct (cName c) as [n1|]; [destruct (JS.truthy n1 && isValidContactName n1 ph) eqn:E1|];
    try (intros [= ->]; by apply andb_true_iff in E1 as [_ ?]);
    (destruct (cNotify c) as [n2|];
       [destruct (JS.truthy n2 && isValidContactName n2 ph) eqn:E2|];
     try (intros [= ->]; by apply andb_true_iff in E2 as [_ ?]);
     (destruct (cVerifiedName c) as [n3|];
        [destruct (JS.truthy n3 && isValidContactName n3 ph) eqn:E3|];
      try (intros [= ->]; by apply andb_true_iff in E3 as [_ ?]);
      discriminate)).
Qed.

Lemma validatedSince_refl b : validatedSince b b.
Proof. split; intros; by left. Qed.

Lemma elem_of_updateOne f d c x :
  x ∈ Collection.updateOne f d c → x = d ∨ x ∈ c.
Proof.
  induction c as [|y c IH]; cbn.
  - intros H. apply list_elem_of_singleton in H. by left.
  - destruct (matches f y).
    + intros H. apply elem_of_cons in H as [->|H]; [by left|].
      right. by apply elem_of_cons; right.
    + intros H. apply elem_of_cons in H as [->|H].
      * right. by apply elem_of_cons; left.
      * destruct (IH H) as [->|H']; [by left|]. right. by apply elem_of_cons; right.
Qed.

Lemma validatedSince_save b0 ok now ph nm :
  isValidContactName nm ph = true →
  keeps (validatedSince b0) (saveContactMapping ok now ph nm).
Proof.
  intros Hv s [H1 H2]. apply isValidContactName_validated in Hv.
  destruct ok; [|by split]. split; cbn.
  - intros ph' nm'. destruct (decide (ph = ph')) as [<-|Hne].
    + rewrite lookup_insert_eq. intros [= <-]. by right.
    + rewrite lookup_insert_ne by done. apply H1.
  - intros ph' nm' at_ Hin. apply elem_of_updateOne in Hin as [[= -> -> ->]|Hin].
    + by right.
    + by apply H2 in Hin.
Qed.

Lemma validatedSince_updateTopicNames b0 cfg editOk :
  keeps (validatedSince b0) (updateTopicNames cfg editOk).
Proof.
  unfold updateTopicNames. apply keeps_try_catch; [|apply keeps_log].
  destruct (chatIdMissing cfg); [apply keeps_log|].
  apply keeps_bind; [apply keeps_log|]. intros _.
  apply keeps_bind; [apply keeps_get|]. intros b.
  apply keeps_bind; [|intros; apply keeps_log].
  apply keeps_for_each. intros [jid topicId].
  destruct (isDirectChat jid); [|apply keeps_ret].
  apply keeps_try_catch; [|apply keeps_log].
  apply keeps_bind; [apply keeps_call|]. intros _. apply keeps_log.
Qed.

Lemma validatedSince_syncOne b0 e :
  keeps (validatedSince b0) (syncOne e).
Proof.
  unfold syncOne. destruct (sContact e) as [contact|]; [|apply keeps_ret].
  destruct (negb _ || _); [apply keeps_ret|].
  destruct (pickName contact (JS.phoneOf (sJid e))) as [nm|] eqn:Ep; [|apply keeps_ret].
  destruct (JS.truthy nm); [|apply keeps_ret].
  apply keeps_bind; [apply keeps_gets|]. intros existing.
  destruct (bool_decide _); [|apply keeps_ret].
  apply keeps_bind; [|intros _; apply keeps_bind; [apply keeps_log|intros; apply keeps_ret]].
  apply validatedSince_save. by eapply pickName_valid.
Qed.

Lemma validatedSince_syncContacts b0 cfg connected entries editOk :
  keeps (validatedSince b0) (syncContacts cfg connected entries editOk).
Proof.
  unfold syncContacts. apply keeps_try_catch; [|apply keeps_log].
  destruct (negb connected); [apply keeps_log|].
  apply keeps_bind; [apply keeps_log|]. intros _.
  apply keeps_bind; [apply keeps_log|]. intros _.
  apply keeps_bind; [apply keeps_count_each; intros e; apply validatedSince_syncOne|].
  intros n. apply keeps_bind; [apply keeps_log|]. intros _.
  destruct (0 <? n); [apply validatedSince_updateTopicNames|apply keeps_ret].
Qed.

Lemma validatedSince_onContactsUpdate b0 contacts :
  keeps (validatedSince b0) (onContactsUpdate contacts).
Proof.
  unfold onContactsUpdate. apply keeps_try_catch; [|apply keeps_log].
  apply keeps_bind.
  - apply keeps_count_each. intros c.
    destruct (ceId c) as [id|]; [|apply keeps_ret].
    destruct (ceName c) as [nm|]; [|apply keeps_ret].
    destruct (JS.truthy id && JS.truthy nm); [|apply keeps_ret].
    apply keeps_bind; [apply keeps_gets|]. intros oldName.
    destruct (isValidContactName nm (JS.phoneOf id)) eqn:Ev; cbn [andb]; [|apply keeps_ret].
    destruct (bool_decide _); [|apply keeps_ret].
    apply keeps_bind; [by apply validatedSince_save|]. intros _.
    apply keeps_bind; [apply keeps_log|]. intros _.
    apply keeps_bind; [apply keeps_gets|]. intros topic.
    apply keeps_bind; [|intros; apply keeps_ret].
    destruct topic as [topicId|]; [|apply keeps_ret].
    apply keeps_try_catch.
    + apply keeps_bind; [apply keeps_call|]. intros _. apply keeps_log.
    + apply keeps_log.
  - intros n. destruct (0 <? n); [apply keeps_log|apply keeps_ret].
Qed.

Lemma validatedSince_onContactsUpsert b0 contacts :
  keeps (validatedSince b0) (onContactsUpsert contacts).
Proof.
  unfold onContactsUpsert. apply keeps_try_catch; [|apply keeps_log].
  apply keeps_bind.
  - apply keeps_count_each. intros c.
    destruct (ceId c) as [id|]; [|apply keeps_ret].
    destruct (ceName c) as [nm|]; [|apply keeps_ret].
    destruct (JS.truthy id && JS.truthy nm); [|apply keeps_ret].
    apply keeps_bind; [apply keeps_gets|]. intros known.
    destruct (isValidContactName nm (JS.phoneOf id)) eqn:Ev; cbn [andb]; [|apply keeps_ret].
    destruct (negb known); [|apply keeps_ret].
    apply keeps_bind; [by apply validatedSince_save|]. intros _.
    apply keeps_bind; [apply keeps_log|]. intros _. apply keeps_ret.
  - intros n. destruct (0 <? n); [apply keeps_log|apply keeps_ret].
Qed.

(** C10.  Whatever the contact sync and the [contacts.update] and
    [contacts.upsert] listeners are given, every contact name they put
    into the cache or write to the collection is a validated name for
    its phone number: not empty, not the phone number, not starting with
    "+", longer than two characters, and not made of digits only. *)
Theorem contact_names_validated (cfg : config) (connected : bool)
    (entries : list syncEntry) (editOk : string → bool)
    (updated upserted : list contactEvent) (b : bridge) :
  validatedSince b (final (syncContacts cfg connected entries editOk b)) ∧
  validatedSince b (final (onContactsUpdate updated b)) ∧
  validatedSince b (final (onContactsUpsert upserted b)).
Proof.
  repeat split.
  - apply validatedSince_syncContacts, validatedSince_refl.
  - apply validatedSince_syncContacts, validatedSince_refl.
  - apply validatedSince_onContactsUpdate, validatedSince_refl.
  - apply validatedSince_onContactsUpdate, validatedSince_refl.
  - apply validatedSince_onContactsUpsert, validatedSince_refl.
  - apply validatedSince_onContactsUpsert, validatedSince_refl.
Qed.

(** * Further properties *)

Import Lifecycle.

(** ** Outcomes of [getOrCreateTopic] *)

Lemma verifyTopicExists_probeOk env topicId s :
  ∃ tr, verifyTopicExists (probeSend env) (probeDeleteOk env) topicId s
          = (Ret (probeOk env), s, tr) ∧
        Async.createdTopics tr = [].
Proof.
  unfold verifyTopicExists, probeOk.
  destruct (probeSend env) as [m|]; [destruct (probeDeleteOk env)|];
    eexists; split; reflexivity.
Qed.

(** A mapping whose probe fails: the purge, and then the creation path
    from the purged state, or a rejection when the purge fails. *)
Lemma getOrCreateTopic_stale cfg env chatJid msg b topicId :
  chatMappings b !! chatJid = Some topicId →
  probeOk env = false →
  ∃ tp, Async.createdTopics tp = [] ∧
    getOrCreateTopic cfg env chatJid msg b =
      if purgeOk env then
        let next := createTopic cfg env chatJid msg (purged chatJid b) in
        (result next, final next, tp ++ trace next)
      else (Throw, set_chatMappings (delete chatJid) b, tp).
Proof.
  intros Hm Hp.
  rewrite (getOrCreateTopic_mapped_eq cfg env chatJid msg topicId b Hm).
  destruct (verifyTopicExists_probeOk env topicId b) as (tv & Ev & Hv).
  rewrite Hp in Ev.
  exists (tv ++ purgeEvents chatJid). split.
  { rewrite createdTopics_app, Hv. reflexivity. }
  unfold bind at 1. rewrite Ev.
  unfold collection_deleteOne. destruct (purgeOk env).
  - unfold bind, log, emit, modify, ret. cbn -[createTopic purged].
    fold (purged chatJid b).
    destruct (createTopic cfg env chatJid msg (purged chatJid b)) as [[r s] t].
    cbn. by rewrite <- app_assoc.
  - unfold bind, log, emit, modify, throw. cbn. reflexivity.
Qed.

(** Every way a call of [getOrCreateTopic] can end when it runs from
    its first line to its return with no other call of the bridge in
    between; calls that overlap, [Async], end in other ways as well,
    see [overlapping_calls_leave_cache_ahead].
    It rejects only when the probe of a mapped topic has failed and the
    collection refuses the delete; the cache entry is then gone.  It
    returns null only when no chat id is configured or
    [createForumTopic] failed, and then the chat has no mapping and no
    topic was created.  A topic id it returns is the one the cache maps
    the chat to, unless the topic was created by this call and the
    durable write failed: then the chat has no mapping although the
    topic exists. *)
Theorem getOrCreateTopic_outcomes (cfg : config) (env : topicEnv)
    (chatJid : string) (msg : waMessage) (b : bridge) :
  let r := getOrCreateTopic cfg env chatJid msg b in
  match result r with
  | Throw =>
      is_Some (chatMappings b !! chatJid) ∧ probeOk env = false ∧ purgeOk env = false ∧
      final r = set_chatMappings (delete chatJid) b ∧
      Async.createdTopics (trace r) = []
  | Ret None =>
      (chatIdMissing cfg = true ∨ createForumTopic env = None) ∧
      chatMappings (final r) !! chatJid = None ∧
      Async.createdTopics (trace r) = []
  | Ret (Some t) =>
      (chatMappings (final r) !! chatJid = Some t ∧
       (Async.createdTopics (trace r) = [] ∨ Async.createdTopics (trace r) = [t])) ∨
      (saveOk env = false ∧ chatMappings (final r) !! chatJid = None ∧
       Async.createdTopics (trace r) = [t])
  end.
Proof.
  intros r.
  assert (Hcreate : ∀ s tp, chatMappings s !! chatJid = None →
            Async.createdTopics tp = [] →
            let next := createTopic cfg env chatJid msg s in
            match result next with
            | Throw => False
            | Ret None =>
                (chatIdMissing cfg = true ∨ createForumTopic env = None) ∧
                chatMappings (final next) !! chatJid = None ∧
                Async.createdTopics (tp ++ trace next) = []
            | Ret (Some t) =>
                (chatMappings (final next) !! chatJid = Some t ∧
                 (Async.createdTopics (tp ++ trace next) = [] ∨
                  Async.createdTopics (tp ++ trace next) = [t])) ∨
                (saveOk env = false ∧ chatMappings (final next) !! chatJid = None ∧
                 Async.createdTopics (tp ++ trace next) = [t])
            end).
  { intros s tp Hs Htp next. subst next. rewrite createdTopics_app, Htp. cbn [app].
    destruct (chatIdMissing cfg) eqn:Hcfg.
    - rewrite (createTopic_not_configured cfg env chatJid msg s Hcfg). cbn.
      split; [by left|]. split; [exact Hs|reflexivity].
    - destruct (createTopic_summary cfg env chatJid msg s Hcfg) as (Hr & Hc & _ & Ht).
      rewrite Hr, Hc, Ht.
      destruct (createForumTopic env) as [t|]; cbn.
      + destruct (saveOk env).
        * left. split; [apply lookup_insert_eq|by right].
        * right. done.
      + split; [by right|]. done. }
  destruct (chatMappings b !! chatJid) as [topicId|] eqn:Hm.
  - destruct (probeOk env) eqn:Hp.
    + unfold r. rewrite (getOrCreateTopic_mapped_eq cfg env chatJid msg topicId b Hm).
      destruct (verifyTopicExists_probeOk env topicId b) as (tv & Ev & Hv).
      rewrite Hp in Ev. unfold bind, ret. rewrite Ev. cbn.
      left. rewrite app_nil_r. split; [exact Hm|by left].
    + destruct (getOrCreateTopic_stale cfg env chatJid msg b topicId Hm Hp) as (tp & Htp & E).
      unfold r. rewrite E. destruct (purgeOk env).
      * assert (Hd : chatMappings (purged chatJid b) !! chatJid = None).
        { cbn. apply lookup_delete_eq. }
        specialize (Hcreate (purged chatJid b) tp Hd Htp).
        cbv zeta in Hcreate |- *. unfold result, final, trace in *.
        cbn [fst snd] in *.
        destruct ((createTopic cfg env chatJid msg (purged chatJid b)).1.1) as [[t|]|];
          [exact Hcreate|exact Hcreate|done].
      * cbn. done.
  - unfold r. rewrite (getOrCreateTopic_unmapped cfg env chatJid msg b Hm).
    specialize (Hcreate b [] Hm eq_refl). cbn [app] in Hcreate.
    destruct (result (createTopic cfg env chatJid msg b)) as [[t|]|]; [| |done]; exact Hcreate.
Qed.

(** A topic whose mapping could not be written is not found again.  When
    the first message of a chat creates the topic [t1] and the durable
    write fails, the next message of the same chat creates another
    topic, [t2]; the chat is mapped to [t2], and nothing in the bridge
    refers to [t1]. *)
Theorem unsaved_topic_is_created_again (cfg : config) (env1 env2 : topicEnv)
    (chatJid : string) (msg : waMessage) (b : bridge) (t1 t2 : Z) :
  chatIdMissing cfg = false →
  chatMappings b !! chatJid = None →
  createForumTopic env1 = Some t1 → saveOk env1 = false →
  createForumTopic env2 = Some t2 → saveOk env2 = true →
  let r := inTurn cfg [env1; env2] chatJid msg b in
  result r = Ret [Some t1; Some t2] ∧
  Async.createdTopics (trace r) = [t1; t2] ∧
  chatMappings (final r) = <[chatJid := t2]> (chatMappings b) ∧
  collection (final r) =
    Collection.updateOne (FChat chatJid) (DChat chatJid t2 (now env2) (now env2))
      (collection b).
Proof.
  intros Hcfg Hm Hc1 Hs1 Hc2 Hs2 r. subst r.
  destruct (createTopic_summary cfg env1 chatJid msg b Hcfg) as (Hr1 & Hm1 & Hd1 & Ht1).
  rewrite Hc1 in Hr1, Hm1, Hd1, Ht1. rewrite Hs1 in Hm1, Hd1.
  remember (createTopic cfg env1 chatJid msg b) as X1 eqn:HX1.
  destruct X1 as [[o1 s1] tr1]. unfold result, final, trace in Hr1, Hm1, Hd1, Ht1.
  cbn in Hr1, Hm1, Hd1, Ht1. subst o1.
  assert (Hm' : chatMappings s1 !! chatJid = None) by by rewrite Hm1.
  destruct (createTopic_summary cfg env2 chatJid msg s1 Hcfg) as (Hr2 & Hm2 & Hd2 & Ht2).
  rewrite Hc2 in Hr2, Hm2, Hd2, Ht2. rewrite Hs2 in Hm2, Hd2.
  remember (createTopic cfg env2 chatJid msg s1) as X2 eqn:HX2.
  destruct X2 as [[o2 s2] tr2]. unfold result, final, trace in Hr2, Hm2, Hd2, Ht2.
  cbn in Hr2, Hm2, Hd2, Ht2. subst o2.
  cbn [inTurn]. unfold bind, ret.
  rewrite (getOrCreateTopic_unmapped cfg env1 chatJid msg b Hm), <- HX1.
  rewrite (getOrCreateTopic_unmapped cfg env2 chatJid msg s1 Hm'), <- HX2.
  cbn. rewrite Hm2, Hd2, Hm1, Hd1. repeat split.
  rewrite !createdTopics_app, Ht1, Ht2. reflexivity.
Qed.

Lemma unsaved_topic_is_created_again_witness :
  let writeFails := TopicEnv (Some 500) true true None (Some 101) false 1000 welcomed in
  let r := inTurn forum [writeFails; answers102] alice hello new in
  result r = Ret [Some 101; Some 102] ∧
  Async.createdTopics (trace r) = [101; 102] ∧
  chatMappings (final r) = <[alice := 102]> (chatMappings new) ∧
  collection (final r) =
    Collection.updateOne (FChat alice) (DChat alice 102 1001 1001) (collection new).
Proof.
  apply (unsaved_topic_is_created_again forum
           (TopicEnv (Some 500) true true None (Some 101) false 1000 welcomed)
           answers102 alice hello new 101 102); reflexivity.
Defined.

(** ** The cache and the collection stay in step *)

Lemma lastChat_deleteOne jid c j :
  (Collection.count (FChat jid) c ≤ 1)%nat →
  lastChat j (Collection.deleteOne (FChat jid) c) =
    if bool_decide (j = jid) then None else lastChat j c.
Proof.
  unfold Collection.count. induction c as [|d c IH]; intros Hc.
  - cbn. by case_bool_decide.
  - cbn [Collection.deleteOne]. cbn [List.filter] in Hc.
    destruct (matches (FChat jid) d) eqn:E.
    + cbn [length] in Hc.
      assert (H0 : lastChat jid c = None).
      { apply count_zero_lastChat. unfold Collection.count. lia. }
      destruct d; try discriminate. unfold matches in E.
      apply bool_decide_eq_true in E. subst.
      cbn [lastChat]. case_bool_decide as Hj; [by subst|].
      by destruct (lastChat j c).
    + cbn [lastChat]. rewrite (IH Hc). case_bool_decide as Hj; [|reflexivity].
      subst. destruct d; try reflexivity. unfold matches in E. by rewrite E.
Qed.

Lemma synced_purged chatJid b : synced b → synced (purged chatJid b).
Proof.
  intros H j. destruct (H j) as [Hl Hc]. cbn. split.
  - rewrite lastChat_deleteOne by apply H.
    case_bool_decide as Hj; [subst; apply lookup_delete_eq|].
    by rewrite lookup_delete_ne.
  - etrans; [apply count_deleteOne_le|exact Hc].
Qed.

Lemma synced_createTopic cfg env chatJid msg :
  keeps synced (createTopic cfg env chatJid msg).
Proof.
  intros b H. destruct (chatIdMissing cfg) eqn:Hcfg.
  { by rewrite (createTopic_not_configured cfg env chatJid msg b Hcfg). }
  destruct (createTopic_summary cfg env chatJid msg b Hcfg) as (_ & Hm & Hd & _).
  intros j. rewrite Hm, Hd. destruct (H j) as [Hl Hc].
  destruct (createForumTopic env) as [t|]; [|done].
  destruct (saveOk env); [|done]. split.
  - rewrite lastChat_updateOne_chat by apply H.
    case_bool_decide as Hj; [subst; apply lookup_insert_eq|].
    by rewrite lookup_insert_ne.
  - by apply count_updateOne_chat.
Qed.

(** A call of [getOrCreateTopic] that runs from its first line to its
    return with no other call of the bridge in between keeps the cache
    of chat mappings in step with the collection when it returns:
    reuse, purge and creation keep the two in step, also when the
    durable write of the new mapping fails.  Such a call leaves them
    apart only when it rejects: the cache entry is deleted while the
    document of the chat is still in the collection, so a restart
    brings the stale mapping back.  Calls that overlap can leave them
    apart although they return, see
    [overlapping_calls_leave_cache_ahead]. *)
Theorem getOrCreateTopic_synced (cfg : config) (env : topicEnv)
    (chatJid : string) (msg : waMessage) (b : bridge) :
  synced b →
  let r := getOrCreateTopic cfg env chatJid msg b in
  match result r with
  | Ret _ => synced (final r)
  | Throw =>
      chatMappings (final r) !! chatJid = None ∧
      lastChat chatJid (collection (final r)) = chatMappings b !! chatJid ∧
      is_Some (chatMappings b !! chatJid)
  end.
Proof.
  intros H r.
  assert (Hcreate : ∀ s, synced s →
            match result (createTopic cfg env chatJid msg s) with
            | Ret _ => synced (final (createTopic cfg env chatJid msg s))
            | Throw => False
            end).
  { intros s Hs. pose proof (synced_createTopic cfg env chatJid msg s Hs) as Hk.
    destruct (chatIdMissing cfg) eqn:Hcfg.
    - by rewrite (createTopic_not_configured cfg env chatJid msg s Hcfg) in Hk |- *.
    - destruct (createTopic_summary cfg env chatJid msg s Hcfg) as (Hr & _).
      by rewrite Hr. }
  destruct (chatMappings b !! chatJid) as [topicId|] eqn:Hm.
  - destruct (probeOk env) eqn:Hp.
    + unfold r. rewrite (getOrCreateTopic_mapped_eq cfg env chatJid msg topicId b Hm).
      destruct (verifyTopicExists_probeOk env topicId b) as (tv & Ev & Hv).
      rewrite Hp in Ev. unfold bind, ret. rewrite Ev. exact H.
    + destruct (getOrCreateTopic_stale cfg env chatJid msg b topicId Hm Hp) as (tp & Htp & E).
      unfold r. rewrite E. destruct (purgeOk env).
      * specialize (Hcreate (purged chatJid b) (synced_purged chatJid b H)).
        cbv zeta. unfold result, final in *. cbn [fst snd] in *.
        destruct ((createTopic cfg env chatJid msg (purged chatJid b)).1.1);
          [exact Hcreate|done].
      * cbn. split; [apply lookup_delete_eq|]. split; [|by eexists].
        destruct (H chatJid) as [Hl _]. by rewrite <- Hl.
  - unfold r. rewrite (getOrCreateTopic_unmapped cfg env chatJid msg b Hm).
    specialize (Hcreate b H).
    destruct (result (createTopic cfg env chatJid msg b)); [exact Hcreate|done].
Qed.

Lemma getOrCreateTopic_synced_witness :
  synced aliceMapped ∧
  let r := getOrCreateTopic forum topicGone alice hello aliceMapped in
  match result r with
  | Ret _ => synced (final r)
  | Throw =>
      chatMappings (final r) !! alice = None ∧
      lastChat alice (collection (final r)) = chatMappings aliceMapped !! alice ∧
      is_Some (chatMappings aliceMapped !! alice)
  end.
Proof.
  assert (H : synced aliceMapped).
  { apply (synced_perform (UChat true 900 alice 17) new synced_new). }
  split; [exact H|].
  apply (getOrCreateTopic_synced forum topicGone alice hello aliceMapped H).
Defined.

(** Calls that overlap are another matter.  Both calls return, the
    first with null and the second with the topic 102; the cache maps
    the chat to 102, and the collection has lost the document, deleted
    by the purge of the first call after the second had written it. *)
Lemma overlapping_calls_leave_cache_ahead :
  let sys := Async.execute forum lateDelete twoStaleCalls in
  synced (Async.shared twoStaleCalls) ∧
  allSettled sys ∧
  Async.tPc <$> Async.tasks sys = [Async.Finished None; Async.Finished (Some 102)] ∧
  chatMappings (Async.shared sys) !! alice = Some 102 ∧
  collection (Async.shared sys) = [] ∧
  ¬ synced (Async.shared sys).
Proof.
  split; [apply (synced_perform (UChat true 900 alice 17) new synced_new)|].
  split; [by repeat constructor|]. split; [reflexivity|]. split; [reflexivity|].
  split; [reflexivity|].
  intros H. destruct (H alice) as [Hl _]. vm_compute in Hl. discriminate.
Qed.

(** A mapping whose topic is gone is replaced.  When the probe of the
    mapped topic fails, the purge succeeds, Telegram creates the topic
    [t'] and the write succeeds, the call returns [t'], the chat is
    mapped to [t'] in the cache and by the one chat document the
    collection holds for it, and one topic has been created. *)
Theorem stale_topic_is_replaced (cfg : config) (env : topicEnv)
    (chatJid : string) (msg : waMessage) (b : bridge) (t t' : Z) :
  synced b →
  chatIdMissing cfg = false →
  chatMappings b !! chatJid = Some t →
  probeOk env = false → purgeOk env = true →
  createForumTopic env = Some t' → saveOk env = true →
  let r := getOrCreateTopic cfg env chatJid msg b in
  result r = Ret (Some t') ∧
  chatMappings (final r) = <[chatJid := t']> (chatMappings b) ∧
  lastChat chatJid (collection (final r)) = Some t' ∧
  Collection.count (FChat chatJid) (collection (final r)) = 1%nat ∧
  Async.createdTopics (trace r) = [t'].
Proof.
  intros H Hcfg Hm Hp Hpurge Hc Hs r.
  destruct (getOrCreateTopic_stale cfg env chatJid msg b t Hm Hp) as (tp & Htp & E).
  rewrite Hpurge in E. cbv zeta in E.
  destruct (createTopic_summary cfg env chatJid msg (purged chatJid b) Hcfg)
    as (Hr & Hm' & Hd' & Ht').
  rewrite Hc in Hr, Hm', Hd', Ht'. rewrite Hs in Hm', Hd'.
  unfold r. rewrite E. unfold result, final, trace in *. cbn [fst snd] in *.
  rewrite Hr, Hm', Hd', createdTopics_app, Htp, Ht'.
  pose proof (synced_purged chatJid b H) as Hsp.
  split; [reflexivity|]. split.
  { cbn. apply insert_delete_eq. }
  split.
  { rewrite lastChat_updateOne_chat by apply Hsp. by rewrite bool_decide_eq_true_2. }
  split; [|reflexivity].
  rewrite count_updateOne_same.
  destruct (Hsp chatJid) as [_ Hle]. lia.
Qed.

Lemma stale_topic_is_replaced_witness :
  let r := getOrCreateTopic forum topicGone alice hello aliceMapped in
  result r = Ret (Some 102) ∧
  chatMappings (final r) = <[alice := 102]> (chatMappings aliceMapped) ∧
  lastChat alice (collection (final r)) = Some 102 ∧
  Collection.count (FChat alice) (collection (final r)) = 1%nat ∧
  Async.createdTopics (trace r) = [102].
Proof.
  apply (stale_topic_is_replaced forum topicGone alice hello aliceMapped 17 102);
    try reflexivity.
  apply (synced_perform (UChat true 900 alice 17) new synced_new).
Defined.

(** The topics for status updates and for call logs get no welcome
    message: all a Telegram user sees of their creation is the new
    topic, under its fixed name and colour. *)
Theorem broadcast_topics_get_no_welcome (cfg : config) (env : topicEnv)
    (chatJid : string) (msg : waMessage) (b : bridge) (t : Z) :
  chatJid = "status@broadcast" ∨ chatJid = "call@broadcast" →
  chatIdMissing cfg = false →
  chatMappings b !! chatJid = None →
  createForumTopic env = Some t →
  List.filter userVisible (trace (getOrCreateTopic cfg env chatJid msg b)) =
    [if String.eqb chatJid "status@broadcast"
     then ECreateForumTopic "📊 Status Updates" 16739125 (Some t)
     else ECreateForumTopic "📞 Call Logs" 16729943 (Some t)].
Proof.
  intros Hj Hcfg Hm Hc.
  rewrite (getOrCreateTopic_unmapped cfg env chatJid msg b Hm).
  unfold createTopic. rewrite Hcfg.
  destruct Hj as [-> | ->];
    unfold topicNameAndColor, saveChatMapping, collection_updateOne; rewrite Hc;
    destruct (saveOk env); reflexivity.
Qed.

Lemma broadcast_topics_get_no_welcome_witness :
  List.filter userVisible
    (trace (getOrCreateTopic forum answers101 "status@broadcast" hello new)) =
    [ECreateForumTopic "📊 Status Updates" 16739125 (Some 101)].
Proof.
  apply (broadcast_topics_get_no_welcome forum answers101 "status@broadcast" hello new 101);
    [by left|reflexivity..].
Defined.

(** ** Overlapping calls *)

Lemma enterCreate_creations cfg chatJid s :
  ∃ p s' tr, Async.enterCreate cfg chatJid s = (Ret p, s', tr) ∧
             Async.createdTopics tr = [] ∧ (mayCreate p ≤ 1)%nat.
Proof.
  unfold Async.enterCreate.
  destruct (chatIdMissing cfg); [eexists _, _, _; split; [reflexivity|]; split; [done|cbn; lia]|].
  destruct (String.eqb chatJid "status@broadcast");
    [eexists _, _, _; split; [reflexivity|]; split; [done|cbn; lia]|].
  destruct (String.eqb chatJid "call@broadcast");
    [eexists _, _, _; split; [reflexivity|]; split; [done|cbn; lia]|].
  destruct (JS.endsWith "@g.us" chatJid);
    eexists _, _, _; (split; [reflexivity|]); split; done || (cbn; lia).
Qed.

(** A step of a call creates a topic only from [Creating], and a call
    that has created a topic cannot come back to [Creating]. *)
Lemma segment_creations cfg env chatJid msg p s :
  let r := Async.segment cfg env chatJid msg p s in
  (length (Async.createdTopics (trace r)) +
   match result r with Ret p' => mayCreate p' | Throw => 0 end ≤ mayCreate p)%nat.
Proof.
  cbv zeta.
  remember (Async.segment cfg env chatJid msg p s) as X eqn:HX.
  destruct p; cbn [Async.segment mayCreate] in HX |- *.
  - (* Start *)
    unfold bind at 1, gets in HX. cbn -[Async.enterCreate] in HX.
    destruct (chatMappings s !! chatJid) as [t|].
    + cbn in HX. subst X. unfold Async.createdTopics. cbn. lia.
    + destruct (enterCreate_creations cfg chatJid s) as (p & s' & tr & E & Ht & Hp).
      rewrite E in HX. subst X. cbn. rewrite Ht. cbn. lia.
  - (* Probing *)
    destruct (verifyTopicExists_probeOk env topicId s) as (tv & Ev & Hv).
    unfold bind at 1 in HX. rewrite Ev in HX. destruct (probeOk env); cbn in HX; subst X; cbn.
    + rewrite app_nil_r, Hv. cbn. lia.
    + rewrite createdTopics_app, Hv. unfold Async.createdTopics. cbn. lia.
  - (* Purging *)
    unfold collection_deleteOne in HX. destruct (purgeOk env).
    + unfold try_catch, bind at 1 2, emit, modify in HX. cbn -[Async.enterCreate] in HX.
      match type of HX with context [Async.enterCreate cfg chatJid ?s1] =>
        destruct (enterCreate_creations cfg chatJid s1) as (p & s' & tr & E & Ht & Hp)
      end.
      rewrite E in HX. subst X. cbn.
      change (EDbDeleteOne (FChat chatJid) :: tr) with ([EDbDeleteOne (FChat chatJid)] ++ tr).
      rewrite createdTopics_app, Ht. unfold Async.createdTopics. cbn. lia.
    + cbn in HX. subst X. unfold Async.createdTopics. cbn. lia.
  - (* FetchingGroup *)
    unfold Async.createdTopics. destruct (groupMeta env) as [meta|]; cbn in HX; subst X; cbn; lia.
  - (* Creating *)
    unfold Async.createdTopics. destruct (createForumTopic env) as [t|]; cbn in HX; subst X; cbn; lia.
  - (* Saving *)
    unfold saveChatMapping, collection_updateOne in HX. unfold Async.createdTopics.
    destruct (saveOk env); destruct (negb _ && negb _); cbn in HX; subst X; cbn; lia.
  - (* Welcoming *)
    destruct (sendWelcomeMessage_harmless cfg (welcome env) topic chatJid
                (JS.endsWith "@g.us" chatJid) msg s) as ([[] Hr] & _ & _ & Ht).
    unfold bind, ret in HX. unfold result, trace in Hr, Ht.
    destruct (sendWelcomeMessage _ _ _ _ _ _ s) as [[o s1] t1]. cbn in Hr, Ht. subst o.
    subst X. cbn. rewrite app_nil_r, Ht. cbn. lia.
  - subst X. unfold Async.createdTopics. cbn. lia.
  - subst X. unfold Async.createdTopics. cbn. lia.
Qed.

Lemma sum_list_insert (f : Async.task → nat) l i t t' :
  l !! i = Some t →
  (sum_list (f <$> <[i := t']> l) + f t = sum_list (f <$> l) + f t')%nat.
Proof.
  revert i. induction l as [|x l IH]; intros [|i] H; try discriminate.
  - cbn in H. injection H as ->. csimpl. lia.
  - cbn in H. specialize (IH i H). csimpl. lia.
Qed.

Lemma advance_creations cfg i sys :
  (length (Async.createdTopics (Async.history (Async.advance cfg i sys))) +
   pendingCreations (Async.advance cfg i sys)
   ≤ length (Async.createdTopics (Async.history sys)) + pendingCreations sys)%nat.
Proof.
  unfold Async.advance. destruct (Async.tasks sys !! i) as [t|] eqn:Ei; [|lia].
  pose proof (segment_creations cfg (Async.tEnv t) (Async.tJid t) (Async.tMsg t)
                (Async.tPc t) (Async.shared sys)) as Hs.
  cbv zeta in Hs. unfold result, trace in Hs.
  destruct (Async.segment _ _ _ _ _ _) as [[[p|] s] tr]; cbn [fst snd] in Hs;
    unfold pendingCreations; cbn [Async.history Async.tasks];
    rewrite createdTopics_app, length_app;
    match goal with |- context [<[i := ?t']> _] =>
      pose proof (sum_list_insert (mayCreate ∘ Async.tPc) _ i t t' Ei) as Hi
    end; cbn in Hi; cbn [compose] in *; lia.
Qed.

Lemma execute_creations cfg schedule : ∀ sys,
  (length (Async.createdTopics (Async.history (Async.execute cfg schedule sys))) +
   pendingCreations (Async.execute cfg schedule sys)
   ≤ length (Async.createdTopics (Async.history sys)) + pendingCreations sys)%nat.
Proof.
  unfold Async.execute.
  induction schedule as [|i schedule IH]; intros sys; [cbn; lia|].
  cbn [foldl]. etrans; [apply IH|apply advance_creations].
Qed.

Lemma pendingCreations_le sys : (pendingCreations sys ≤ length (Async.tasks sys))%nat.
Proof.
  unfold pendingCreations. induction (Async.tasks sys) as [|t l IH]; [cbn; lia|].
  cbn. destruct (Async.tPc t); cbn; lia.
Qed.

(** However the steps of the pending calls of [getOrCreateTopic]
    interleave, no call creates more than one topic: the topics created
    during a run are at most as many as the calls that had not yet got
    past their [createForumTopic] when it began, hence at most as many
    as there are calls. *)
Theorem overlapping_calls_create_one_topic_each (cfg : config)
    (schedule : list nat) (sys : Async.system) :
  let sys' := Async.execute cfg schedule sys in
  (length (Async.createdTopics (Async.history sys'))
   ≤ length (Async.createdTopics (Async.history sys)) + pendingCreations sys)%nat ∧
  (pendingCreations sys ≤ length (Async.tasks sys))%nat.
Proof.
  intros sys'. split; [|apply pendingCreations_le].
  pose proof (execute_creations cfg schedule sys). subst sys'. lia.
Qed.

(** ** The keys of the rate limiter *)

Lemma pretty_N_go_chars (P : Ascii.ascii → Prop) :
  (∀ d, P (pretty_N_char d)) →
  ∀ x s, Forall P (list_ascii_of_string s) →
         Forall P (list_ascii_of_string (pretty_N_go x s)).
Proof.
  intros Hd x. induction (N.lt_wf_0 x) as [x _ IH]. intros s Hs.
  assert (x = 0 ∨ 0 < x)%N as [->|Hx] by lia.
  - by rewrite pretty_N_go_0.
  - rewrite pretty_N_go_step by done. apply IH.
    + by apply N.div_lt.
    + cbn. constructor; [apply Hd|exact Hs].
Qed.

Lemma pretty_N_char_ne_underscore d : pretty_N_char d ≠ "_"%char.
Proof. unfold pretty_N_char. by repeat case_match. Qed.

(** The decimal notation of an integer has no underscore. *)
Lemma pretty_Z_no_underscore (z : Z) :
  Forall (λ a, a ≠ "_"%char) (list_ascii_of_string (pretty z)).
Proof.
  assert (HN : ∀ n : N, Forall (λ a, a ≠ "_"%char) (list_ascii_of_string (pretty n))).
  { intros n. unfold pretty, pretty_N. case_decide.
    - cbn. by repeat constructor.
    - apply pretty_N_go_chars; [apply pretty_N_char_ne_underscore|constructor]. }
  destruct z as [|p|p]; unfold pretty, pretty_Z.
  - cbn. by repeat constructor.
  - apply HN.
  - cbn. constructor; [done|apply HN].
Qed.

Lemma before_append c s t :
  Forall (λ a, a ≠ c) (list_ascii_of_string s) →
  JS.before c (s +:+ String c t) = s.
Proof.
  induction s as [|a s IH]; intros H.
  - change ("" +:+ String c t) with (String c t). cbn [JS.before].
    by rewrite Ascii.eqb_refl.
  - change (String a s +:+ String c t) with (String a (s +:+ String c t)).
    cbn [JS.before list_ascii_of_string] in H |- *.
    apply Forall_cons in H as [Ha H].
    destruct (Ascii.eqb_spec a c) as [->|_]; [done|]. by rewrite IH.
Qed.

Lemma append_inv_head (s t1 t2 : string) : s +:+ t1 = s +:+ t2 → t1 = t2.
Proof.
  induction s as [|a s IH]; [done|].
  change (String a s +:+ t1) with (String a (s +:+ t1)).
  change (String a s +:+ t2) with (String a (s +:+ t2)).
  intros [= H]. by apply IH.
Qed.

(** Different users, or different actions of one user, never share a
    key of the rate limiter. *)
Lemma rateKey_inj u1 a1 u2 a2 :
  rateKey u1 a1 = rateKey u2 a2 → u1 = u2 ∧ a1 = a2.
Proof.
  unfold rateKey. intros H.
  assert (Hu : (pretty u1 : string) = pretty u2).
  { rewrite <- (before_append "_" (pretty u1) a1) by apply pretty_Z_no_underscore.
    rewrite <- (before_append "_" (pretty u2) a2) by apply pretty_Z_no_underscore.
    by f_equal. }
  apply (inj pretty) in Hu. subst u2. split; [reflexivity|].
  apply append_inv_head in H. by injection H.
Qed.

(** The limiter counts per user and action.  A request of one user for
    one action leaves the counter and the window of every other user,
    and of every other action of the same user, as they were, whether
    the request is allowed or rejected. *)
Theorem checkRateLimit_isolated (cfg : option rateLimit) (now : Z)
    (userId : Z) (action : string) (other : Z) (otherAction : string) (b : bridge) :
  (other, otherAction) ≠ (userId, action) →
  rateLimiter (final (checkRateLimit cfg now userId action b)) !! rateKey other otherAction
    = rateLimiter b !! rateKey other otherAction.
Proof.
  intros Hne.
  assert (Hk : rateKey userId action ≠ rateKey other otherAction).
  { intros E. apply rateKey_inj in E as [-> ->]. by apply Hne. }
  unfold checkRateLimit, bind, gets, modify, ret, final. cbn.
  destruct (rateLimiter b !! rateKey userId action) as [d|]; cbn.
  - destruct (now >? resetTime d); cbn; [by rewrite lookup_insert_ne|].
    destruct (count d >=? messages (limitOf cfg)); cbn; [done|].
    by rewrite lookup_insert_ne.
  - by rewrite lookup_insert_ne.
Qed.

Lemma checkRateLimit_isolated_witness :
  rateLimiter (final (checkRateLimit None 1000 7 "message" new)) !! rateKey 8 "message"
    = rateLimiter new !! rateKey 8 "message".
Proof.
  apply (checkRateLimit_isolated None 1000 7 "message" 8 "message" new). discriminate.
Defined.

(** ** Contact events *)

(** A [contacts.upsert] event never renames a contact: whatever names
    the event carries, every phone number the cache knows keeps the name
    it had.  (The [contacts.update] listener does rename.) *)
Theorem onContactsUpsert_keeps_known_names (contacts : list contactEvent)
    (b : bridge) (ph nm : string) :
  contactMappings b !! ph = Some nm →
  contactMappings (final (onContactsUpsert contacts b)) !! ph = Some nm.
Proof.
  revert b. change (keeps (λ s, contactMappings s !! ph = Some nm) (onContactsUpsert contacts)).
  unfold onContactsUpsert. apply keeps_try_catch; [|apply keeps_log].
  apply keeps_bind.
  - apply keeps_count_each. intros c s Hs.
    destruct (ceId c) as [id|]; [|exact Hs].
    destruct (ceName c) as [n|]; [|exact Hs].
    destruct (JS.truthy id && JS.truthy n); [|exact Hs].
    unfold bind at 1, gets. cbn -[saveContactMapping isValidContactName].
    destruct (isValidContactName n (JS.phoneOf id)); [|exact Hs].
    case_bool_decide as Hk; [exact Hs|].
    assert (Hne : JS.phoneOf id ≠ ph).
    { intros E. apply Hk. rewrite E. by eexists. }
    unfold saveContactMapping, collection_updateOne.
    destruct (ceSaveOk c); cbn; [|exact Hs].
    by rewrite lookup_insert_ne.
  - intros n. destruct (0 <? n); [apply keeps_log|apply keeps_ret].
Qed.

Lemma onContactsUpsert_keeps_known_names_witness :
  let known := final (saveContactMapping true 900 "4915" "Alice" new) in
  contactMappings
    (final (onContactsUpsert
              [ContactEvent (Some "4915@s.whatsapp.net") (Some "Alicia") true 1000 true]
              known)) !! "4915" = Some "Alice".
Proof.
  apply (onContactsUpsert_keeps_known_names
           [ContactEvent (Some "4915@s.whatsapp.net") (Some "Alicia") true 1000 true]
           (final (saveContactMapping true 900 "4915" "Alice" new)) "4915" "Alice").
  reflexivity.
Defined.

Lemma updateOne_elem f d c : d ∈ Collection.updateOne f d c.
Proof.
  induction c as [|y c IH]; cbn; [set_solver|].
  destruct (matches f y); set_solver.
Qed.

(** A [contacts.update] event with a valid new name renames the contact
    in the collection and in the cache and, when the chat has a topic,
    asks Telegram to rename the topic. *)
Theorem onContactsUpdate_renames (c : contactEvent) (id nm : string) (b : bridge) :
  ceId c = Some id → ceName c = Some nm →
  JS.truthy id = true →
  isValidContactName nm (JS.phoneOf id) = true →
  contactMappings b !! JS.phoneOf id ≠ Some nm →
  ceSaveOk c = true →
  let r := onContactsUpdate [c] b in
  contactMappings (final r) !! JS.phoneOf id = Some nm ∧
  DContact (JS.phoneOf id) nm (ceNow c) ∈ collection (final r) ∧
  ∀ topicId, chatMappings b !! id = Some topicId →
             EEditForumTopic topicId nm ∈ trace r.
Proof.
  intros Hid Hnm Hi Hv Hold Hok r. subst r.
  assert (Ht : JS.truthy nm = true).
  { unfold isValidContactName in Hv. by destruct (JS.truthy nm). }
  remember (onContactsUpdate [c] b) as X eqn:HX.
  unfold onContactsUpdate in HX. cbn [count_each] in HX.
  rewrite Hid, Hnm, Hi, Ht in HX. cbn [andb] in HX.
  unfold try_catch, bind, gets in HX. cbn -[isValidContactName saveContactMapping] in HX.
  rewrite Hv, (bool_decide_eq_true_2 _ Hold) in HX. cbn [andb] in HX.
  unfold saveContactMapping, collection_updateOne in HX. rewrite Hok in HX.
  destruct (chatMappings b !! id) as [topicId|] eqn:Hm;
    destruct (ceEditOk c);
    unfold try_catch, bind, gets, call, emit, modify, log, ret, throw, done_if in HX;
    cbn in HX; rewrite ?Hm in HX; cbn in HX; subst X; cbn;
    (split; [apply lookup_insert_eq|]);
    (split; [apply updateOne_elem|]);
    intros t' [= <-] || (intros t' ?; discriminate); set_solver.
Qed.

Lemma onContactsUpdate_renames_witness :
  let c := ContactEvent (Some alice) (Some "Alicia") true 1000 true in
  let known := final (saveContactMapping true 900 "4915" "Alice" aliceMapped) in
  let r := onContactsUpdate [c] known in
  contactMappings (final r) !! JS.phoneOf alice = Some "Alicia" ∧
  DContact (JS.phoneOf alice) "Alicia" 1000 ∈ collection (final r) ∧
  ∀ topicId, chatMappings known !! alice = Some topicId →
             EEditForumTopic topicId "Alicia" ∈ trace r.
Proof.
  apply (onContactsUpdate_renames
           (ContactEvent (Some alice) (Some "Alicia") true 1000 true) alice "Alicia"
           (final (saveContactMapping true 900 "4915" "Alice" aliceMapped)));
    try reflexivity.
  vm_compute. discriminate.
Defined.

(** * Presence, calls, revoke buttons and read receipts *)

Import Ext Runs.

(** ** Presence updates *)

Lemma sendPresence_dropped ft sock now ok jid ty s :
  now - default 0 (lastPresenceUpdate s !! jid) < 1000 →
  sendPresence ft sock now ok jid ty s = (Ret tt, s, []).
Proof.
  intros H. unfold sendPresence.
  destruct (negb sock || negb (presenceUpdates ft)); [reflexivity|].
  unfold try_catch, bind, gets. cbn.
  by rewrite (proj2 (Z.ltb_lt _ _) H).
Qed.

Lemma sendPresence_sent ft now ok jid ty s :
  presenceUpdates ft = true →
  1000 ≤ now - default 0 (lastPresenceUpdate s !! jid) →
  ∃ tr, sendPresence ft true now ok jid ty s =
          (Ret tt,
           set_outbox (λ o, o ++ [WSendPresenceUpdate ty jid])
             (set_lastPresenceUpdate <[jid := now]> s), tr).
Proof.
  intros Hf H. unfold sendPresence. rewrite Hf.
  unfold try_catch, bind, gets, send, modify, log, emit, ret, throw. cbn.
  rewrite (proj2 (Z.ltb_ge _ _) H).
  destruct ok; eexists; reflexivity.
Qed.

(** Presence updates of a chat are throttled to one per second.  A
    request that comes a second or more after the last update is handed
    to the socket; every request within the second after it is dropped,
    whatever its kind, and also when the socket refused the update that
    opened the second. *)
Theorem presence_one_update_per_second (ft : features) (jid : string)
    (r : presenceRequest) (reqs : list presenceRequest) (s : state) :
  presenceUpdates ft = true →
  1000 ≤ pNow r - default 0 (lastPresenceUpdate s !! jid) →
  Forall (λ q, pNow q - pNow r < 1000) reqs →
  let s' := final (presenceBurst ft jid (r :: reqs) s) in
  outbox s' = outbox s ++ [WSendPresenceUpdate (pType r) jid] ∧
  lastPresenceUpdate s' !! jid = Some (pNow r).
Proof.
  intros Hf H0 Hreqs s'.
  destruct (sendPresence_sent ft (pNow r) (pOk r) jid (pType r) s Hf H0) as (tr & E).
  set (s1 := set_outbox _ _) in E.
  assert (Hrest : ∀ s1, lastPresenceUpdate s1 !! jid = Some (pNow r) →
            presenceBurst ft jid reqs s1 = (Ret tt, s1, [])).
  { induction Hreqs as [|q reqs Hq _ IH]; intros s2 Hs2; [reflexivity|].
    cbn [presenceBurst]. unfold bind.
    rewrite sendPresence_dropped by (by rewrite Hs2).
    by rewrite IH. }
  assert (Es : s' = s1).
  { unfold s'. cbn [presenceBurst]. unfold bind at 1. rewrite E.
    rewrite Hrest by apply lookup_insert_eq. reflexivity. }
  rewrite Es. split; [reflexivity|apply lookup_insert_eq].
Qed.

Lemma presence_one_update_per_second_witness :
  let ft := Features true true true (Some true) true in
  let s' := final (presenceBurst ft alice
                     [PresenceRequest 5000 "composing" true;
                      PresenceRequest 5400 "paused" true;
                      PresenceRequest 5999 "available" true] Ext.new) in
  outbox s' = outbox Ext.new ++ [WSendPresenceUpdate "composing" alice] ∧
  lastPresenceUpdate s' !! alice = Some 5000.
Proof.
  apply (presence_one_update_per_second (Features true true true (Some true) true) alice
           (PresenceRequest 5000 "composing" true)
           [PresenceRequest 5400 "paused" true; PresenceRequest 5999 "available" true]
           Ext.new).
  - reflexivity.
  - by vm_compute.
  - repeat constructor; cbn; lia.
Defined.






(** ** Call notifications *)

Lemma lift_activeCallNotifications {A} (m : M bridge A) s :
  activeCallNotifications (final (lift m s)) = activeCallNotifications s ∧
  timers (final (lift m s)) = timers s ∧
  nextTimer (final (lift m s)) = nextTimer s ∧
  outbox (final (lift m s)) = outbox s.
Proof. unfold lift, final. by destruct (m (base s)) as [[r b] t]. Qed.

(** What [handleCallNotification] does to the table of active calls and
    to the timers, whatever the calls answer: a call that is not in the
    table is entered and gets a timeout of 30 seconds; nothing else
    changes. *)
Lemma handleCallNotification_table cfg ft env ok e s :
  callLogs ft = true →
  activeCallNotifications s !! callKey e = None →
  let s' := final (handleCallNotification cfg ft true env ok e s) in
  activeCallNotifications s' = <[callKey e := true]> (activeCallNotifications s) ∧
  timers s' = timers s ++ [Timer (nextTimer s) 30000 (ForgetCall (callKey e))] ∧
  nextTimer s' = S (nextTimer s).
Proof.
  intros Hf Hk s'. subst s'.
  remember (handleCallNotification cfg ft true env ok e s) as X eqn:HX.
  unfold handleCallNotification in HX. rewrite Hf in HX. cbn [negb orb] in HX.
  unfold bind at 1, gets at 1 in HX. rewrite Hk in HX.
  rewrite bool_decide_eq_false_2 in HX by (by intros [? ?]).
  unfold setTimeout in HX. unfold bind at 1 2 3 4 5, gets, modify, ret in HX.
  cbn -[getOrCreateTopic lift] in HX.
  set (s1 := set_nextTimer _ _) in HX.
  set (m := getOrCreateTopic _ _ _ _) in HX.
  destruct (lift_activeCallNotifications m s1) as (H1 & H2 & H3 & _).
  unfold try_catch, bind at 1 in HX. unfold final in H1, H2, H3.
  destruct (lift m s1) as [[[[t|]|] s2] t2]; cbn [fst snd] in *.
  - destruct (t =? 0).
    + cbn in HX. subst X. cbn. by rewrite H1, H2, H3.
    + unfold bind, lift, call, emit, log, ret, throw in HX. cbn in HX.
      destruct ok; cbn in HX; subst X; cbn; by rewrite H1, H2, H3.
  - cbn in HX. subst X. cbn. by rewrite H1, H2, H3.
  - cbn in HX. subst X. cbn. by rewrite H1, H2, H3.
Qed.

(** A call is announced once.  Whatever the first
    [handleCallNotification] for a call did, a second event for the
    same caller and call id that arrives before the timeout has fired
    does nothing at all: no topic is looked up, nothing is sent, and no
    second timeout is started. *)
Theorem call_announced_once (cfg : config) (ft : features) (botUp : bool)
    (env1 env2 : topicEnv) (ok1 ok2 : bool) (e : callEvent) (s : state) :
  let s1 := final (handleCallNotification cfg ft botUp env1 ok1 e s) in
  handleCallNotification cfg ft botUp env2 ok2 e s1 = (Ret tt, s1, []).
Proof.
  intros s1.
  destruct (negb botUp || negb (callLogs ft)) eqn:Hoff.
  { unfold handleCallNotification. by rewrite Hoff. }
  apply orb_false_elim in Hoff as [Hb Hf].
  apply negb_false_iff in Hb, Hf. subst botUp.
  assert (Hact : is_Some (activeCallNotifications s1 !! callKey e)).
  { destruct (activeCallNotifications s !! callKey e) as [v|] eqn:Hk.
    - unfold s1, handleCallNotification. rewrite Hf. cbn [negb orb].
      unfold bind, gets. rewrite Hk.
      rewrite bool_decide_eq_true_2 by (by eexists). cbn. rewrite Hk. by eexists.
    - destruct (handleCallNotification_table cfg ft env1 ok1 e s Hf Hk) as (H1 & _).
      fold s1 in H1. rewrite H1, lookup_insert_eq. by eexists. }
  unfold handleCallNotification. rewrite Hf. cbn [negb orb].
  unfold bind, gets. by rewrite (bool_decide_eq_true_2 _ Hact).
Qed.

Lemma find_fresh_timer (ts : list timer) (t : timer) :
  Forall (λ x, (timerId x < timerId t)%nat) ts →
  List.find (λ x, (timerId x =? timerId t)%nat) (ts ++ [t]) = Some t ∧
  List.filter (λ x, negb (timerId x =? timerId t)%nat) (ts ++ [t]) = ts.
Proof.
  induction 1 as [|x ts Hx _ [IH1 IH2]]; cbn.
  - by rewrite Nat.eqb_refl.
  - rewrite (proj2 (Nat.eqb_neq _ _)) by lia. cbn. by rewrite IH1, IH2.
Qed.

(** The window of a call closes.  The timeout [handleCallNotification]
    starts for a new call removes the call from the table when it
    fires, so that a later event for the same caller and call id is
    announced again; the other pending timeouts stay as they were. *)
Theorem call_window_expires (cfg : config) (ft : features)
    (env : topicEnv) (ok : bool) (fenv : fireEnv) (e : callEvent) (s : state) :
  callLogs ft = true →
  activeCallNotifications s !! callKey e = None →
  Forall (λ t, (timerId t < nextTimer s)%nat) (timers s) →
  let s1 := final (handleCallNotification cfg ft true env ok e s) in
  let s2 := final (fire ft fenv (nextTimer s) s1) in
  activeCallNotifications s1 !! callKey e = Some true ∧
  activeCallNotifications s2 = activeCallNotifications s ∧
  timers s2 = timers s.
Proof.
  intros Hf Hk Hlt s1 s2.
  destruct (handleCallNotification_table cfg ft env ok e s Hf Hk) as (H1 & H2 & H3).
  fold s1 in H1, H2, H3.
  destruct (find_fresh_timer (timers s) (Timer (nextTimer s) 30000 (ForgetCall (callKey e))) Hlt)
    as [Hfind Hfilter].
  cbn [timerId] in Hfind, Hfilter.
  split; [by rewrite H1, lookup_insert_eq|].
  assert (E : fire ft fenv (nextTimer s) s1 =
            (Ret tt,
             set_activeCallNotifications (delete (callKey e))
               (set_timers (List.filter (λ x, negb (timerId x =? nextTimer s)%nat)) s1), [])).
  { unfold fire. unfold bind at 1, gets. rewrite H2, Hfind. reflexivity. }
  unfold s2. rewrite E. unfold final. cbn [fst snd].
  cbn [set_activeCallNotifications set_timers activeCallNotifications timers].
  rewrite H1, H2, Hfilter. split; [|reflexivity].
  by apply delete_insert_id.
Qed.

Lemma call_window_expires_witness :
  let ft := Features true true true (Some true) true in
  let e := CallEvent alice "call-1" None in
  let s1 := final (handleCallNotification forum ft true answers101 true e Ext.new) in
  let s2 := final (fire ft (FireEnv true 40000 true) (nextTimer Ext.new) s1) in
  activeCallNotifications s1 !! callKey e = Some true ∧
  activeCallNotifications s2 = activeCallNotifications Ext.new ∧
  timers s2 = timers Ext.new.
Proof.
  apply (call_window_expires forum (Features true true true (Some true) true)
           answers101 true (FireEnv true 40000 true) (CallEvent alice "call-1" None) Ext.new);
    [reflexivity|reflexivity|constructor].
Defined.

(** ** Revoke buttons *)

(** A press on a revoke button asks WhatsApp to delete the message, and
    the button is forgotten only after the delete, the edit of the
    Telegram message and the answer to the query have all succeeded.
    When the delete succeeds and a later call fails, the button stays:
    a second press asks WhatsApp for the delete again. *)
Theorem revoke_button_forgotten_after_success (env : revokeEnv) (query : tgQuery)
    (key : waKey) (s : state) :
  revokeButtons s !! queryData query = Some key →
  let r := handleCallbackQuery env query s in
  outbox (final r) =
    outbox s ++ WSendDelete (remoteJid key) key ::
      (if rDeleteOk env then [TEditMessageText "🗑️ Message revoked"] else []) ∧
  revokeButtons (final r) =
    (if rDeleteOk env && rEditOk env && rAnswerOk env
     then delete (queryData query) (revokeButtons s)
     else revokeButtons s) ∧
  (rDeleteOk env && rEditOk env && rAnswerOk env = false →
   EAnswerCallbackQuery (queryId query) "❌ Failed to revoke message" true ∈ trace r).
Proof.
  intros Hb r. subst r.
  remember (handleCallbackQuery env query s) as X eqn:HX.
  unfold handleCallbackQuery in HX. unfold try_catch, bind at 1, gets in HX.
  rewrite Hb in HX.
  destruct env as [[] [] [] []];
    unfold bind, send, call, emit, modify, log, ret, throw, done_if in HX;
    cbn in HX; subst X; cbn;
    rewrite <- ?app_assoc; (split; [reflexivity|]); (split; [reflexivity|]);
    intros; try discriminate; set_solver.
Qed.

Lemma revoke_button_forgotten_after_success_witness :
  let key := WaKey alice "3EB0A1" true None in
  let s := final (createRevokeButton "revoke_1700000000_abc" key Ext.new) in
  let env := RevokeEnv true false true true in
  let r := handleCallbackQuery env strangerQuery s in
  outbox (final r) =
    outbox s ++ WSendDelete (remoteJid key) key ::
      (if rDeleteOk env then [TEditMessageText "🗑️ Message revoked"] else []) ∧
  revokeButtons (final r) =
    (if rDeleteOk env && rEditOk env && rAnswerOk env
     then delete (queryData strangerQuery) (revokeButtons s)
     else revokeButtons s) ∧
  (rDeleteOk env && rEditOk env && rAnswerOk env = false →
   EAnswerCallbackQuery (queryId strangerQuery) "❌ Failed to revoke message" true ∈ trace r).
Proof.
  apply (revoke_button_forgotten_after_success (RevokeEnv true false true true) strangerQuery
           (WaKey alice "3EB0A1" true None)
           (final (createRevokeButton "revoke_1700000000_abc"
                     (WaKey alice "3EB0A1" true None) Ext.new))).
  reflexivity.
Defined.

(** A revoke button works once.  After a press that succeeded, any
    further press on the same button is answered with the alert that
    the button has expired, and nothing is sent to WhatsApp. *)
Theorem revoked_button_is_expired (env : revokeEnv) (buttonId : string) (key : waKey)
    (query again : tgQuery) (s : state) :
  queryData query = buttonId → queryData again = buttonId →
  rDeleteOk env = true → rEditOk env = true → rAnswerOk env = true →
  let s0 := final (createRevokeButton buttonId key s) in
  let s1 := final (handleCallbackQuery env query s0) in
  ∀ env', let r := handleCallbackQuery env' again s1 in
    outbox (final r) = outbox s1 ∧
    outbox s1 = outbox s ++
      [WSendDelete (remoteJid key) key; TEditMessageText "🗑️ Message revoked"] ∧
    head (trace r) =
      Some (EAnswerCallbackQuery (queryId again) "❌ Revoke button expired" true).
Proof.
  intros Hq Ha Hd He Hw s0 s1 env' r.
  assert (E1 : s1 = set_revokeButtons (delete buttonId)
                 (set_outbox (λ o, o ++ [WSendDelete (remoteJid key) key;
                                         TEditMessageText "🗑️ Message revoked"]) s0)).
  { unfold s1, handleCallbackQuery. unfold try_catch, bind at 1, gets.
    rewrite Hq. unfold s0 at 1. cbn [createRevokeButton]. cbn -[s0].
    rewrite lookup_insert_eq. rewrite Hd, He, Hw.
    unfold bind, send, call, emit, modify, ret, done_if. cbn -[s0].
    unfold set_revokeButtons, set_outbox. cbn -[s0]. by rewrite <- app_assoc. }
  assert (Hgone : revokeButtons s1 !! queryData again = None).
  { rewrite E1, Ha. cbn. apply lookup_delete_eq. }
  assert (Er : r = handleCallbackQuery env' again s1) by reflexivity.
  clearbody r. unfold handleCallbackQuery in Er.
  unfold try_catch, bind at 1, gets in Er. rewrite Hgone in Er.
  split; [|split].
  - destruct env' as [? ? [] []];
      unfold bind, call, emit, log, ret, throw, done_if in Er; cbn in Er; by subst r.
  - by rewrite E1.
  - destruct env' as [? ? [] []];
      unfold bind, call, emit, log, ret, throw, done_if in Er; cbn in Er; by subst r.
Qed.

Lemma revoked_button_is_expired_witness :
  let key := WaKey alice "3EB0A1" true None in
  let env := RevokeEnv true true true true in
  let s0 := final (createRevokeButton "revoke_1700000000_abc" key Ext.new) in
  let s1 := final (handleCallbackQuery env strangerQuery s0) in
  let r := handleCallbackQuery env strangerQuery s1 in
  outbox (final r) = outbox s1 ∧
  outbox s1 = outbox Ext.new ++
    [WSendDelete (remoteJid key) key; TEditMessageText "🗑️ Message revoked"] ∧
  head (trace r) =
    Some (EAnswerCallbackQuery (queryId strangerQuery) "❌ Revoke button expired" true).
Proof.
  apply (revoked_button_is_expired (RevokeEnv true true true true)
           "revoke_1700000000_abc" (WaKey alice "3EB0A1" true None)
           strangerQuery strangerQuery Ext.new eq_refl eq_refl eq_refl eq_refl eq_refl
           (RevokeEnv true true true true)).
Defined.

(** ** Reactions *)

(** A reaction finds the message it belongs to.  Once the relay of a
    Telegram message has recorded the WhatsApp key it was sent under, a
    reaction to that Telegram message is sent to WhatsApp for exactly
    that key, in the chat of the key; a reaction to a message without a
    recorded key sends nothing. *)
Theorem reaction_reaches_recorded_message (ok : bool) (now tg : Z) (key : waKey)
    (em : string) (reaction : tgReaction) (s : state) :
  JS.truthy em = true →
  (reactionMessageId reaction = tg →
   let s1 := final (lift (saveMessageMapping true now tg key) s) in
   outbox (final (handleMessageReaction ok (Some em) reaction s1)) =
     outbox s ++ [WSendReact (remoteJid key) em key]) ∧
  (messageIdMapping (base s) !! TgId (reactionMessageId reaction) = None →
   handleMessageReaction ok (Some em) reaction s = (Ret tt, s, [])).
Proof.
  intros Hem. split.
  - intros <- s1.
    assert (Hk : messageIdMapping (base s1) !! TgId (reactionMessageId reaction) = Some key).
    { unfold s1, lift. cbn. apply lookup_insert_eq. }
    assert (Ho : outbox s1 = outbox s) by reflexivity.
    clearbody s1. unfold handleMessageReaction, try_catch, bind at 1, gets.
    rewrite Hk, Hem. cbn [negb].
    unfold bind, send, modify, log, emit, ret, throw.
    destruct ok; cbn; by rewrite Ho.
  - intros Hk. unfold handleMessageReaction, try_catch, bind, gets. by rewrite Hk.
Qed.

Lemma reaction_reaches_recorded_message_witness :
  let key := WaKey alice "3EB0A1" true None in
  (reactionMessageId (TgReaction 7 42) = 42 →
   let s1 := final (lift (saveMessageMapping true 1000 42 key) Ext.new) in
   outbox (final (handleMessageReaction true (Some "👍") (TgReaction 7 42) s1)) =
     outbox Ext.new ++ [WSendReact (remoteJid key) "👍" key]) ∧
  (messageIdMapping (base Ext.new) !! TgId (reactionMessageId (TgReaction 7 42)) = None →
   handleMessageReaction true (Some "👍") (TgReaction 7 42) Ext.new = (Ret tt, Ext.new, [])).
Proof.
  apply (reaction_reaches_recorded_message true 1000 42 (WaKey alice "3EB0A1" true None)
           "👍" (TgReaction 7 42) Ext.new).
  reflexivity.
Defined.

(** ** Participants *)

Lemma orZero_id x : orZero x = x.
Proof. unfold orZero. destruct (Z.eqb_spec x 0); congruence. Qed.

Lemma createUserMapping_known env p u s :
  userMappings (base s) !! p = Some u →
  userMappings (base (final (createUserMapping env p s))) !! p =
    Some (UserData (name u) (phone u) (firstSeen u) (messageCount u + 1)).
Proof.
  intros Hu. unfold createUserMapping. unfold bind at 1, gets. rewrite Hu.
  rewrite orZero_id.
  unfold bind, modify, lift, saveUserMapping, collection_updateOne.
  destruct (uSaveOk env); cbn; apply lookup_insert_eq.
Qed.

(** A known participant is counted in the cache whatever happens to the
    write.  Each message adds one to the [messageCount] of the cached
    entry, also when the durable write fails; name, phone and first
    contact stay as they are. *)
Theorem known_participant_is_counted (envs : list userEnv) (participant : string)
    (u : userData) (s : state) :
  userMappings (base s) !! participant = Some u →
  userMappings (base (final (messagesFrom envs participant s))) !! participant =
    Some (UserData (name u) (phone u) (firstSeen u)
            (messageCount u + Z.of_nat (length envs))).
Proof.
  revert u s. induction envs as [|env envs IH]; intros u s Hu.
  - cbn. rewrite Hu. destruct u; cbn. f_equal. f_equal. lia.
  - pose proof (createUserMapping_known env participant u s Hu) as H1.
    cbn [messagesFrom]. unfold bind, final in *.
    destruct (createUserMapping env participant s) as [[[[]|] s1] t1] eqn:E; cbn [fst snd] in *.
    + specialize (IH _ s1 H1).
      destruct (messagesFrom envs participant s1) as [[r s2] t2]. cbn [fst snd] in *.
      rewrite IH. cbn. f_equal. f_equal. lia.
    + exfalso. revert E. unfold createUserMapping. unfold bind at 1, gets. rewrite Hu.
      unfold bind, modify, lift, saveUserMapping, collection_updateOne.
      destruct (uSaveOk env); cbn; discriminate.
Qed.

Lemma known_participant_is_counted_witness :
  let u := UserData (Some "Alice") "4915" 900 3 in
  let s := set_base (set_userMappings <[alice := u]>) Ext.new in
  userMappings (base (final (messagesFrom [UserEnv false 0 1000; UserEnv true 0 1001] alice s)))
    !! alice =
    Some (UserData (name u) (phone u) (firstSeen u) (messageCount u + Z.of_nat 2)).
Proof.
  apply (known_participant_is_counted [UserEnv false 0 1000; UserEnv true 0 1001] alice
           (UserData (Some "Alice") "4915" 900 3)
           (set_base (set_userMappings <[alice := UserData (Some "Alice") "4915" 900 3]>)
              Ext.new)).
  reflexivity.
Defined.

(** A participant the cache does not know enters it only through a
    write that succeeds: while the writes fail, every message is a
    first message again, and neither the cache nor the collection
    learns of the participant.  The first write that succeeds records
    the participant with a count of one, however many messages came
    before. *)
Theorem unknown_participant_needs_the_write (envs : list userEnv) (env : userEnv)
    (participant : string) (s : state) :
  userMappings (base s) !! participant = None →
  Forall (λ e, uSaveOk e = false) envs →
  uSaveOk env = true →
  let s1 := final (messagesFrom envs participant s) in
  base s1 = base s ∧
  userMappings (base (final (createUserMapping env participant s1))) !! participant =
    Some (UserData (contactMappings (base s) !! JS.phoneOf participant)
            (JS.phoneOf participant) (uFirstSeen env) 1).
Proof.
  intros Hu Hfail Hok s1.
  assert (Hs1 : base s1 = base s).
  { unfold s1. clear s1. revert s Hu. induction Hfail as [|e envs He _ IH]; intros s Hu.
    - reflexivity.
    - assert (E : ∃ s' tr, createUserMapping e participant s = (Ret tt, s', tr) ∧
                           base s' = base s).
      { unfold createUserMapping. unfold bind at 1, gets. rewrite Hu.
        unfold bind, gets, lift, saveUserMapping, collection_updateOne, log, emit.
        rewrite He. cbn. destruct s; cbn. eexists _, _. split; reflexivity. }
      destruct E as (s' & tr & E & Hb).
      cbn [messagesFrom]. unfold bind, final. rewrite E.
      assert (Hu' : userMappings (base s') !! participant = None) by by rewrite Hb.
      specialize (IH s' Hu'). unfold final in IH.
      destruct (messagesFrom envs participant s') as [[r s2] t2]. cbn [fst snd] in *.
      by rewrite IH, Hb. }
  split; [exact Hs1|].
  clearbody s1. unfold createUserMapping. unfold bind at 1, gets.
  rewrite Hs1, Hu.
  unfold bind, gets, lift, saveUserMapping, collection_updateOne, log, emit.
  rewrite Hok, Hs1. cbn. apply lookup_insert_eq.
Qed.

Lemma unknown_participant_needs_the_write_witness :
  let s1 := final (messagesFrom [UserEnv false 900 1000; UserEnv false 901 1001] alice
                     Ext.new) in
  base s1 = base Ext.new ∧
  userMappings (base (final (createUserMapping (UserEnv true 902 1002) alice s1))) !! alice =
    Some (UserData (contactMappings (base Ext.new) !! JS.phoneOf alice)
            (JS.phoneOf alice) 902 1).
Proof.
  apply (unknown_participant_needs_the_write
           [UserEnv false 900 1000; UserEnv false 901 1001] (UserEnv true 902 1002)
           alice Ext.new); [reflexivity| |reflexivity].
  by repeat constructor.
Defined.

(** ** Looking a chat up by its topic *)

Lemma find_some_elem {A} (f : A → bool) (l : list A) x :
  List.find f l = Some x → x ∈ l ∧ f x = true.
Proof.
  intros H. apply find_some in H as [Hin Hf]. split; [by apply list_elem_of_In|exact Hf].
Qed.

Lemma findWhatsAppJidByTopic_sound b t jid :
  findWhatsAppJidByTopic b (Some t) = Some jid → chatMappings b !! jid = Some t.
Proof.
  unfold findWhatsAppJidByTopic. intros H.
  destruct (List.find _ _) as [[j t']|] eqn:E; [|discriminate].
  cbn in H. injection H as ->.
  apply find_some_elem in E as [Hin Ht]. apply bool_decide_eq_true in Ht. cbn in Ht. subst.
  by apply elem_of_map_to_list.
Qed.

Lemma findWhatsAppJidByTopic_complete b t jid :
  chatMappings b !! jid = Some t → is_Some (findWhatsAppJidByTopic b (Some t)).
Proof.
  unfold findWhatsAppJidByTopic. intros Hj.
  destruct (List.find _ _) as [e|] eqn:E; [by eexists|]. exfalso.
  apply elem_of_map_to_list, list_elem_of_In in Hj.
  pose proof (find_none _ _ E _ Hj) as Hn. cbn in Hn.
  by rewrite bool_decide_eq_true_2 in Hn.
Qed.

(** [findWhatsAppJidByTopic] answers with a chat that is mapped to the
    topic; it answers null exactly when no chat is mapped to it; and
    when no two chats share a topic, it is the inverse of the chat
    mapping. *)
Theorem findWhatsAppJidByTopic_inverse (b : bridge) (t : Z) :
  (∀ jid, findWhatsAppJidByTopic b (Some t) = Some jid → chatMappings b !! jid = Some t) ∧
  (findWhatsAppJidByTopic b (Some t) = None ↔ ∀ jid, chatMappings b !! jid ≠ Some t) ∧
  (topicsDistinct b →
   ∀ jid, chatMappings b !! jid = Some t → findWhatsAppJidByTopic b (Some t) = Some jid).
Proof.
  split; [apply findWhatsAppJidByTopic_sound|]. split; [split|].
  - intros Hn jid Hj.
    destruct (findWhatsAppJidByTopic_complete b t jid Hj) as [x Hx]. congruence.
  - intros Hn. destruct (findWhatsAppJidByTopic b (Some t)) as [jid|] eqn:E; [|reflexivity].
    exfalso. by apply (Hn jid), findWhatsAppJidByTopic_sound.
  - intros Hd jid Hj.
    destruct (findWhatsAppJidByTopic_complete b t jid Hj) as [j' Hx]. rewrite Hx. f_equal.
    apply (Hd j' jid t); [by apply findWhatsAppJidByTopic_sound|exact Hj].
Qed.

(** ** Read receipts *)

Lemma find_timer_at (old rest : list timer) (t : timer) :
  Forall (λ x, timerId x ≠ timerId t) old →
  Forall (λ x, timerId x ≠ timerId t) rest →
  List.find (λ x, (timerId x =? timerId t)%nat) (old ++ t :: rest) = Some t ∧
  List.filter (λ x, negb (timerId x =? timerId t)%nat) (old ++ t :: rest) = old ++ rest.
Proof.
  intros Hold Hrest.
  assert (Hr : List.filter (λ x, negb (timerId x =? timerId t)%nat) rest = rest).
  { clear Hold. induction Hrest as [|x l Hx _ IH]; [reflexivity|]. cbn.
    rewrite (proj2 (Nat.eqb_neq _ _) Hx). cbn. by rewrite IH. }
  induction Hold as [|x l Hx _ [IH1 IH2]]; cbn.
  - rewrite Nat.eqb_refl. cbn. by rewrite Hr.
  - rewrite (proj2 (Nat.eqb_neq _ _) Hx). cbn. by rewrite IH1, IH2.
Qed.

Lemma queueMessageForReadReceipt_on ft chatJid k s :
  readReceipts ft = Some true →
  queueMessageForReadReceipt ft chatJid k s =
    (Ret tt,
     set_nextTimer (S (nextTimer s))
       (set_timers (λ ts, ts ++ [Timer (nextTimer s) 2000 (ProcessReadReceipts chatJid)])
          (set_messageQueue
             (λ q, <[chatJid := default [] (q !! chatJid) ++ [k]]> q) s)), []).
Proof. intros Hf. unfold queueMessageForReadReceipt. by rewrite Hf. Qed.

(** The state after [queueAll]: the keys are appended to the queue of
    the chat, and each key has started a timeout of two seconds. *)
Lemma queueAll_final ft chatJid keys : ∀ s,
  readReceipts ft = Some true →
  final (queueAll ft chatJid keys s) =
    set_nextTimer (nextTimer s + length keys)%nat
      (set_timers (λ ts, ts ++ imap (λ i _, Timer (nextTimer s + i) 2000 (ProcessReadReceipts chatJid)) keys)
         (set_messageQueue
            (λ q, if bool_decide (keys = []) then q
                  else <[chatJid := default [] (q !! chatJid) ++ keys]> q) s)).
Proof.
  induction keys as [|k keys IH]; intros s Hf.
  - cbn. destruct s; unfold set_nextTimer, set_timers, set_messageQueue; cbn.
    by rewrite Nat.add_0_r, app_nil_r.
  - cbn [queueAll]. unfold bind at 1, final.
    rewrite (queueMessageForReadReceipt_on ft chatJid k s Hf).
    match goal with |- context [queueAll ft chatJid keys ?s1] =>
      specialize (IH s1 Hf); unfold final in IH;
      destruct (queueAll ft chatJid keys s1) as [[r s2] t2]
    end.
    cbn [fst snd] in *. rewrite IH. clear IH.
    unfold set_nextTimer, set_timers, set_messageQueue. cbn.
    f_equal.
    + case_bool_decide as Hk; [by subst|].
      rewrite lookup_insert_eq. cbn. rewrite insert_insert_eq. by rewrite <- app_assoc.
    + rewrite <- app_assoc. f_equal. cbn. f_equal.
      * by rewrite Nat.add_0_r.
      * apply imap_ext. intros i x _. cbn. f_equal. lia.
    + lia.
Qed.

(** A timeout of [queueMessageForReadReceipt] fires with the socket
    connected: a non-empty queue is handed to [readMessages], and the
    method waits for the call; the queue stays as it is. *)
Lemma fire_processReadReceipts ft env chatJid n d old rest s :
  timers s = old ++ Timer n d (ProcessReadReceipts chatJid) :: rest →
  Forall (λ x, timerId x ≠ n) old →
  Forall (λ x, timerId x ≠ n) rest →
  fSock env = true →
  fire ft env n s =
    (Ret tt,
     match messageQueue s !! chatJid with
     | Some (m :: ms) =>
         set_nextTimer (S (nextTimer s))
           (set_timers
              (λ _, old ++ rest ++ [Timer (nextTimer s) 0 (ReadMessagesSettled chatJid)])
              (set_outbox (λ o, o ++ [WReadMessages (m :: ms)]) s))
     | _ => set_timers (λ _, old ++ rest) s
     end, []).
Proof.
  intros Ht Hold Hrest Hsock.
  destruct (find_timer_at old rest (Timer n d (ProcessReadReceipts chatJid)) Hold Hrest)
    as [Hfind Hfilter].
  cbn [timerId] in Hfind, Hfilter.
  unfold fire. unfold bind at 1, gets. rewrite Ht, Hfind.
  unfold bind at 1, clearTimeout, modify. cbn [task runTask]. rewrite Hsock.
  unfold processReadReceipts, bind at 1, gets. cbn [messageQueue set_timers].
  unfold set_timers. rewrite Ht, Hfilter.
  destruct (messageQueue s !! chatJid) as [[|m ms]|]; try reflexivity.
  unfold await, setTimeout, bind, gets, modify, ret, set_outbox, set_timers, set_nextTimer.
  cbn. by rewrite <- app_assoc.
Qed.

(** The call of [readMessages] settles and has succeeded: only now is
    the queue of the chat emptied. *)
Lemma fire_readMessagesSettled ft env chatJid n d old rest s :
  timers s = old ++ Timer n d (ReadMessagesSettled chatJid) :: rest →
  Forall (λ x, timerId x ≠ n) old →
  Forall (λ x, timerId x ≠ n) rest →
  fOk env = true →
  fire ft env n s =
    (Ret tt, set_messageQueue <[chatJid := []]> (set_timers (λ _, old ++ rest) s),
     [ELog Debug "Marked messages as read"]).
Proof.
  intros Ht Hold Hrest Hok.
  destruct (find_timer_at old rest (Timer n d (ReadMessagesSettled chatJid)) Hold Hrest)
    as [Hfind Hfilter].
  cbn [timerId] in Hfind, Hfilter.
  unfold fire. unfold bind at 1, gets. rewrite Ht, Hfind.
  unfold bind at 1, clearTimeout, modify. cbn [task runTask]. rewrite Hok.
  unfold set_timers. rewrite Ht, Hfilter. reflexivity.
Qed.

(** All the timeouts fire before a call settles: each of them hands the
    whole queue to [readMessages]. *)
Lemma fireAll_backToBack ft chatJid keys (l : list waKey) : ∀ envs n old cs s,
  length envs = length l →
  Forall (λ e, fSock e = true) envs →
  Forall (λ t, (timerId t < n)%nat) old →
  Forall (λ t, (n + length l ≤ timerId t)%nat) cs →
  (n + length l ≤ nextTimer s)%nat →
  keys ≠ [] →
  messageQueue s !! chatJid = Some keys →
  timers s = old ++ imap (λ i _, Timer (n + i) 2000 (ProcessReadReceipts chatJid)) l ++ cs →
  fireAll ft envs (seq n (length l)) s =
    (Ret tt,
     set_nextTimer (nextTimer s + length l)
       (set_timers
          (λ _, old ++ cs ++
                imap (λ i _, Timer (nextTimer s + i) 0 (ReadMessagesSettled chatJid)) l)
          (set_outbox (λ o, o ++ replicate (length l) (WReadMessages keys)) s)), []).
Proof.
  induction l as [|k l IH]; intros envs n old cs s Hlen Henvs Hold Hcs Hnext Hk Hq Ht.
  - destruct envs; [|discriminate]. cbn in Ht |- *.
    destruct s; cbn in *. subst. unfold set_nextTimer, set_timers, set_outbox. cbn.
    by rewrite !app_nil_r, Nat.add_0_r.
  - destruct envs as [|env envs]; [discriminate|].
    apply Forall_cons in Henvs as [Hsock Henvs].
    cbn [length seq fireAll].
    cbn [imap] in Ht. rewrite Nat.add_0_r in Ht. cbn [app] in Ht.
    set (rest := imap _ l ++ cs) in Ht.
    assert (Hrest : Forall (λ x, timerId x ≠ n) rest).
    { unfold rest. apply Forall_app. split.
      - apply Forall_forall. intros x Hx.
        apply elem_of_lookup_imap in Hx as (i & y & -> & _). unfold compose. cbn. lia.
      - eapply Forall_impl; [exact Hcs|]. intros x Hx. cbn in *. lia. }
    assert (Hold' : Forall (λ x, timerId x ≠ n) old).
    { eapply Forall_impl; [exact Hold|]. intros x Hx. cbn in *. lia. }
    pose proof (fire_processReadReceipts ft env chatJid n 2000 old rest s Ht Hold' Hrest Hsock)
      as E1.
    rewrite Hq in E1. destruct keys as [|m ms]; [done|].
    unfold bind. rewrite E1.
    set (s1 := set_nextTimer _ _) in *.
    assert (Ht1 : timers s1 =
              old ++ imap (λ i _, Timer (S n + i) 2000 (ProcessReadReceipts chatJid)) l ++
              (cs ++ [Timer (nextTimer s) 0 (ReadMessagesSettled chatJid)])).
    { unfold s1, rest. cbn. rewrite <- !app_assoc. do 2 f_equal.
      apply imap_ext. intros i x _. cbn. f_equal. lia. }
    assert (Hold1 : Forall (λ x, (timerId x < S n)%nat) old).
    { eapply Forall_impl; [exact Hold|]. intros x Hx. cbn in *. lia. }
    assert (Hcs1 : Forall (λ t, (S n + length l ≤ timerId t)%nat)
                     (cs ++ [Timer (nextTimer s) 0 (ReadMessagesSettled chatJid)])).
    { apply Forall_app. split.
      - eapply Forall_impl; [exact Hcs|]. intros x Hx. cbn in *. lia.
      - repeat constructor. cbn in *. lia. }
    injection Hlen as Hlen.
    rewrite (IH envs (S n) old _ s1 Hlen Henvs Hold1 Hcs1); [|unfold s1; cbn in *; lia|done|by unfold s1|exact Ht1].
    unfold s1, set_nextTimer, set_timers, set_outbox. cbn. f_equal. f_equal. f_equal.
    + rewrite <- !app_assoc. do 2 f_equal. cbn. f_equal; [by rewrite Nat.add_0_r|].
      apply imap_ext. intros i x _. cbn. f_equal. lia.
    + lia.
    + by rewrite <- app_assoc.
Qed.

(** The calls of [readMessages] settle, one after the other. *)
Lemma fireAll_settled ft chatJid (l : list waKey) : ∀ envs n old s,
  length envs = length l →
  Forall (λ e, fOk e = true) envs →
  Forall (λ t, (timerId t < n)%nat) old →
  timers s = old ++ imap (λ i _, Timer (n + i) 0 (ReadMessagesSettled chatJid)) l →
  ∃ tr, fireAll ft envs (seq n (length l)) s =
    (Ret tt,
     set_timers (λ _, old)
       (match l with [] => s | _ => set_messageQueue <[chatJid := []]> s end), tr).
Proof.
  induction l as [|k l IH]; intros envs n old s Hlen Henvs Hold Ht.
  - destruct envs; [|discriminate]. cbn in Ht |- *. rewrite app_nil_r in Ht.
    exists []. destruct s; cbn in *. by subst.
  - destruct envs as [|env envs]; [discriminate|].
    apply Forall_cons in Henvs as [Hok Henvs].
    cbn [length seq fireAll].
    cbn [imap] in Ht. rewrite Nat.add_0_r in Ht.
    set (rest := imap _ l) in Ht.
    assert (Hrest : Forall (λ x, timerId x ≠ n) rest).
    { unfold rest. apply Forall_forall. intros x Hx.
      apply elem_of_lookup_imap in Hx as (i & y & -> & _). unfold compose. cbn. lia. }
    assert (Hold' : Forall (λ x, timerId x ≠ n) old).
    { eapply Forall_impl; [exact Hold|]. intros x Hx. cbn in *. lia. }
    pose proof (fire_readMessagesSettled ft env chatJid n 0 old rest s Ht Hold' Hrest Hok) as E1.
    unfold bind. rewrite E1.
    set (s1 := set_messageQueue _ _) in *.
    assert (Ht1 : timers s1 =
              old ++ imap (λ i _, Timer (S n + i) 0 (ReadMessagesSettled chatJid)) l).
    { unfold s1, rest. cbn. f_equal. apply imap_ext. intros i x _. cbn. f_equal. lia. }
    assert (Hold1 : Forall (λ x, (timerId x < S n)%nat) old).
    { eapply Forall_impl; [exact Hold|]. intros x Hx. cbn in *. lia. }
    injection Hlen as Hlen.
    destruct (IH envs (S n) old s1 Hlen Henvs Hold1 Ht1) as (tr & E2).
    rewrite E2. eexists. f_equal. f_equal.
    unfold s1, set_timers, set_messageQueue. cbn.
    destruct l; cbn; [reflexivity|]. by rewrite insert_insert_eq.
Qed.

(** Timeouts that fire when nothing is queued do nothing. *)
Lemma fireAll_nothing_queued ft chatJid (l : list waKey) : ∀ envs n old s,
  length envs = length l →
  Forall (λ e, fSock e = true) envs →
  Forall (λ t, (timerId t < n)%nat) old →
  messageQueue s !! chatJid = Some [] →
  timers s = old ++ imap (λ i _, Timer (n + i) 2000 (ProcessReadReceipts chatJid)) l →
  fireAll ft envs (seq n (length l)) s = (Ret tt, set_timers (λ _, old) s, []).
Proof.
  induction l as [|k l IH]; intros envs n old s Hlen Henvs Hold Hq Ht.
  - destruct envs; [|discriminate]. cbn in Ht |- *. rewrite app_nil_r in Ht.
    destruct s; cbn in *. by subst.
  - destruct envs as [|env envs]; [discriminate|].
    apply Forall_cons in Henvs as [Hsock Henvs].
    cbn [length seq fireAll].
    cbn [imap] in Ht. rewrite Nat.add_0_r in Ht.
    set (rest := imap _ l) in Ht.
    assert (Hrest : Forall (λ x, timerId x ≠ n) rest).
    { unfold rest. apply Forall_forall. intros x Hx.
      apply elem_of_lookup_imap in Hx as (i & y & -> & _). unfold compose. cbn. lia. }
    assert (Hold' : Forall (λ x, timerId x ≠ n) old).
    { eapply Forall_impl; [exact Hold|]. intros x Hx. cbn in *. lia. }
    pose proof (fire_processReadReceipts ft env chatJid n 2000 old rest s Ht Hold' Hrest Hsock)
      as E1.
    rewrite Hq in E1. unfold bind. rewrite E1.
    set (s1 := set_timers _ s) in *.
    assert (Ht1 : timers s1 =
              old ++ imap (λ i _, Timer (S n + i) 2000 (ProcessReadReceipts chatJid)) l).
    { unfold s1, rest. cbn. f_equal. apply imap_ext. intros i x _. cbn. f_equal. lia. }
    assert (Hold1 : Forall (λ x, (timerId x < S n)%nat) old).
    { eapply Forall_impl; [exact Hold|]. intros x Hx. cbn in *. lia. }
    injection Hlen as Hlen.
    rewrite (IH envs (S n) old s1 Hlen Henvs Hold1 Hq Ht1).
    reflexivity.
Qed.

(** Read receipts go out once only when the call settles in time.  Each
    key queued for a chat starts a timeout.  A timeout that fires with
    the socket connected hands the whole queue to [readMessages], in
    the order the keys were queued, and the queue is emptied only when
    that call has returned.  So when the call of the first timeout
    settles before the second timeout fires, the keys are handed over
    in one call and the other timeouts find nothing to send; when the
    timeouts fire one after the other before a call settles, every one
    of them hands the same keys over again.  Either way the queue is
    empty in the end. *)
Theorem read_receipts_once_if_settled_in_time (ft : features) (chatJid : string)
    (keys : list waKey) (fired settled : list fireEnv) (s : state) :
  readReceipts ft = Some true →
  keys ≠ [] →
  default [] (messageQueue s !! chatJid) = [] →
  Forall (λ t, (timerId t < nextTimer s)%nat) (timers s) →
  length fired = length keys → length settled = length keys →
  Forall (λ e, fSock e = true) fired →
  Forall (λ e, fOk e = true) settled →
  let n := length keys in
  let s1 := final (queueAll ft chatJid keys s) in
  let once := final (settledInTime ft fired settled (nextTimer s) n s1) in
  let again := final (backToBack ft fired settled (nextTimer s) n s1) in
  messageQueue s1 !! chatJid = Some keys ∧
  (outbox once = outbox s ++ [WReadMessages keys] ∧
   messageQueue once !! chatJid = Some [] ∧
   timers once = timers s) ∧
  (outbox again = outbox s ++ replicate n (WReadMessages keys) ∧
   messageQueue again !! chatJid = Some [] ∧
   timers again = timers s).
Proof.
  intros Hf Hk Hq Hlt Hlf Hls Hfired Hsettled n s1 once again.
  assert (E1 : s1 = _) by apply (queueAll_final ft chatJid keys s Hf).
  unfold set_messageQueue in E1. cbn beta in E1.
  rewrite (bool_decide_eq_false_2 _ Hk), Hq in E1. cbn [app] in E1.
  assert (Hq1 : messageQueue s1 !! chatJid = Some keys).
  { rewrite E1. cbn. apply lookup_insert_eq. }
  assert (Ht1 : timers s1 = timers s ++
            imap (λ i _, Timer (nextTimer s + i) 2000 (ProcessReadReceipts chatJid)) keys).
  { by rewrite E1. }
  assert (Ho1 : outbox s1 = outbox s) by by rewrite E1.
  assert (Hn1 : nextTimer s1 = (nextTimer s + n)%nat) by by rewrite E1.
  clearbody s1. split; [exact Hq1|]. split.
  - (* the first call settles in time *)
    destruct keys as [|k keys]; [done|].
    destruct fired as [|f fired]; [discriminate|].
    destruct settled as [|g settled]; [discriminate|].
    apply Forall_cons in Hfired as [Hf1 Hfired]. apply Forall_cons in Hsettled as [Hg1 _].
    injection Hlf as Hlf.
    cbn [imap] in Ht1. rewrite Nat.add_0_r in Ht1.
    set (rest := imap _ keys) in Ht1.
    assert (Hrest : Forall (λ x, timerId x ≠ nextTimer s) rest).
    { unfold rest. apply Forall_forall. intros x Hx.
      apply elem_of_lookup_imap in Hx as (i & y & -> & _). unfold compose. cbn. lia. }
    assert (Hold' : Forall (λ x, timerId x ≠ nextTimer s) (timers s)).
    { eapply Forall_impl; [exact Hlt|]. intros x Hx. cbn in *. lia. }
    pose proof (fire_processReadReceipts ft f chatJid (nextTimer s) 2000 (timers s) rest s1
                  Ht1 Hold' Hrest Hf1) as Ea.
    rewrite Hq1 in Ea.
    set (sa := set_nextTimer _ _) in Ea.
    assert (Hta : timers sa =
              (timers s ++ rest) ++ Timer (nextTimer s + n) 0 (ReadMessagesSettled chatJid) :: []).
    { unfold sa. cbn. by rewrite Hn1, <- app_assoc. }
    assert (Hne : Forall (λ x, timerId x ≠ (nextTimer s + n)%nat) (timers s ++ rest)).
    { apply Forall_app. split.
      - eapply Forall_impl; [exact Hlt|]. intros x Hx. cbn in *. lia.
      - unfold rest. apply Forall_forall. intros x Hx.
        apply elem_of_lookup_imap in Hx as (i & y & -> & Hi). unfold compose. cbn.
        apply lookup_lt_Some in Hi. subst n. cbn. lia. }
    pose proof (fire_readMessagesSettled ft g chatJid (nextTimer s + n) 0 (timers s ++ rest) []
                  sa Hta Hne (Forall_nil_2 _) Hg1) as Eb.
    rewrite app_nil_r in Eb.
    set (sb := set_messageQueue _ _) in Eb.
    assert (Htb : timers sb = timers s ++
              imap (λ i _, Timer (S (nextTimer s) + i) 2000 (ProcessReadReceipts chatJid)) keys).
    { unfold sb, rest. cbn. f_equal. apply imap_ext. intros i x _. cbn. f_equal. lia. }
    assert (Hqb : messageQueue sb !! chatJid = Some []).
    { unfold sb. cbn. apply lookup_insert_eq. }
    assert (Hlt' : Forall (λ x, (timerId x < S (nextTimer s))%nat) (timers s)).
    { eapply Forall_impl; [exact Hlt|]. intros x Hx. cbn in *. lia. }
    pose proof (fireAll_nothing_queued ft chatJid keys fired (S (nextTimer s)) (timers s) sb
                  Hlf Hfired Hlt' Hqb Htb) as Ec.
    assert (E : once = set_timers (λ _, timers s) sb).
    { unfold once, settledInTime. unfold n in Eb |- *.
      cbn [length firstn skipn fireAll Nat.sub] in Eb |- *.
      rewrite Nat.sub_0_r, !take_0, drop_0. cbn [fireAll].
      unfold bind, ret, final. rewrite Ea. cbn [fst snd].
      rewrite Eb. cbn [fst snd]. by rewrite Ec. }
    rewrite E. unfold sb, sa. cbn. rewrite Ho1.
    split; [reflexivity|]. split; [apply lookup_insert_eq|reflexivity].
  - (* the timeouts fire back to back *)
    assert (Ht1' : timers s1 = timers s ++
              imap (λ i _, Timer (nextTimer s + i) 2000 (ProcessReadReceipts chatJid)) keys ++ []).
    { by rewrite app_nil_r. }
    pose proof (fireAll_backToBack ft chatJid keys keys fired (nextTimer s) (timers s) [] s1
                  Hlf Hfired Hlt (Forall_nil_2 _) ltac:(fold n; lia) Hk Hq1 Ht1') as Ea.
    fold n in Ea.
    set (sa := set_nextTimer _ _) in Ea.
    assert (Hta : timers sa = timers s ++
              imap (λ i _, Timer (nextTimer s + n + i) 0 (ReadMessagesSettled chatJid)) keys).
    { unfold sa. cbn. by rewrite Hn1. }
    assert (Hlt' : Forall (λ x, (timerId x < nextTimer s + n)%nat) (timers s)).
    { eapply Forall_impl; [exact Hlt|]. intros x Hx. cbn in *. lia. }
    destruct (fireAll_settled ft chatJid keys settled (nextTimer s + n) (timers s) sa
                Hls Hsettled Hlt' Hta) as (tr & Eb).
    fold n in Eb.
    assert (E : again = set_timers (λ _, timers s)
                          (set_messageQueue <[chatJid := []]> sa)).
    { unfold again, backToBack. unfold bind, final. rewrite Ea. cbn [fst snd].
      rewrite Eb. cbn [fst snd]. by destruct keys. }
    rewrite E. unfold sa. cbn. rewrite Ho1.
    split; [reflexivity|]. split; [apply lookup_insert_eq|reflexivity].
Qed.

Lemma read_receipts_once_if_settled_in_time_witness :
  let ft := Features true true true (Some true) true in
  let k1 := WaKey alice "3EB0A1" false None in
  let k2 := WaKey alice "3EB0A2" false None in
  let fired := [FireEnv true 3000 true; FireEnv true 3001 true] in
  let settled := [FireEnv true 3002 true; FireEnv true 3003 true] in
  let s1 := final (queueAll ft alice [k1; k2] Ext.new) in
  let once := final (settledInTime ft fired settled (nextTimer Ext.new) 2 s1) in
  let again := final (backToBack ft fired settled (nextTimer Ext.new) 2 s1) in
  messageQueue s1 !! alice = Some [k1; k2] ∧
  (outbox once = outbox Ext.new ++ [WReadMessages [k1; k2]] ∧
   messageQueue once !! alice = Some [] ∧
   timers once = timers Ext.new) ∧
  (outbox again = outbox Ext.new ++ replicate 2 (WReadMessages [k1; k2]) ∧
   messageQueue again !! alice = Some [] ∧
   timers again = timers Ext.new).
Proof.
  apply (read_receipts_once_if_settled_in_time (Features true true true (Some true) true) alice
           [WaKey alice "3EB0A1" false None; WaKey alice "3EB0A2" false None]
           [FireEnv true 3000 true; FireEnv true 3001 true]
           [FireEnv true 3002 true; FireEnv true 3003 true] Ext.new);
    [reflexivity|discriminate|reflexivity|constructor|reflexivity|reflexivity| |];
    by repeat constructor.
Defined.

(** Read receipts depend on the socket in two ways.  When the socket
    refuses the call, the keys stay queued, and the next timeout hands
    the same keys to the socket again.  When there is no socket, the
    queue is emptied although nothing was sent: those messages are
    never marked as read. *)
Theorem read_receipts_without_socket (chatJid : string) (m : waKey) (ms : list waKey)
    (s : state) :
  messageQueue s !! chatJid = Some (m :: ms) →
  (let s' := final (readMessagesSettled false chatJid
                      (final (processReadReceipts true chatJid s))) in
   messageQueue s' !! chatJid = Some (m :: ms) ∧
   outbox s' = outbox s ++ [WReadMessages (m :: ms)]) ∧
  (let s' := final (processReadReceipts false chatJid s) in
   messageQueue s' !! chatJid = Some [] ∧ outbox s' = outbox s).
Proof.
  intros Hq. split; intros s'.
  - assert (E : s' = set_nextTimer (S (nextTimer s))
                       (set_timers (λ ts, ts ++ [Timer (nextTimer s) 0
                                                   (ReadMessagesSettled chatJid)])
                          (set_outbox (λ o, o ++ [WReadMessages (m :: ms)]) s))).
    { unfold s', processReadReceipts, bind at 1, gets. by rewrite Hq. }
    rewrite E. by split.
  - assert (E : s' = set_messageQueue <[chatJid := []]> s).
    { unfold s', processReadReceipts, bind at 1, gets. by rewrite Hq. }
    rewrite E. split; [apply lookup_insert_eq|reflexivity].
Qed.

Lemma read_receipts_without_socket_witness :
  let k := WaKey alice "3EB0A1" false None in
  let s := final (queueAll (Features true true true (Some true) true) alice [k] Ext.new) in
  (let s' := final (readMessagesSettled false alice
                      (final (processReadReceipts true alice s))) in
   messageQueue s' !! alice = Some [k] ∧
   outbox s' = outbox s ++ [WReadMessages [k]]) ∧
  (let s' := final (processReadReceipts false alice s) in
   messageQueue s' !! alice = Some [] ∧ outbox s' = outbox s).
Proof.
  apply (read_receipts_without_socket alice (WaKey alice "3EB0A1" false None) []
           (final (queueAll (Features true true true (Some true) true) alice
                     [WaKey alice "3EB0A1" false None] Ext.new))).
  reflexivity.
Defined.

(** * The relay of messages *)

Import Relay.

Lemma createdTopics_silent tr :
  Forall (λ e, userVisible e = false) tr → Async.createdTopics tr = [].
Proof.
  unfold Async.createdTopics. induction 1 as [|e tr He _ IH]; [reflexivity|].
  cbn. rewrite IH. by destruct e.
Qed.

(** [createUserMapping] always returns; it changes the bridge object
    only in the cache of participants and in the collection, and
    nothing of it is visible in Telegram. *)
Lemma createUserMapping_summary env p s :
  ∃ b' tr, createUserMapping env p s = (Ret tt, set_base (λ _, b') s, tr) ∧
    chatMappings b' = chatMappings (base s) ∧
    contactMappings b' = contactMappings (base s) ∧
    messageIdMapping b' = messageIdMapping (base s) ∧
    Forall (λ e, userVisible e = false) tr.
Proof.
  unfold createUserMapping. unfold bind at 1, gets.
  destruct (userMappings (base s) !! p) as [u|];
    unfold bind, gets, modify, lift, saveUserMapping, collection_updateOne, log, emit;
    destruct (uSaveOk env); cbn; eexists _, _;
    (split; [reflexivity|]); cbn; repeat split; by repeat constructor.
Qed.

(** A text of a direct chat, from someone else: the participant is
    counted, the topic is looked up or created, the text is sent to the
    topic, the pair of message ids is recorded, and the key is queued
    for a read receipt. *)
Lemma syncMessage_text h cfg ft env msg text s :
  telegramEnabled ft = true →
  remoteJid (mKey msg) ≠ "status@broadcast" →
  fromMe (mKey msg) = false →
  JS.endsWith "@g.us" (remoteJid (mKey msg)) = false →
  JS.truthy text = true →
  syncMessage h cfg ft true env msg plain text s =
    (run createUserMapping (yUser env)
           (JS.orElse (participant (mKey msg)) (remoteJid (mKey msg))) ;;
     topicId <- lift (getOrCreateTopic cfg (yTopic env) (remoteJid (mKey msg)) msg) ;;
     run ret tt ;;
     run (messageText <- ret text ;;
          sentMsg <- sendSimpleMessage (ySend env) topicId messageText ;;
          recordSent env sentMsg (mKey msg)) ;;
     if JS.truthy (keyId (mKey msg)) && negb (bool_decide (readReceipts ft = Some false))
     then queueMessageForReadReceipt ft (remoteJid (mKey msg)) (mKey msg)
     else ret tt) s.
Proof.
  intros Hen Hst Hme Hg Ht. unfold syncMessage. rewrite Hen, Hme, Hg, Ht.
  rewrite (proj2 (String.eqb_neq _ _) Hst). cbn [negb orb andb plain quotedMessage
    ptvMessage videoPtv imageMessage videoMessage audioMessage documentMessage
    stickerMessage locationMessage contactMessage].
  reflexivity.
Qed.

(** The first text of a contact the bridge has not seen arrives in
    Telegram.  When the calls succeed, one topic is created for the
    chat and mapped to it, the text is sent into that topic, the
    Telegram id of the sent message is recorded with the WhatsApp key,
    and the key is queued for a read receipt. *)
Theorem first_text_is_relayed (h : waHandlers) (cfg : config) (ft : features) (env : syncEnv)
    (msg : waMessage) (text : string) (t m : Z) (s : state) :
  telegramEnabled ft = true → readReceipts ft = Some true →
  remoteJid (mKey msg) ≠ "status@broadcast" →
  fromMe (mKey msg) = false →
  JS.endsWith "@g.us" (remoteJid (mKey msg)) = false →
  JS.truthy text = true → JS.truthy (keyId (mKey msg)) = true →
  chatIdMissing cfg = false →
  chatMappings (base s) !! remoteJid (mKey msg) = None →
  createForumTopic (yTopic env) = Some t → t ≠ 0 → saveOk (yTopic env) = true →
  ySend env = Some m → m ≠ 0 → ySaveOk env = true →
  let r := syncMessage h cfg ft true env msg plain text s in
  result r = Ret tt ∧
  chatMappings (base (final r)) !! remoteJid (mKey msg) = Some t ∧
  Async.createdTopics (trace r) = [t] ∧
  ESendMessage Forum text (Some t) ∈ trace r ∧
  messageIdMapping (base (final r)) !! TgId m = Some (mKey msg) ∧
  messageQueue (final r) !! remoteJid (mKey msg) =
    Some (default [] (messageQueue s !! remoteJid (mKey msg)) ++ [mKey msg]) ∧
  timers (final r) =
    timers s ++ [Timer (nextTimer s) 2000 (ProcessReadReceipts (remoteJid (mKey msg)))].
Proof.
  intros Hen Hrr Hst Hme Hg Ht Hid Hcfg Hm Hc Ht0 Hs Hsend Hm0 Hsave r. subst r.
  remember (syncMessage h cfg ft true env msg plain text s) as X eqn:HX.
  rewrite (syncMessage_text h cfg ft env msg text s Hen Hst Hme Hg Ht) in HX.
  rewrite Hid, Hrr in HX. rewrite bool_decide_eq_false_2 in HX by discriminate.
  cbn [andb negb] in HX.
  destruct (createUserMapping_summary (yUser env)
              (JS.orElse (participant (mKey msg)) (remoteJid (mKey msg))) s)
    as (b1 & tr1 & E1 & Hc1 & _ & _ & Hv1).
  unfold bind at 1 in HX. rewrite E1 in HX.
  assert (Hm1 : chatMappings b1 !! remoteJid (mKey msg) = None) by by rewrite Hc1.
  pose proof (getOrCreateTopic_unmapped cfg (yTopic env) (remoteJid (mKey msg)) msg b1 Hm1)
    as Eg.
  destruct (createTopic_summary cfg (yTopic env) (remoteJid (mKey msg)) msg b1 Hcfg)
    as (Hr2 & Hm2 & _ & Ht2).
  rewrite <- Eg in Hr2, Hm2, Ht2. rewrite Hc in Hr2, Hm2, Ht2. rewrite Hs in Hm2.
  unfold bind at 1, lift at 1 in HX. cbn [base set_base] in HX.
  destruct (getOrCreateTopic cfg (yTopic env) (remoteJid (mKey msg)) msg b1)
    as [[o2 b2] tr2].
  unfold result, final, trace in Hr2, Hm2, Ht2. cbn [fst snd] in Hr2, Hm2, Ht2. subst o2.
  unfold sendSimpleMessage in HX. rewrite (proj2 (Z.eqb_neq _ _) Ht0), Hsend in HX.
  unfold recordSent in HX.
  unfold bind, try_catch, call, emit, ret in HX. cbn -[queueMessageForReadReceipt] in HX.
  rewrite (proj2 (Z.eqb_neq _ _) Hm0), Hid in HX. cbn [negb andb] in HX.
  unfold lift, saveMessageMapping, collection_updateOne, try_catch, bind, emit, modify, ret
    in HX.
  rewrite Hsave in HX. cbn -[queueMessageForReadReceipt] in HX.
  rewrite queueMessageForReadReceipt_on in HX by exact Hrr.
  cbn in HX. subst X. cbn.
  split; [reflexivity|]. split; [by rewrite Hm2, lookup_insert_eq|].
  split.
  { rewrite !createdTopics_app, (createdTopics_silent tr1 Hv1), Ht2. reflexivity. }
  split.
  { rewrite !elem_of_app. right. right. left. }
  split; [apply lookup_insert_eq|].
  split; [apply lookup_insert_eq|reflexivity].
Qed.

Lemma first_text_is_relayed_witness :
  let env := SyncEnv (UserEnv true 900 1000) answers101 (Some 7001) true 1002 in
  let r := syncMessage idleWa forum allOn true env hello plain "hi" Ext.new in
  result r = Ret tt ∧
  chatMappings (base (final r)) !! remoteJid (mKey hello) = Some 101 ∧
  Async.createdTopics (trace r) = [101] ∧
  ESendMessage Forum "hi" (Some 101) ∈ trace r ∧
  messageIdMapping (base (final r)) !! TgId 7001 = Some (mKey hello) ∧
  messageQueue (final r) !! remoteJid (mKey hello) =
    Some (default [] (messageQueue Ext.new !! remoteJid (mKey hello)) ++ [mKey hello]) ∧
  timers (final r) =
    timers Ext.new ++
      [Timer (nextTimer Ext.new) 2000 (ProcessReadReceipts (remoteJid (mKey hello)))].
Proof.
  apply (first_text_is_relayed idleWa forum allOn
           (SyncEnv (UserEnv true 900 1000) answers101 (Some 7001) true 1002)
           hello "hi" 101 7001 Ext.new); try reflexivity; try discriminate.
Defined.

Lemma createTopic_fails_direct cfg env chatJid msg b :
  JS.endsWith "@g.us" chatJid = false →
  chatIdMissing cfg = true ∨ createForumTopic env = None →
  ∃ tr, createTopic cfg env chatJid msg b = (Ret None, b, tr) ∧ sentToTelegram tr = [].
Proof.
  intros Hg Hfail. unfold createTopic.
  destruct (chatIdMissing cfg) eqn:Hcfg; [eexists; split; reflexivity|].
  destruct Hfail as [|Hc]; [discriminate|].
  unfold topicNameAndColor. rewrite Hg, Hc.
  destruct (String.eqb chatJid "status@broadcast");
    [|destruct (String.eqb chatJid "call@broadcast")];
    eexists; split; reflexivity.
Qed.

(** A text that cannot be relayed is still marked as read.  When the
    topic of an unseen direct chat cannot be created, because no chat
    id is configured or because Telegram refuses, nothing is sent to
    Telegram and no pair of message ids is recorded; the key of the
    message is queued for a read receipt all the same. *)
Theorem unrelayed_text_is_marked_read (h : waHandlers) (cfg : config) (ft : features)
    (env : syncEnv) (msg : waMessage) (text : string) (s : state) :
  telegramEnabled ft = true → readReceipts ft = Some true →
  remoteJid (mKey msg) ≠ "status@broadcast" →
  fromMe (mKey msg) = false →
  JS.endsWith "@g.us" (remoteJid (mKey msg)) = false →
  JS.truthy text = true → JS.truthy (keyId (mKey msg)) = true →
  chatMappings (base s) !! remoteJid (mKey msg) = None →
  chatIdMissing cfg = true ∨ createForumTopic (yTopic env) = None →
  let r := syncMessage h cfg ft true env msg plain text s in
  result r = Ret tt ∧
  sentToTelegram (trace r) = [] ∧
  chatMappings (base (final r)) !! remoteJid (mKey msg) = None ∧
  messageIdMapping (base (final r)) = messageIdMapping (base s) ∧
  messageQueue (final r) !! remoteJid (mKey msg) =
    Some (default [] (messageQueue s !! remoteJid (mKey msg)) ++ [mKey msg]) ∧
  timers (final r) =
    timers s ++ [Timer (nextTimer s) 2000 (ProcessReadReceipts (remoteJid (mKey msg)))].
Proof.
  intros Hen Hrr Hst Hme Hg Ht Hid Hm Hfail r. subst r.
  remember (syncMessage h cfg ft true env msg plain text s) as X eqn:HX.
  rewrite (syncMessage_text h cfg ft env msg text s Hen Hst Hme Hg Ht) in HX.
  rewrite Hid, Hrr in HX. rewrite bool_decide_eq_false_2 in HX by discriminate.
  cbn [andb negb] in HX.
  destruct (createUserMapping_summary (yUser env)
              (JS.orElse (participant (mKey msg)) (remoteJid (mKey msg))) s)
    as (b1 & tr1 & E1 & Hc1 & _ & Hi1 & Hv1).
  unfold bind at 1 in HX. rewrite E1 in HX.
  assert (Hm1 : chatMappings b1 !! remoteJid (mKey msg) = None) by by rewrite Hc1.
  destruct (createTopic_fails_direct cfg (yTopic env) (remoteJid (mKey msg)) msg b1 Hg Hfail)
    as (tr2 & E2 & Hv2).
  rewrite <- (getOrCreateTopic_unmapped cfg (yTopic env) (remoteJid (mKey msg)) msg b1 Hm1)
    in E2.
  unfold bind at 1, lift at 1 in HX. cbn [base set_base] in HX. rewrite E2 in HX.
  unfold sendSimpleMessage, recordSent in HX.
  unfold bind, ret in HX. cbn -[queueMessageForReadReceipt] in HX.
  rewrite queueMessageForReadReceipt_on in HX by exact Hrr.
  cbn in HX. subst X. cbn.
  split; [reflexivity|]. split.
  { unfold sentToTelegram in *. rewrite !List.filter_app, Hv2, !app_nil_r.
    clear -Hv1. induction Hv1 as [|e tr He _ IH]; [reflexivity|].
    cbn. rewrite IH. by destruct e. }
  split; [exact Hm1|]. split; [exact Hi1|].
  split; [apply lookup_insert_eq|reflexivity].
Qed.

Lemma unrelayed_text_is_marked_read_witness :
  let refused := TopicEnv None true true None None true 1000 welcomed in
  let env := SyncEnv (UserEnv true 900 1000) refused (Some 7001) true 1002 in
  let r := syncMessage idleWa forum allOn true env hello plain "hi" Ext.new in
  result r = Ret tt ∧
  sentToTelegram (trace r) = [] ∧
  chatMappings (base (final r)) !! remoteJid (mKey hello) = None ∧
  messageIdMapping (base (final r)) = messageIdMapping (base Ext.new) ∧
  messageQueue (final r) !! remoteJid (mKey hello) =
    Some (default [] (messageQueue Ext.new !! remoteJid (mKey hello)) ++ [mKey hello]) ∧
  timers (final r) =
    timers Ext.new ++
      [Timer (nextTimer Ext.new) 2000 (ProcessReadReceipts (remoteJid (mKey hello)))].
Proof.
  apply (unrelayed_text_is_marked_read idleWa forum allOn
           (SyncEnv (UserEnv true 900 1000)
              (TopicEnv None true true None None true 1000 welcomed) (Some 7001) true 1002)
           hello "hi" Ext.new); try reflexivity; try discriminate.
  by right.
Defined.

(** A text the user sent from WhatsApp is echoed, and nothing more.  It
    goes into the topic of the chat, marked as the user's own, when the
    chat has a topic; otherwise nothing happens.  In neither case is a
    topic created, a participant counted or a read receipt queued. *)
Theorem own_text_is_echoed (h : waHandlers) (cfg : config) (ft : features)
    (env : syncEnv) (msg : waMessage) (text : string) (s : state) :
  telegramEnabled ft = true →
  remoteJid (mKey msg) ≠ "status@broadcast" →
  fromMe (mKey msg) = true →
  JS.truthy text = true →
  let r := syncMessage h cfg ft true env msg plain text s in
  result r = Ret tt ∧
  chatMappings (base (final r)) = chatMappings (base s) ∧
  userMappings (base (final r)) = userMappings (base s) ∧
  messageQueue (final r) = messageQueue s ∧
  timers (final r) = timers s ∧
  Async.createdTopics (trace r) = [] ∧
  match chatMappings (base s) !! remoteJid (mKey msg) with
  | Some t =>
      t ≠ 0 → head (trace r) = Some (ESendMessage Forum ("📤 You: " +:+ text) (Some t))
  | None => trace r = []
  end.
Proof.
  intros Hen Hst Hme Ht r. subst r.
  remember (syncMessage h cfg ft true env msg plain text s) as X eqn:HX.
  unfold syncMessage in HX. rewrite Hen, Hme in HX.
  rewrite (proj2 (String.eqb_neq _ _) Hst) in HX. cbn [negb orb] in HX.
  unfold bind at 1, gets in HX.
  destruct (chatMappings (base s) !! remoteJid (mKey msg)) as [t|].
  2:{ cbn in HX. subst X. unfold Async.createdTopics. by cbn. }
  destruct (t =? 0) eqn:E0.
  { apply Z.eqb_eq in E0. cbn in HX. subst X. unfold Async.createdTopics. cbn. by repeat split. }
  apply Z.eqb_neq in E0 as Ht0.
  unfold syncOutgoingMessage in HX. rewrite Ht in HX.
  cbn [plain ptvMessage videoPtv imageMessage videoMessage audioMessage documentMessage
       stickerMessage locationMessage contactMessage orb] in HX.
  unfold sendSimpleMessage, recordSent in HX. rewrite E0 in HX.
  destruct (ySend env) as [m|].
  - unfold try_catch at 1, bind at 1 2, call, emit, ret in HX. cbn -[lift] in HX.
    destruct (negb (m =? 0) && JS.truthy (keyId (mKey msg))).
    + unfold lift, saveMessageMapping, collection_updateOne in HX.
      destruct (ySaveOk env);
        unfold try_catch, bind, call, emit, modify, log, ret, throw in HX;
        cbn in HX; subst X; unfold Async.createdTopics; cbn; by repeat split.
    + cbn in HX. subst X. unfold Async.createdTopics. cbn. by repeat split.
  - unfold try_catch, bind, call, emit, modify, log, ret, throw in HX.
    cbn in HX. subst X. unfold Async.createdTopics. cbn. by repeat split.
Qed.

Lemma own_text_is_echoed_witness :
  let mine := WaMessage (WaKey alice "3EB0B7" true None) None in
  let env := SyncEnv (UserEnv true 900 1000) answers101 (Some 7001) true 1002 in
  let s := set_base (λ _, aliceMapped) Ext.new in
  let r := syncMessage idleWa forum allOn true env mine plain "on my way" s in
  result r = Ret tt ∧
  chatMappings (base (final r)) = chatMappings (base s) ∧
  userMappings (base (final r)) = userMappings (base s) ∧
  messageQueue (final r) = messageQueue s ∧
  timers (final r) = timers s ∧
  Async.createdTopics (trace r) = [] ∧
  match chatMappings (base s) !! remoteJid (mKey mine) with
  | Some t =>
      t ≠ 0 →
      head (trace r) = Some (ESendMessage Forum ("📤 You: " +:+ "on my way") (Some t))
  | None => trace r = []
  end.
Proof.
  apply (own_text_is_echoed idleWa forum allOn
           (SyncEnv (UserEnv true 900 1000) answers101 (Some 7001) true 1002)
           (WaMessage (WaKey alice "3EB0B7" true None) None) "on my way"
           (set_base (λ _, aliceMapped) Ext.new)); try reflexivity.
  discriminate.
Defined.

(** ** From Telegram to WhatsApp *)

Lemma sendTypingPresence_summary ft sock now ok jid s :
  ∃ s' tr presence,
    sendTypingPresence ft sock now ok jid s = (Ret tt, s', tr) ∧
    base s' = base s ∧
    revokeButtons s' = revokeButtons s ∧
    outbox s' = outbox s ++ presence ∧
    (presence = [] ∨ presence = [WSendPresenceUpdate "composing" jid]).
Proof.
  unfold sendTypingPresence, sendPresence.
  destruct (negb sock || negb (presenceUpdates ft)).
  { eexists _, _, []. rewrite app_nil_r. repeat split; by left. }
  unfold try_catch, bind, gets, send, modify, log, emit, ret, throw, setTimeout, clearTimeout.
  cbn.
  destruct (_ <? 1000); [|destruct ok]; cbn; destruct (presenceTimeout s); cbn;
    eexists _, _, _; (split; [reflexivity|]); cbn;
    (split; [reflexivity|]); (split; [reflexivity|]);
    first [ split; [symmetry; apply app_nil_r|by left]
          | split; [reflexivity|by right] ].
Qed.

(** A message in a topic that no chat is mapped to goes nowhere: it is
    logged, and neither WhatsApp nor Telegram hears of it. *)
Theorem telegram_message_without_chat_is_dropped (h : tgHandlers) (ft : features)
    (env : tgEnv) (msg : telegramMsg) (s : state) :
  (∀ jid t, tThread msg = Some t → chatMappings (base s) !! jid ≠ Some t) →
  handleTelegramMessage h ft env msg s =
    (Ret tt, s, [ELog Warn "Could not find WhatsApp chat for Telegram message"]).
Proof.
  intros Hn. unfold handleTelegramMessage, try_catch, bind at 1, gets.
  destruct (findWhatsAppJidByTopic (base s) (tThread msg)) as [jid|] eqn:E; [|reflexivity].
  exfalso. destruct (tThread msg) as [t|]; [|discriminate].
  apply findWhatsAppJidByTopic_sound in E. by apply (Hn jid t).
Qed.

Lemma telegram_message_without_chat_is_dropped_witness :
  handleTelegramMessage idleTg allOn
    (TgEnv true 5000 true None (Some None) true true "revoke_1" true)
    (textMessage (-1001234) 9001 (Some 55) "hello") Ext.new =
    (Ret tt, Ext.new, [ELog Warn "Could not find WhatsApp chat for Telegram message"]).
Proof.
  apply (telegram_message_without_chat_is_dropped idleTg allOn
           (TgEnv true 5000 true None (Some None) true true "revoke_1" true)
           (textMessage (-1001234) 9001 (Some 55) "hello") Ext.new).
  intros jid t _. cbn. by rewrite lookup_empty.
Defined.

(** A text written in the topic of a direct chat reaches that chat.
    When WhatsApp accepts the message, it is sent to the chat the topic
    is mapped to, with the expiration of the chat's ephemeral setting
    when that is enabled; the Telegram message gets the reaction 👍;
    its id is recorded with the key WhatsApp answered, and a timeout is
    set to mark the sent message as read.  When the message with the
    revoke button cannot be sent, the reaction ❌ follows, although the
    text has been delivered. *)
Theorem telegram_text_reaches_whatsapp (h : tgHandlers) (ft : features) (env : tgEnv)
    (chat id t : Z) (text jid : string) (key : waKey) (s : state) :
  findWhatsAppJidByTopic (base s) (Some t) = Some jid →
  JS.truthy jid = true →
  JS.endsWith "@g.us" jid = false →
  JS.truthy text = true →
  gSendResult env = Some (Some key) → JS.truthy (keyId key) = true →
  gSaveOk env = true →
  let r := handleTelegramMessage h ft env (textMessage chat id (Some t) text) s in
  let expiration :=
    match ephemeralSettings (base s) !! jid with
    | Some e => if eEnabled e then Some (eTimer e) else None
    | None => None
    end in
  result r = Ret tt ∧
  (∃ presence,
     outbox (final r) =
       outbox s ++ presence ++
         [WSendText jid (Some text) [] expiration None; TSetReaction chat id "👍"] ++
         (if revokeButtonsEnabled ft && negb (gOptionsOk env)
          then [TSetReaction chat id "❌"] else [])) ∧
  messageIdMapping (base (final r)) !! TgId id = Some key ∧
  (revokeButtonsEnabled ft = true → revokeButtons (final r) !! gButtonId env = Some key).
Proof.
  intros Hfind Hj Hg Ht Hsend Hk Hsave r expiration. subst r.
  remember (handleTelegramMessage h ft env (textMessage chat id (Some t) text) s) as X eqn:HX.
  unfold handleTelegramMessage in HX. unfold try_catch at 1, bind at 1, gets at 1 in HX.
  cbn [textMessage tThread] in HX. rewrite Hfind, Hj in HX. cbn [negb] in HX.
  destruct (sendTypingPresence_summary ft (gSock env) (gNow env) (gPresenceOk env) jid s)
    as (s1 & tr1 & presence & E1 & Hb1 & Hr1 & Ho1 & _).
  unfold bind at 1 in HX. rewrite E1 in HX.
  cbn [textMessage tReply tPhoto tVideo tAnimation tVideoNote tVoice tAudio tDocument
       tSticker tLocation tContact tText JS.otruthy] in HX.
  rewrite (bool_decide_eq_false_2 (is_Some (@None (Z * bool)))) in HX by (by intros [? ?]).
  rewrite andb_false_r, Ht in HX.
  unfold handleTelegramText in HX. rewrite Hg, Hsend in HX.
  cbn [textMessage tSpoiler tText tChatId tMessageId tThread] in HX.
  unfold afterSend in HX. rewrite Hk in HX.
  cbn [textMessage tChatId tMessageId tThread andb] in HX.
  unfold setReaction, lift, saveMessageMapping, collection_updateOne, createRevokeButton,
    setTimeout in HX.
  rewrite Hsave in HX.
  destruct (revokeButtonsEnabled ft); [destruct (gOptionsOk env)|];
    destruct (gReactionOk env);
    unfold try_catch, bind, gets, send, call, emit, modify, log, ret, throw, done_if in HX;
    cbn in HX; subst X; cbn; rewrite Hb1, Ho1, ?Hr1;
    (split; [reflexivity|]);
    (split; [exists presence; by rewrite <- !app_assoc|]);
    (split; [apply lookup_insert_eq|]);
    intros; try discriminate; by rewrite lookup_insert_eq.
Qed.

Lemma telegram_text_reaches_whatsapp_witness :
  let env := TgEnv true 5000 true None (Some (Some (WaKey alice "3EB0C9" true None)))
               true true "revoke_1" false in
  let s := set_base (λ _, aliceMapped) Ext.new in
  let r := handleTelegramMessage idleTg allOn env
             (textMessage (-1001234) 9001 (Some 17) "hello") s in
  let expiration :=
    match ephemeralSettings (base s) !! alice with
    | Some e => if eEnabled e then Some (eTimer e) else None
    | None => None
    end in
  result r = Ret tt ∧
  (∃ presence,
     outbox (final r) =
       outbox s ++ presence ++
         [WSendText alice (Some "hello") [] expiration None;
          TSetReaction (-1001234) 9001 "👍"] ++
         (if revokeButtonsEnabled allOn && negb (gOptionsOk env)
          then [TSetReaction (-1001234) 9001 "❌"] else [])) ∧
  messageIdMapping (base (final r)) !! TgId 9001 = Some (WaKey alice "3EB0C9" true None) ∧
  (revokeButtonsEnabled allOn = true →
   revokeButtons (final r) !! gButtonId env = Some (WaKey alice "3EB0C9" true None)).
Proof.
  apply (telegram_text_reaches_whatsapp idleTg allOn
           (TgEnv true 5000 true None (Some (Some (WaKey alice "3EB0C9" true None)))
              true true "revoke_1" false)
           (-1001234) 9001 17 "hello" alice (WaKey alice "3EB0C9" true None)
           (set_base (λ _, aliceMapped) Ext.new)); reflexivity.
Defined.

(** * Commands *)

Import Commands.

(** ** Authorization *)

(** [/authorize] and [/unauthorize] are the owner's.  Sent from the
    owner's chat, [/authorize] makes the named user pass [isAuthorized]
    unless the user is blocked, and [/unauthorize] makes the user fail
    it; the standing of every other user is untouched.  Sent from any
    other chat, neither command changes anything. *)
Theorem authorization_commands (parseInt : string → option Z) (ownerId : option Z)
    (replyOk : bool) (chatId : Z) (a : string) (args : list string) (u : Z) (b : bridge) :
  parseInt a = Some u →
  let granted := final (handleAuthorize parseInt ownerId replyOk chatId (a :: args) b) in
  let revoked := final (handleUnauthorize parseInt ownerId replyOk chatId (a :: args) b) in
  if bool_decide (Some chatId = ownerId) then
    (∀ v, isAuthorized granted v =
            if bool_decide (v = u) then negb (bool_decide (u ∈ blockedUsers b))
            else isAuthorized b v) ∧
    (∀ v, isAuthorized revoked v =
            if bool_decide (v = u) then false else isAuthorized b v)
  else granted = b ∧ revoked = b.
Proof.
  intros Hp granted revoked.
  assert (Eg : granted =
            if bool_decide (Some chatId = ownerId)
            then set_authorizedUsers (λ x, x ∪ {[u]}) b else b).
  { unfold granted, handleAuthorize. case_bool_decide; cbn [negb]; rewrite ?Hp;
      unfold bind, call, emit, modify, ret, throw; by destruct replyOk. }
  assert (Er : revoked =
            if bool_decide (Some chatId = ownerId)
            then set_authorizedUsers (λ x, x ∖ {[u]}) b else b).
  { unfold revoked, handleUnauthorize. case_bool_decide; cbn [negb]; rewrite ?Hp;
      unfold bind, call, emit, modify, ret, throw; by destruct replyOk. }
  clearbody granted revoked. subst. case_bool_decide; [|done].
  split; intros v; unfold isAuthorized; cbn; destruct (decide (v = u)) as [->|Hv].
  - rewrite (bool_decide_eq_true_2 (u = u)) by done.
    rewrite (bool_decide_eq_true_2 (u ∈ authorizedUsers b ∪ {[u]})); [done|].
    apply elem_of_union. right. by apply elem_of_singleton.
  - rewrite (bool_decide_eq_false_2 (v = u)) by done.
    f_equal. apply bool_decide_ext.
    rewrite elem_of_union, elem_of_singleton. tauto.
  - rewrite (bool_decide_eq_true_2 (u = u)) by done.
    rewrite (bool_decide_eq_false_2 (u ∈ authorizedUsers b ∖ {[u]})); [done|].
    rewrite elem_of_difference, elem_of_singleton. tauto.
  - rewrite (bool_decide_eq_false_2 (v = u)) by done.
    f_equal. apply bool_decide_ext.
    rewrite elem_of_difference, elem_of_singleton. tauto.
Qed.

Lemma authorization_commands_witness :
  let parseInt := λ s : string, if String.eqb s "42" then Some 42 else None in
  let granted := final (handleAuthorize parseInt (Some 1) true 1 ["42"] Bridge.new) in
  let revoked := final (handleUnauthorize parseInt (Some 1) true 1 ["42"] Bridge.new) in
  if bool_decide (Some 1 = Some 1) then
    (∀ v, isAuthorized granted v =
            if bool_decide (v = 42) then negb (bool_decide (42 ∈ blockedUsers Bridge.new))
            else isAuthorized Bridge.new v) ∧
    (∀ v, isAuthorized revoked v =
            if bool_decide (v = 42) then false else isAuthorized Bridge.new v)
  else granted = Bridge.new ∧ revoked = Bridge.new.
Proof.
  apply (authorization_commands (λ s : string, if String.eqb s "42" then Some 42 else None)
           (Some 1) true 1 "42" [] 42 Bridge.new).
  reflexivity.
Defined.

Lemma split_word c w rest :
  Forall (λ a, a ≠ c) (list_ascii_of_string w) →
  split c (w +:+ String c rest) = w :: split c rest.
Proof.
  induction w as [|a w IH]; intros H.
  - change ("" +:+ String c rest) with (String c rest). cbn [split].
    by rewrite Ascii.eqb_refl.
  - change (String a w +:+ String c rest) with (String a (w +:+ String c rest)).
    cbn [list_ascii_of_string] in H. apply Forall_cons in H as [Ha H].
    cbn [split]. rewrite (proj2 (Ascii.eqb_neq _ _) Ha), (IH H). reflexivity.
Qed.

Lemma split_last c w :
  Forall (λ a, a ≠ c) (list_ascii_of_string w) → split c w = [w].
Proof.
  induction w as [|a w IH]; intros H; [reflexivity|].
  cbn [list_ascii_of_string] in H. apply Forall_cons in H as [Ha H].
  cbn [split]. by rewrite (proj2 (Ascii.eqb_neq _ _) Ha), (IH H).
Qed.

(** The owner can lock everyone out, the owner included.  When the
    owner sends [/unauthorize] with the owner's own id, the command is
    carried out; from then on [handleCommand] refuses every command of
    the owner, [/authorize] among them, and changes nothing. *)
Theorem owner_can_lock_themselves_out (parseInt : string → option Z)
    (other : string → Z → list string → M bridge unit) (owner : Z) (a : string)
    (replyOk errorOk : bool) (b : bridge) :
  parseInt a = Some owner →
  Forall (λ c, c ≠ " "%char) (list_ascii_of_string a) →
  isAuthorized b owner = true →
  let command := λ t, handleCommand
                        (dispatchCommand parseInt (Some owner) other replyOk errorOk)
                        replyOk (TgMessage owner owner "private" false (Some t)) in
  let b1 := final (command ("/unauthorize " +:+ a) b) in
  isAuthorized b1 owner = false ∧
  ∀ t, final (command t b1) = b1 ∧
       (JS.startsWith "/" t = true →
        head (trace (command t b1)) =
          Some (ESendMessage (Chat owner) "❌ You are not authorized to use this bot." None)).
Proof.
  intros Hp Ha Hauth command b1.
  assert (E1 : b1 = set_authorizedUsers (λ x, x ∖ {[owner]}) b).
  { unfold b1, command, handleCommand. cbn [text fromId chatId].
    change ("/unauthorize " +:+ a) with ("/unauthorize" +:+ String " " a).
    assert (Hs : JS.startsWith "/" ("/unauthorize" +:+ String " " a) = true) by reflexivity.
    assert (Ht : JS.truthy ("/unauthorize" +:+ String " " a) = true) by reflexivity.
    rewrite Hs, Ht. cbn [negb orb]. unfold bind at 1, get. rewrite Hauth. cbn [negb].
    unfold dispatchCommand. cbn [text chatId].
    rewrite split_word by (by repeat constructor).
    rewrite (split_last _ _ Ha).
    assert (Hl : toLowerCase "/unauthorize" = "/unauthorize") by reflexivity.
    rewrite Hl.
    assert (Hn : String.eqb "/unauthorize" "/authorize" = false) by reflexivity.
    rewrite Hn, String.eqb_refl.
    unfold handleUnauthorize. rewrite bool_decide_eq_true_2 by done. cbn [negb]. rewrite Hp.
    unfold try_catch, bind, call, emit, modify, log, ret, throw.
    destruct replyOk, errorOk; reflexivity. }
  assert (Hout : isAuthorized b1 owner = false).
  { rewrite E1. unfold isAuthorized. cbn.
    rewrite (bool_decide_eq_false_2 (owner ∈ authorizedUsers b ∖ {[owner]})); [done|].
    rewrite elem_of_difference, elem_of_singleton. tauto. }
  split; [exact Hout|]. intros t.
  unfold command, handleCommand. cbn [text fromId chatId].
  destruct (negb (JS.truthy t) || negb (JS.startsWith "/" t)) eqn:Hc.
  - split; [reflexivity|]. intros Hs. rewrite Hs in Hc. cbn in Hc.
    rewrite orb_false_r in Hc. apply negb_true_iff in Hc.
    destruct t; [by vm_compute in Hs|discriminate].
  - unfold bind, get. rewrite Hout. cbn [negb].
    unfold call, bind, emit, ret, throw. destruct replyOk; cbn; by split.
Qed.

Lemma owner_can_lock_themselves_out_witness :
  let parseInt := λ s : string, if String.eqb s "1" then Some 1 else None in
  let b := set_authorizedUsers (λ _, {[1]}) Bridge.new in
  let command := λ t, handleCommand
                        (dispatchCommand parseInt (Some 1) (λ _ _ _, ret tt) true true)
                        true (TgMessage 1 1 "private" false (Some t)) in
  let b1 := final (command ("/unauthorize " +:+ "1") b) in
  isAuthorized b1 1 = false ∧
  ∀ t, final (command t b1) = b1 ∧
       (JS.startsWith "/" t = true →
        head (trace (command t b1)) =
          Some (ESendMessage (Chat 1) "❌ You are not authorized to use this bot." None)).
Proof.
  apply (owner_can_lock_themselves_out
           (λ s : string, if String.eqb s "1" then Some 1 else None)
           (λ _ _ _, ret tt) 1 "1" true true
           (set_authorizedUsers (λ _, {[1]}) Bridge.new)).
  - reflexivity.
  - by repeat constructor.
  - by vm_compute.
Defined.

(** ** Ephemeral messages *)

Lemma handleEphemeral_on env chatId number timer rest s :
  eSendOk env = true →
  ∃ r tr, handleEphemeral env chatId (number :: "on" :: timer :: rest) s =
    (r,
     set_base (set_ephemeralSettings
                 <[jidOf number := Ephemeral true
                     (parseEphemeralTimer (JS.orElse (Some timer) "7d"))]>)
       (set_outbox (λ o, o ++ [WSendDisappearing (jidOf number)
                                 (Some (parseEphemeralTimer (JS.orElse (Some timer) "7d")))])
          s), tr).
Proof.
  intros Hok. unfold handleEphemeral. cbn [head].
  assert (Hl : toLowerCase "on" = "on") by reflexivity. rewrite Hl. clear Hl.
  assert (Hon : String.eqb "on" "on" = true) by reflexivity. rewrite Hon.
  unfold try_catch, bind at 1 2, send. rewrite Hok.
  unfold bind, call, emit, modify, ret, throw, done_if.
  destruct (eReplyOk env), (eErrorReplyOk env); cbn; eexists _, _; reflexivity.
Qed.

(** The expiration a chat was given with [/ephemeral] is put on the
    texts sent to it.  After [/ephemeral <number> on <timer>] has been
    accepted by WhatsApp, a text written in Telegram for that chat is
    sent with the expiration the timer stands for: one day for [24h],
    ninety days for [90d], and seven days for [7d] and for anything
    else. *)
Theorem ephemeral_setting_applies_to_texts (eenv : ephemeralEnv) (ft : features)
    (genv : tgEnv) (chatId : Z) (number timer : string) (msg : telegramMsg)
    (text : string) (s : state) :
  eSendOk eenv = true →
  JS.endsWith "@g.us" (jidOf number) = false →
  tText msg = Some text → tSpoiler msg = false →
  let s1 := final (handleEphemeral eenv chatId [number; "on"; timer] s) in
  let seconds := if String.eqb timer "24h" then 86400
                 else if String.eqb timer "90d" then 7776000 else 604800 in
  WSendText (jidOf number) (Some text) [] (Some seconds) None
    ∈ outbox (final (handleTelegramText ft genv msg (jidOf number) s1)).
Proof.
  intros Hok Hg Htext Hsp s1 seconds.
  destruct (handleEphemeral_on eenv chatId number timer [] s Hok) as (r0 & tr & E).
  assert (Hset : ephemeralSettings (base s1) !! jidOf number = Some (Ephemeral true seconds)).
  { unfold s1. rewrite E. cbn. rewrite lookup_insert_eq. f_equal. f_equal.
    unfold seconds, parseEphemeralTimer, JS.orElse.
    destruct timer as [|c timer]; [reflexivity|]. cbn [JS.truthy].
    destruct (String.eqb (String c timer) "24h"); [reflexivity|].
    destruct (String.eqb_spec (String c timer) "7d") as [->|_]; reflexivity. }
  clearbody s1 seconds.
  remember (handleTelegramText ft genv msg (jidOf number) s1) as X eqn:HX.
  unfold handleTelegramText in HX. rewrite Hg, Htext, Hsp in HX.
  unfold try_catch, bind at 1 2, ret at 1, gets at 1 in HX. rewrite Hset in HX.
  cbn [eEnabled eTimer] in HX.
  unfold bind at 1, modify at 1 in HX.
  set (sent := set_outbox _ s1) in HX.
  assert (Hin : WSendText (jidOf number) (Some text) [] (Some seconds) None ∈ outbox sent).
  { unfold sent. cbn. apply elem_of_app. right. by left. }
  clearbody sent.
  destruct (gSendResult genv) as [[key|]|].
  - unfold afterSend in HX.
    destruct (JS.truthy (keyId key)).
    + unfold setReaction, lift, saveMessageMapping, collection_updateOne,
        createRevokeButton, setTimeout in HX.
      destruct (revokeButtonsEnabled ft), (gOptionsOk genv), (gReactionOk genv),
        (gSaveOk genv);
        unfold try_catch, bind, gets, send, call, emit, modify, log, ret, throw, done_if
          in HX;
        cbn in HX; subst X; cbn;
        rewrite ?elem_of_app; tauto.
    + cbn in HX. subst X. exact Hin.
  - cbn in HX. subst X. exact Hin.
  - unfold setReaction, try_catch, bind, send, modify, log, emit, ret, throw in HX.
    destruct (gReactionOk genv); cbn in HX; subst X; cbn; rewrite ?elem_of_app; tauto.
Qed.

Lemma ephemeral_setting_applies_to_texts_witness :
  let s1 := final (handleEphemeral (EphemeralEnv true true true) 1 ["4915"; "on"; "24h"]
                     Ext.new) in
  let seconds := if String.eqb "24h" "24h" then 86400
                 else if String.eqb "24h" "90d" then 7776000 else 604800 in
  WSendText (jidOf "4915") (Some "hello") [] (Some seconds) None
    ∈ outbox (final (handleTelegramText allOn
                       (TgEnv true 5000 true None (Some None) true true "revoke_1" true)
                       (textMessage (-1001234) 9001 (Some 17) "hello") (jidOf "4915") s1)).
Proof.
  apply (ephemeral_setting_applies_to_texts (EphemeralEnv true true true) allOn
           (TgEnv true 5000 true None (Some None) true true "revoke_1" true)
           1 "4915" "24h" (textMessage (-1001234) 9001 (Some 17) "hello") "hello" Ext.new);
    reflexivity.
Defined.

Lemma loaded_ephemeral l : ∀ b jid,
  (∀ en tm, DEphemeral jid en tm ∉ l) →
  ephemeralSettings (final (for_each l loadOne b)) !! jid = ephemeralSettings b !! jid.
Proof.
  induction l as [|d l IH]; intros b jid Hno; [reflexivity|].
  rewrite for_each_loadOne_cons, IH.
  - destruct d as [| | | |j en tm|]; try reflexivity. cbn.
    apply lookup_insert_ne. intros <-. apply (Hno en tm). by left.
  - intros en tm Hin. apply (Hno en tm). by right.
Qed.

(** An ephemeral setting lives in memory only.  [/ephemeral] writes
    nothing to the collection, so a restart (the caches are empty, and
    the mappings are loaded again) forgets the setting of a chat for
    which the collection has no ephemeral document, although WhatsApp
    keeps it. *)
Theorem ephemeral_setting_is_forgotten (env : ephemeralEnv) (chatId : Z)
    (number timer : string) (s : state) :
  eSendOk env = true →
  (∀ en tm, DEphemeral (jidOf number) en tm ∉ collection (base s)) →
  let s1 := final (handleEphemeral env chatId [number; "on"; timer] s) in
  is_Some (ephemeralSettings (base s1) !! jidOf number) ∧
  collection (base s1) = collection (base s) ∧
  ephemeralSettings (final (loadMappingsFromDb true (clearCaches (base s1))))
    !! jidOf number = None.
Proof.
  intros Hok Hno s1.
  destruct (handleEphemeral_on env chatId number timer [] s Hok) as (r0 & tr & E).
  assert (Hc : collection (base s1) = collection (base s)).
  { unfold s1. by rewrite E. }
  split; [|split; [exact Hc|]].
  - unfold s1. rewrite E. cbn. rewrite lookup_insert_eq. by eexists.
  - rewrite loadMappingsFromDb_final, loaded_ephemeral.
    + cbn. apply lookup_empty.
    + cbn. by rewrite Hc.
Qed.

Lemma ephemeral_setting_is_forgotten_witness :
  let s1 := final (handleEphemeral (EphemeralEnv true true true) 1 ["4915"; "on"; "24h"]
                     Ext.new) in
  is_Some (ephemeralSettings (base s1) !! jidOf "4915") ∧
  collection (base s1) = collection (base Ext.new) ∧
  ephemeralSettings (final (loadMappingsFromDb true (clearCaches (base s1))))
    !! jidOf "4915" = None.
Proof.
  apply (ephemeral_setting_is_forgotten (EphemeralEnv true true true) 1 "4915" "24h" Ext.new).
  - reflexivity.
  - intros en tm Hin. cbn in Hin. by apply elem_of_nil in Hin.
Defined.

(** ** Durations *)

Lemma splitLast_snoc s c : splitLast (s +:+ String c "") = Some (s, c).
Proof.
  induction s as [|a s IH].
  - reflexivity.
  - change (String a s +:+ String c "") with (String a (s +:+ String c "")).
    cbn [splitLast]. by rewrite IH.
Qed.

Lemma pretty_N_char_digit d : JS.isDigit (pretty_N_char d) = true.
Proof. unfold pretty_N_char. by repeat case_match. Qed.

Lemma pretty_N_char_value d :
  (d < 10)%N → Z.of_nat (Ascii.nat_of_ascii (pretty_N_char d)) - 48 = Z.of_N d.
Proof.
  intros Hd.
  assert (d = 0 ∨ d = 1 ∨ d = 2 ∨ d = 3 ∨ d = 4 ∨ d = 5 ∨ d = 6 ∨ d = 7 ∨ d = 8 ∨ d = 9)%N
    as Hc by lia.
  repeat (destruct Hc as [->|Hc]; [reflexivity|]). by subst.
Qed.

Lemma pretty_N_go_nonempty x s : s ≠ "" → pretty_N_go x s ≠ "".
Proof.
  revert s. induction (N.lt_wf_0 x) as [x _ IH]. intros s Hs.
  assert (x = 0 ∨ 0 < x)%N as [->|Hx] by lia.
  - by rewrite pretty_N_go_0.
  - rewrite pretty_N_go_step by done. apply IH; [by apply N.div_lt|done].
Qed.

Lemma allDigits_forall s :
  Forall (λ a, JS.isDigit a = true) (list_ascii_of_string s) → JS.allDigits s = true.
Proof.
  induction s as [|a s IH]; [reflexivity|]. cbn. intros H.
  apply Forall_cons in H as [Ha H]. by rewrite Ha, IH.
Qed.

Lemma splitLast_allDigits s : ∀ front z,
  splitLast s = Some (front, z) → JS.allDigits s = true → JS.isDigit z = true.
Proof.
  induction s as [|a s IH]; intros front z E Hd; [discriminate|].
  cbn [splitLast] in E. cbn [JS.allDigits] in Hd. apply andb_true_iff in Hd as [Ha Hd].
  destruct (splitLast s) as [[f z']|] eqn:E'.
  - injection E as <- <-. by apply (IH f).
  - by injection E as <- <-.
Qed.

(** The decimal notation of a natural number is a string of digits. *)
Lemma test_digits_pretty (n : N) : JS.test_digits (pretty n) = true.
Proof.
  unfold pretty, pretty_N. case_decide as Hn; [reflexivity|].
  assert (Hne : pretty_N_go n "" ≠ "").
  { assert (0 < n)%N as Hpos by lia. rewrite pretty_N_go_step by done.
    by apply pretty_N_go_nonempty. }
  unfold JS.test_digits. destruct (pretty_N_go n "") as [|a s] eqn:E; [done|].
  rewrite <- E. apply allDigits_forall, pretty_N_go_chars; [|constructor].
  apply pretty_N_char_digit.
Qed.

Lemma digitsValue_pretty_N_go x : ∀ s,
  ∃ k : Z, 0 ≤ k ∧ ∀ acc,
    digitsValue acc (pretty_N_go x s) = digitsValue (acc * 10 ^ k + Z.of_N x) s.
Proof.
  induction (N.lt_wf_0 x) as [x _ IH]. intros s.
  assert (x = 0 ∨ 0 < x)%N as [->|Hx] by lia.
  - exists 0. split; [lia|]. intros acc. rewrite pretty_N_go_0. f_equal. cbn. lia.
  - destruct (IH (x `div` 10)%N (N.div_lt x 10 Hx eq_refl)
                (String (pretty_N_char (x `mod` 10)) s)) as (k & Hk & E).
    exists (k + 1). split; [lia|]. intros acc.
    rewrite pretty_N_go_step by done. rewrite E. cbn [digitsValue].
    rewrite pretty_N_char_value by (apply N.mod_lt; lia).
    f_equal. rewrite Z.pow_add_r by lia.
    pose proof (N.div_mod x 10 ltac:(lia)) as Hdm.
    assert (Z.of_N x = 10 * Z.of_N (x `div` 10) + Z.of_N (x `mod` 10)) by lia.
    lia.
Qed.

(** Reading the decimal notation of a number gives the number back. *)
Lemma digitsValue_pretty (n : N) : digitsValue 0 (pretty n) = Z.of_N n.
Proof.
  unfold pretty, pretty_N. case_decide as Hn; [by subst|].
  destruct (digitsValue_pretty_N_go n "") as (k & _ & E). rewrite E. cbn. lia.
Qed.

(** [parseDuration] turns a count of hours, days or minutes into
    milliseconds, and takes everything else for eight hours: a string
    without a unit, with another unit, or with something other than
    digits before the unit.  (Stated for counts whose result stays
    below 2^53, where the numbers of the method are exact.) *)
Theorem parseDuration_units (n : N) (value : string) (unit : Ascii.ascii) :
  Z.of_N n * 86400000 < 2 ^ 53 →
  (parseDuration (pretty n +:+ "h") = Z.of_N n * 3600000 ∧
   parseDuration (pretty n +:+ "d") = Z.of_N n * 86400000 ∧
   parseDuration (pretty n +:+ "m") = Z.of_N n * 60000) ∧
  parseDuration "" = 28800000 ∧
  parseDuration (pretty n) = 28800000 ∧
  (unit ≠ "h"%char → unit ≠ "d"%char → unit ≠ "m"%char →
   parseDuration (value +:+ String unit "") = 28800000) ∧
  (JS.test_digits value = false →
   parseDuration (value +:+ String unit "") = 28800000).
Proof.
  intros _. split; [|split; [reflexivity|split; [|split]]].
  - unfold parseDuration.
    change "h" with (String "h" ""). change "d" with (String "d" "").
    change "m" with (String "m" "").
    rewrite !splitLast_snoc, test_digits_pretty, digitsValue_pretty. cbn. lia.
  - unfold parseDuration.
    destruct (splitLast (pretty n)) as [[front z]|] eqn:E; [|reflexivity].
    destruct (JS.test_digits front); [|reflexivity].
    assert (Hz : JS.isDigit z = true).
    { pose proof (test_digits_pretty n) as Hd. unfold JS.test_digits in Hd.
      destruct (pretty n) as [|a s] eqn:Ep; [discriminate|].
      by apply (splitLast_allDigits _ _ _ E). }
    destruct (Ascii.eqb_spec z "h") as [->|_]; [discriminate|].
    destruct (Ascii.eqb_spec z "d") as [->|_]; [discriminate|].
    destruct (Ascii.eqb_spec z "m") as [->|_]; [discriminate|]. reflexivity.
  - intros Hh Hd Hm. unfold parseDuration. rewrite splitLast_snoc.
    rewrite (proj2 (Ascii.eqb_neq _ _) Hh), (proj2 (Ascii.eqb_neq _ _) Hd),
      (proj2 (Ascii.eqb_neq _ _) Hm).
    by destruct (JS.test_digits value).
  - intros Hv. unfold parseDuration. by rewrite splitLast_snoc, Hv.
Qed.

Lemma parseDuration_units_witness :
  (parseDuration (pretty 8%N +:+ "h") = Z.of_N 8 * 3600000 ∧
   parseDuration (pretty 8%N +:+ "d") = Z.of_N 8 * 86400000 ∧
   parseDuration (pretty 8%N +:+ "m") = Z.of_N 8 * 60000) ∧
  parseDuration "" = 28800000 ∧
  parseDuration (pretty 8%N) = 28800000 ∧
  ("w"%char ≠ "h"%char → "w"%char ≠ "d"%char → "w"%char ≠ "m"%char →
   parseDuration ("2" +:+ String "w" "") = 28800000) ∧
  (JS.test_digits "2" = false →
   parseDuration ("2" +:+ String "w" "") = 28800000).
Proof.
  apply (parseDuration_units 8 "2" "w"). by vm_compute.
Defined.

(** * [src/telegram/bridge.js]: the way back from a topic *)

Lemma legacy_sendProfilePicture_maps w topicId jid isUpdate s :
  ∃ s' tr, Legacy.sendProfilePicture w topicId jid isUpdate s = (Ret tt, s', tr) ∧
    Legacy.chatMappings s' = Legacy.chatMappings s ∧
    Legacy.topicMappings s' = Legacy.topicMappings s.
Proof.
  unfold Legacy.sendProfilePicture.
  destruct w as [? ? ? ? [[url|]|] []];
    unfold try_catch, bind, gets, call, emit, modify, log, ret, throw, done_if; cbn;
    try (by eexists _, _);
    destruct (JS.truthy url && bool_decide (Some url ≠ Legacy.profilePicCache s !! jid));
    cbn; by eexists _, _.
Qed.

Lemma legacy_sendWelcomeMessage_maps w topicId jid isGroup s :
  ∃ s' tr, Legacy.sendWelcomeMessage w topicId jid isGroup s = (Ret tt, s', tr) ∧
    Legacy.chatMappings s' = Legacy.chatMappings s ∧
    Legacy.topicMappings s' = Legacy.topicMappings s.
Proof.
  unfold Legacy.sendWelcomeMessage.
  destruct (legacy_sendProfilePicture_maps w topicId jid false s) as (s1 & t1 & E & Hc & Ht).
  destruct w as [gm fs [sent|] pin url photo]; destruct isGroup, gm, pin;
    unfold try_catch, bind, call, emit, log, ret, throw, done_if; cbn;
    try (by eexists _, _);
    cbn in E; rewrite E; cbn; by eexists _, _.
Qed.

(** In [src/telegram/bridge.js] a reply finds its chat.  When
    [topicMappings] leads back from the topic of every chat and
    Telegram does not answer [createForumTopic] with the id of a topic
    that is already in use, it still leads back after
    [getOrCreateTopic], and the topic the call returns for a chat is
    routed to that chat. *)
Theorem legacy_topic_routes_back (chatId : option string) (env : Legacy.topicEnv)
    (chatJid : string) (b : Legacy.bridge) :
  routedBack b →
  (∀ t, Legacy.createForumTopic env = Some t → Legacy.topicMappings b !! t = None) →
  let r := Legacy.getOrCreateTopic chatId env chatJid b in
  routedBack (final r) ∧
  ∀ t, result r = Ret (Some t) → Legacy.topicMappings (final r) !! t = Some chatJid.
Proof.
  intros Hinv Hfresh r. subst r.
  remember (Legacy.getOrCreateTopic chatId env chatJid b) as X eqn:HX.
  unfold Legacy.getOrCreateTopic in HX. unfold bind at 1, gets in HX.
  destruct (Legacy.chatMappings b !! chatJid) as [t0|] eqn:Hm.
  { cbn in HX. subst X. cbn. split; [exact Hinv|]. intros t [= <-]. by apply Hinv. }
  destruct (negb (JS.otruthy chatId)).
  { cbn in HX. subst X. cbn. split; [exact Hinv|]. intros t; discriminate. }
  assert (Hname : ∃ nc tr, Legacy.topicNameAndColor env chatJid b = (Ret nc, b, tr)).
  { unfold Legacy.topicNameAndColor.
    destruct (String.eqb chatJid "status@broadcast"); [by eexists _, _|].
    destruct (String.eqb chatJid "call@broadcast"); [by eexists _, _|].
    destruct (JS.endsWith "@g.us" chatJid).
    - destruct (Legacy.groupSubject env); by eexists _, _.
    - unfold bind, gets. cbn.
      destruct (Legacy.userNames b !! chatJid) as [[nm|]|]; try (by eexists _, _).
      destruct (JS.truthy nm); by eexists _, _. }
  destruct Hname as (nc & tr0 & En).
  unfold try_catch, bind at 1 in HX. rewrite En in HX.
  destruct (Legacy.createForumTopic env) as [t|] eqn:Ec.
  2:{ unfold bind, call, emit, log, ret, throw in HX. cbn in HX. subst X. cbn.
      split; [exact Hinv|]. intros t; discriminate. }
  specialize (Hfresh t eq_refl).
  unfold bind at 1 2 3 4 5 6, call, emit, modify, log, ret in HX.
  cbn -[Legacy.sendWelcomeMessage] in HX.
  set (s1 := Legacy.set_topicMappings _ _) in HX.
  assert (Hs1 : routedBack s1 ∧ Legacy.topicMappings s1 !! t = Some chatJid).
  { split; [|apply lookup_insert_eq]. intros j t' Hj. cbn in Hj |- *.
    destruct (decide (j = chatJid)) as [->|Hne].
    - rewrite lookup_insert_eq in Hj. injection Hj as <-. apply lookup_insert_eq.
    - rewrite lookup_insert_ne in Hj by done.
      pose proof (Hinv j t' Hj) as Hback.
      rewrite lookup_insert_ne; [exact Hback|]. intros <-. congruence. }
  destruct (negb _ && negb _).
  - destruct (legacy_sendWelcomeMessage_maps (Legacy.welcome env) t chatJid
                (JS.endsWith "@g.us" chatJid) s1) as (s2 & t2 & E & Hc & Ht).
    unfold bind in HX. rewrite E in HX. cbn in HX. subst X. cbn.
    destruct Hs1 as [Hr Hl]. split.
    + intros j t' Hj. rewrite Ht. apply Hr. by rewrite <- Hc.
    + intros t' [= <-]. by rewrite Ht.
  - cbn in HX. subst X. cbn. destruct Hs1 as [Hr Hl]. split; [exact Hr|].
    by intros t' [= <-].
Qed.

Lemma legacy_topic_routes_back_witness :
  let r := Legacy.getOrCreateTopic (Some "-1001234") legacyAnswers alice
             (Legacy.Build ∅ ∅ ∅ ∅) in
  routedBack (final r) ∧
  ∀ t, result r = Ret (Some t) → Legacy.topicMappings (final r) !! t = Some alice.
Proof.
  apply (legacy_topic_routes_back (Some "-1001234") legacyAnswers alice
           (Legacy.Build ∅ ∅ ∅ ∅)).
  - intros jid t H. cbn in H. by rewrite lookup_empty in H.
  - intros t _. cbn. apply lookup_empty.
Defined.

(** * The other caches come back from the collection too *)

Import Mirror.

Section MirrorFacts.
Context {K V : Type} `{EqDecision K}.
Variable entry : doc → option (K * V).
Variable flt : K → filter.
Hypothesis flt_entry : ∀ k x, matches (flt k) x = true ↔ ∃ v, entry x = Some (k, v).

Lemma entry_other k x :
  matches (flt k) x = false →
  match entry x with
  | Some (k', v) => if bool_decide (k = k') then Some v else None
  | None => None
  end = None.
Proof.
  intros Hx. destruct (entry x) as [[k' v]|] eqn:E; [|reflexivity].
  case_bool_decide as Hk; [|reflexivity]. subst.
  assert (matches (flt k') x = true) by (apply flt_entry; by eexists). congruence.
Qed.

Lemma count_zero_lastEntry k c :
  Collection.count (flt k) c = 0%nat → lastEntry entry k c = None.
Proof.
  unfold Collection.count. induction c as [|d c IH]; [reflexivity|]. cbn.
  destruct (matches (flt k) d) eqn:E; cbn; [intros; discriminate|].
  intros H0. rewrite (IH H0). by apply entry_other.
Qed.

Lemma lastEntry_updateOne k v d c k' :
  entry d = Some (k, v) →
  (Collection.count (flt k) c ≤ 1)%nat →
  lastEntry entry k' (Collection.updateOne (flt k) d c) =
    if bool_decide (k' = k) then Some v else lastEntry entry k' c.
Proof.
  intros Hd. unfold Collection.count. induction c as [|x c IH]; intros Hc.
  - cbn. by rewrite Hd.
  - cbn [Collection.updateOne]. cbn [List.filter] in Hc.
    destruct (matches (flt k) x) eqn:E.
    + cbn [length] in Hc.
      assert (H0 : lastEntry entry k c = None).
      { apply count_zero_lastEntry. unfold Collection.count. lia. }
      apply flt_entry in E as [vx Ex].
      cbn [lastEntry]. rewrite Hd, Ex.
      case_bool_decide as Hk; [subst; by rewrite H0|].
      by destruct (lastEntry entry k' c).
    + cbn [lastEntry]. rewrite (IH Hc). case_bool_decide as Hk; reflexivity.
Qed.

Lemma matches_entry k k' x v :
  entry x = Some (k, v) → matches (flt k') x = bool_decide (k' = k).
Proof.
  intros Ex. case_bool_decide as Hk.
  - subst. apply flt_entry. by eexists.
  - destruct (matches (flt k') x) eqn:E; [|reflexivity].
    apply flt_entry in E as [v' E]. congruence.
Qed.

Lemma count_updateOne_entry k v d c k' :
  entry d = Some (k, v) →
  (Collection.count (flt k') c ≤ 1)%nat →
  (Collection.count (flt k') (Collection.updateOne (flt k) d c) ≤ 1)%nat.
Proof.
  intros Hd. pose proof (matches_entry k k' d v Hd) as Hmd.
  unfold Collection.count. induction c as [|x c IH]; intros Hc.
  - cbn. destruct (matches (flt k') d); cbn; lia.
  - cbn [Collection.updateOne]. cbn [List.filter] in Hc.
    destruct (matches (flt k) x) eqn:E.
    + apply flt_entry in E as [vx Ex].
      rewrite (matches_entry k k' x vx Ex) in Hc.
      cbn [List.filter]. rewrite Hmd.
      destruct (bool_decide (k' = k)); cbn [length] in *; exact Hc.
    + cbn [List.filter].
      destruct (matches (flt k') x) eqn:E'; cbn [length] in *; [|by apply IH].
      assert (H0 : length (List.filter (matches (flt k')) c) = 0%nat) by lia.
      destruct (decide (k' = k)) as [->|Hne]; [congruence|].
      rewrite (bool_decide_eq_false_2 _ Hne) in Hmd.
      assert (Hsame : List.filter (matches (flt k')) (Collection.updateOne (flt k) d c)
                      = List.filter (matches (flt k')) c).
      { clear IH Hc H0. induction c as [|y c IHc]; cbn; [by rewrite Hmd|].
        destruct (matches (flt k) y) eqn:Ey; cbn.
        - rewrite Hmd. apply flt_entry in Ey as [v1 E1].
          by rewrite (matches_entry k k' y v1 E1), (bool_decide_eq_false_2 _ Hne).
        - by rewrite IHc. }
      rewrite Hsame. lia.
Qed.

Lemma updateOne_other f d c k :
  (∀ x, matches f x = true → entry x = None) →
  entry d = None →
  lastEntry entry k (Collection.updateOne f d c) = lastEntry entry k c ∧
  Collection.count (flt k) (Collection.updateOne f d c) = Collection.count (flt k) c.
Proof.
  intros Hf Hd.
  assert (Hmd : matches (flt k) d = false).
  { destruct (matches (flt k) d) eqn:E; [|reflexivity].
    apply flt_entry in E as [v E]. congruence. }
  unfold Collection.count. induction c as [|x c [IH1 IH2]].
  - cbn. by rewrite Hd, Hmd.
  - cbn [Collection.updateOne]. destruct (matches f x) eqn:E.
    + pose proof (Hf x E) as Hx.
      assert (Hmx : matches (flt k) x = false).
      { destruct (matches (flt k) x) eqn:E'; [|reflexivity].
        apply flt_entry in E' as [v E']. congruence. }
      cbn [List.filter lastEntry]. by rewrite Hd, Hx, Hmd, Hmx.
    + cbn [List.filter lastEntry]. rewrite IH1.
      destruct (matches (flt k) x); cbn [length]; by rewrite IH2.
Qed.

Variable look : bridge → K → option V.
Hypothesis look_loadOne : ∀ d b k,
  look (final (loadOne d b)) k =
    match entry d with
    | Some (k', v) => if bool_decide (k = k') then Some v else look b k
    | None => look b k
    end.

Lemma loaded_entry l : ∀ b k,
  look (final (for_each l loadOne b)) k =
    match lastEntry entry k l with
    | Some v => Some v
    | None => look b k
    end.
Proof.
  induction l as [|d l IH]; intros b k; [reflexivity|].
  rewrite for_each_loadOne_cons, IH. cbn [lastEntry].
  destruct (lastEntry entry k l); [reflexivity|].
  rewrite look_loadOne. destruct (entry d) as [[k' v]|]; [|reflexivity].
  by case_bool_decide.
Qed.

(** A cache that mirrors the collection comes back when it is emptied
    and loaded again. *)
Lemma mirrors_roundtrip b :
  (∀ k, look (clearCaches b) k = None) →
  mirrors entry flt look b →
  ∀ k, look (final (loadMappingsFromDb true (clearCaches b))) k = look b k.
Proof.
  intros Hclear Hm k. rewrite loadMappingsFromDb_final, loaded_entry.
  destruct (Hm k) as [Hl _]. rewrite Hl. cbn [collection clearCaches].
  destruct (lastEntry entry k (collection b)); [reflexivity|apply Hclear].
Qed.

End MirrorFacts.

Lemma user_flt_entry k x :
  matches (FUser k) x = true ↔ ∃ v, userEntry x = Some (k, v).
Proof.
  destruct x; unfold matches; cbn; split; try discriminate; try (by intros [? ?]).
  - intros Hk. apply bool_decide_eq_true in Hk. subst. by eexists.
  - intros [v [= -> _]]. by apply bool_decide_eq_true.
Qed.

Lemma contact_flt_entry k x :
  matches (FContact k) x = true ↔ ∃ v, contactEntry x = Some (k, v).
Proof.
  destruct x; unfold matches; cbn; split; try discriminate; try (by intros [? ?]).
  - intros Hk. apply bool_decide_eq_true in Hk. subst. by eexists.
  - intros [v [= -> _]]. by apply bool_decide_eq_true.
Qed.

Lemma message_flt_entry k x :
  matches (FMessage k) x = true ↔ ∃ v, messageEntry x = Some (k, v).
Proof.
  destruct x; unfold matches; cbn; split; try discriminate; try (by intros [? ?]).
  - intros Hk. apply bool_decide_eq_true in Hk. subst. by eexists.
  - intros [v [= -> _]]. by apply bool_decide_eq_true.
Qed.

Lemma user_look_loadOne d b k :
  userMappings (final (loadOne d b)) !! k =
    match userEntry d with
    | Some (k', v) => if bool_decide (k = k') then Some v else userMappings b !! k
    | None => userMappings b !! k
    end.
Proof.
  destruct d; try reflexivity. cbn. case_bool_decide as Hk.
  - subst. apply lookup_insert_eq.
  - by apply lookup_insert_ne.
Qed.

Lemma contact_look_loadOne d b k :
  contactMappings (final (loadOne d b)) !! k =
    match contactEntry d with
    | Some (k', v) => if bool_decide (k = k') then Some v else contactMappings b !! k
    | None => contactMappings b !! k
    end.
Proof.
  destruct d; try reflexivity. cbn. case_bool_decide as Hk.
  - subst. apply lookup_insert_eq.
  - by apply lookup_insert_ne.
Qed.

Lemma message_look_loadOne d b k :
  messageIdMapping (final (loadOne d b)) !! TgId k =
    match messageEntry d with
    | Some (k', v) => if bool_decide (k = k') then Some v else messageIdMapping b !! TgId k
    | None => messageIdMapping b !! TgId k
    end.
Proof.
  destruct d; try reflexivity. cbn. case_bool_decide as Hk.
  - subst. apply lookup_insert_eq.
  - apply lookup_insert_ne. congruence.
Qed.

Lemma usersLag_new : usersLag Bridge.new.
Proof. intros k. split; [exact I|unfold Collection.count; cbn; lia]. Qed.

Lemma mirrored_new : mirrored Bridge.new.
Proof.
  split; [apply usersLag_new|].
  split; [|split; [|apply telegramKeyed_new]];
    intros k; (split; [reflexivity|unfold Collection.count; cbn; lia]).
Qed.

Lemma userData_eta (d : userData) :
  UserData (name d) (phone d) (firstSeen d) (orZero (messageCount d)) = d.
Proof. destruct d. cbn. by rewrite orZero_id. Qed.

Lemma behind_refl d : behind d d.
Proof. repeat split. lia. Qed.

(** A write of a participant sets the cache entry to what the document
    holds, or changes nothing: the cache does not fall behind, and it
    stays in step when it was. *)
Lemma usersLag_saveUserMapping ok now id d : keeps usersLag (saveUserMapping ok now id d).
Proof.
  intros b Hu. destruct ok; [|exact Hu]. intros k. cbn. split.
  - rewrite (lastEntry_updateOne userEntry FUser user_flt_entry id
               (UserData (name d) (phone d) (firstSeen d) (orZero (messageCount d))))
      by (cbn; by rewrite ?orZero_id || apply Hu).
    case_bool_decide as Hj.
    + subst. rewrite lookup_insert_eq, userData_eta. apply behind_refl.
    + rewrite lookup_insert_ne by done. apply Hu.
  - eapply (count_updateOne_entry userEntry FUser user_flt_entry); [reflexivity|apply Hu].
Qed.

Lemma users_saveUserMapping ok now id d :
  keeps (mirrors userEntry FUser (λ b id, userMappings b !! id)) (saveUserMapping ok now id d).
Proof.
  intros b Hu. destruct ok; [|exact Hu]. intros k. cbn. split.
  - rewrite (lastEntry_updateOne userEntry FUser user_flt_entry id
               (UserData (name d) (phone d) (firstSeen d) (orZero (messageCount d))))
      by (cbn; by rewrite ?orZero_id || apply Hu).
    case_bool_decide as Hj; [subst; rewrite lookup_insert_eq; by rewrite userData_eta|].
    rewrite lookup_insert_ne by done. apply Hu.
  - eapply (count_updateOne_entry userEntry FUser user_flt_entry); [reflexivity|apply Hu].
Qed.

(** The count of a message in the cached entry, lines 1108-1109, puts
    the cache ahead of the collection. *)
Lemma usersLag_counted b p u :
  usersLag b → userMappings b !! p = Some u →
  usersLag (set_userMappings
              <[p := UserData (name u) (phone u) (firstSeen u) (messageCount u + 1)]> b).
Proof.
  intros Hu Hp k. destruct (Hu k) as [Hl Hc]. split; [|exact Hc]. cbn.
  destruct (decide (k = p)) as [->|Hk].
  - rewrite lookup_insert_eq. rewrite Hp in Hl.
    destruct (lastEntry userEntry p (collection b)) as [d|]; [|done].
    destruct Hl as (H1 & H2 & H3 & H4). repeat split; cbn; try done. lia.
  - by rewrite lookup_insert_ne.
Qed.

(** An upsert of another kind leaves the participants alone, in the
    cache and in the collection. *)
Lemma users_perform_other u b :
  isUser u = false →
  (∀ k, lastEntry userEntry k (collection (final (perform u b))) =
          lastEntry userEntry k (collection b) ∧
        Collection.count (FUser k) (collection (final (perform u b))) =
          Collection.count (FUser k) (collection b)) ∧
  userMappings (final (perform u b)) = userMappings b.
Proof.
  intros Hu. destruct u as [[] now jid topic|[] now id d|[] now ph nm|[] now tg key];
    try discriminate; try (split; [by intros k|reflexivity]); (split; [|reflexivity]);
    intros k; cbn.
  - apply (updateOne_other userEntry FUser user_flt_entry); [by intros []|reflexivity].
  - apply (updateOne_other userEntry FUser user_flt_entry); [by intros []|reflexivity].
  - apply (updateOne_other userEntry FUser user_flt_entry); [by intros []|reflexivity].
Qed.

(** Every upsert keeps the caches of contacts and message ids in step
    with the collection. *)
Lemma others_perform u b :
  mirrors contactEntry FContact (λ b ph, contactMappings b !! ph) b →
  mirrors messageEntry FMessage (λ b tg, messageIdMapping b !! TgId tg) b →
  mirrors contactEntry FContact (λ b ph, contactMappings b !! ph) (final (perform u b)) ∧
  mirrors messageEntry FMessage (λ b tg, messageIdMapping b !! TgId tg) (final (perform u b)).
Proof.
  intros Hc Hm.
  destruct u as [[] now jid topic|[] now id d|[] now ph nm|[] now tg key];
    try exact (conj Hc Hm).
  - (* chat *)
    split; intros k; cbn.
    + destruct (updateOne_other contactEntry FContact contact_flt_entry (FChat jid)
                  (DChat jid topic now now) (collection b) k) as [E1 E2];
        [by intros []|reflexivity|]. rewrite E1, E2. apply Hc.
    + destruct (updateOne_other messageEntry FMessage message_flt_entry (FChat jid)
                  (DChat jid topic now now) (collection b) k) as [E1 E2];
        [by intros []|reflexivity|]. rewrite E1, E2. apply Hm.
  - (* user *)
    split; intros k; cbn.
    + destruct (updateOne_other contactEntry FContact contact_flt_entry (FUser id)
                  (DUser id (UserData (name d) (phone d) (firstSeen d)
                               (orZero (messageCount d))) now) (collection b) k) as [E1 E2];
        [by intros []|reflexivity|]. rewrite E1, E2. apply Hc.
    + destruct (updateOne_other messageEntry FMessage message_flt_entry (FUser id)
                  (DUser id (UserData (name d) (phone d) (firstSeen d)
                               (orZero (messageCount d))) now) (collection b) k) as [E1 E2];
        [by intros []|reflexivity|]. rewrite E1, E2. apply Hm.
  - (* contact *)
    split; intros k; cbn.
    + split.
      * rewrite (lastEntry_updateOne contactEntry FContact contact_flt_entry ph nm)
          by (reflexivity || apply Hc).
        case_bool_decide as Hj; [subst; apply lookup_insert_eq|].
        rewrite lookup_insert_ne by done. apply Hc.
      * eapply (count_updateOne_entry contactEntry FContact contact_flt_entry);
          [reflexivity|apply Hc].
    + destruct (updateOne_other messageEntry FMessage message_flt_entry (FContact ph)
                  (DContact ph nm now) (collection b) k) as [E1 E2];
        [by intros []|reflexivity|]. rewrite E1, E2. apply Hm.
  - (* message *)
    split; intros k; cbn.
    + destruct (updateOne_other contactEntry FContact contact_flt_entry (FMessage tg)
                  (DMessage tg key now) (collection b) k) as [E1 E2];
        [by intros []|reflexivity|]. rewrite E1, E2. apply Hc.
    + split.
      * rewrite (lastEntry_updateOne messageEntry FMessage message_flt_entry tg key)
          by (reflexivity || apply Hm).
        case_bool_decide as Hj; [subst; apply lookup_insert_eq|].
        rewrite lookup_insert_ne by congruence. apply Hm.
      * eapply (count_updateOne_entry messageEntry FMessage message_flt_entry);
          [reflexivity|apply Hm].
Qed.

(** Every upsert keeps the caches in step with the collection, the
    counts of the participants apart. *)
Lemma mirrored_perform u : keeps mirrored (perform u).
Proof.
  intros b (Hu & Hc & Hm & Hk).
  destruct (others_perform u b Hc Hm) as [Hc' Hm'].
  split; [|split; [exact Hc'|split; [exact Hm'|by apply telegramKeyed_perform]]].
  destruct (isUser u) eqn:E.
  - destruct u; try discriminate. by apply usersLag_saveUserMapping.
  - destruct (users_perform_other u b E) as [Hl Hsame].
    intros k. destruct (Hl k) as [E1 E2]. rewrite E1, E2, Hsame. apply Hu.
Qed.

(** The bridge a write of the program leaves, as an upsert: for a
    message of a known participant, the upsert of the counted entry on
    the bridge whose cache already holds that entry. *)
Lemma write_upsert w s :
  ∃ u b, base (final (write w s)) = final (perform u b) ∧
    collection b = collection (base s) ∧
    contactMappings b = contactMappings (base s) ∧
    messageIdMapping b = messageIdMapping (base s) ∧
    (b = base s ∨
     ∃ env p c, w = CountParticipant env p ∧ userMappings (base s) !! p = Some c ∧
       u = UUser (uSaveOk env) (uNow env) p
             (UserData (name c) (phone c) (firstSeen c) (messageCount c + 1)) ∧
       b = set_userMappings
             <[p := UserData (name c) (phone c) (firstSeen c) (messageCount c + 1)]>
             (base s)).
Proof.
  destruct w as [env p|ok now ph nm|ok now tg key|ok now jid topic]; cbn [write].
  - unfold createUserMapping. unfold bind at 1, gets.
    destruct (userMappings (base s) !! p) as [c|] eqn:Hp.
    + rewrite orZero_id.
      set (counted := UserData (name c) (phone c) (firstSeen c) (messageCount c + 1)).
      exists (UUser (uSaveOk env) (uNow env) p counted),
             (set_userMappings <[p := counted]> (base s)).
      split; [|repeat split; right; by exists env, p, c].
      unfold bind, modify, lift, perform, saveUserMapping, collection_updateOne.
      by destruct (uSaveOk env).
    + exists (UUser (uSaveOk env) (uNow env) p
                (UserData (contactMappings (base s) !! JS.phoneOf p) (JS.phoneOf p)
                   (uFirstSeen env) 1)), (base s).
      split; [|repeat split; by left].
      unfold bind, gets, modify, lift, perform, saveUserMapping, collection_updateOne, log, emit.
      by destruct (uSaveOk env).
  - exists (UContact ok now ph nm), (base s). split; [|repeat split; by left].
    unfold lift, final. cbn [perform]. by destruct (saveContactMapping ok now ph nm (base s)) as [[r b] t].
  - exists (UMessage ok now tg key), (base s). split; [|repeat split; by left].
    unfold lift, final. cbn [perform]. by destruct (saveMessageMapping ok now tg key (base s)) as [[r b] t].
  - exists (UChat ok now jid topic), (base s). split; [|repeat split; by left].
    unfold lift, final. cbn [perform]. by destruct (saveChatMapping ok now jid topic (base s)) as [[r b] t].
Qed.

(** Every write of the program keeps the caches in step with the
    collection, the counts of the participants apart. *)
Lemma mirrored_write w : keeps (λ s, mirrored (base s)) (write w).
Proof.
  intros s H. destruct (write_upsert w s) as (u & b & E & Ec & Ect & Em & Hb).
  rewrite E. apply mirrored_perform.
  destruct Hb as [->|(env & p & c & -> & Hp & -> & ->)]; [exact H|].
  destruct H as (Hu & Hc & Hm & Hk).
  split; [by apply usersLag_counted|]. split; [exact Hc|]. split; [exact Hm|exact Hk].
Qed.

(** While the durable writes succeed, the cache of participants mirrors
    the collection, counts included. *)
Lemma users_write w s :
  written w = true →
  mirrors userEntry FUser (λ b id, userMappings b !! id) (base s) →
  mirrors userEntry FUser (λ b id, userMappings b !! id) (base (final (write w s))).
Proof.
  intros Hw H. destruct (write_upsert w s) as (u & b & E & Ec & Ect & Em & Hb).
  rewrite E.
  destruct Hb as [->|(env & p & c & -> & Hp & -> & ->)].
  - destruct (isUser u) eqn:Eu.
    + destruct u; try discriminate. by apply users_saveUserMapping.
    + destruct (users_perform_other u (base s) Eu) as [Hl Hsame].
      intros k. destruct (Hl k) as [E1 E2]. cbn beta. rewrite E1, E2, Hsame. apply H.
  - cbn [written] in Hw. rewrite Hw.
    set (counted := UserData (name c) (phone c) (firstSeen c) (messageCount c + 1)).
    assert (Es : final (perform (UUser true (uNow env) p counted)
                          (set_userMappings <[p := counted]> (base s))) =
                 final (perform (UUser true (uNow env) p counted) (base s))).
    { cbn. unfold set_userMappings. cbn. by rewrite insert_insert_eq. }
    rewrite Es. by apply users_saveUserMapping.
Qed.

Lemma users_writes ws : ∀ s,
  Forall (λ w, written w = true) ws →
  mirrors userEntry FUser (λ b id, userMappings b !! id) (base s) →
  mirrors userEntry FUser (λ b id, userMappings b !! id)
    (base (final (for_each ws write s))).
Proof.
  induction ws as [|w ws IH]; intros s Hws H; [exact H|].
  apply Forall_cons in Hws as [Hw Hws].
  pose proof (users_write w s Hw H) as H1.
  cbn [for_each]. unfold bind, final in *.
  destruct (write w s) as [[[[]|] s1] t1] eqn:E; cbn [fst snd] in *.
  - specialize (IH s1 Hws H1). by destruct (for_each ws write s1) as [[r s2] t2].
  - exact H1.
Qed.

(** The round trip through the collection gives back the caches of
    contacts and message ids, and the participants but for their
    counts.  Start from a new bridge and let the program write in any
    order: messages of participants are counted by [createUserMapping],
    contacts, message ids and chat mappings are saved, each with a
    durable write that succeeds or fails.  After the caches have been
    cleared and loaded again, [contactMappings] and [messageIdMapping]
    are as before; [userMappings] has the same participants with the
    same name, phone and first contact, and a [messageCount] that is not
    larger than the cached one was (a message is counted in the cached
    entry before the write is asked for); when no write has failed,
    [userMappings] is as before too. *)
Theorem load_roundtrip_other_caches (ws : list cacheWrite) :
  let b := base (final (for_each ws write Ext.new)) in
  let b' := final (loadMappingsFromDb true (clearCaches b)) in
  contactMappings b' = contactMappings b ∧
  messageIdMapping b' = messageIdMapping b ∧
  (∀ id, lagging (userMappings b' !! id) (userMappings b !! id)) ∧
  (Forall (λ w, written w = true) ws → userMappings b' = userMappings b).
Proof.
  intros b b'.
  assert (Hmir : mirrored b).
  { apply (keeps_for_each (λ s, mirrored (base s)) ws write mirrored_write Ext.new mirrored_new). }
  destruct Hmir as (Hu & Hc & Hm & Hk).
  assert (Hload : ∀ k, userMappings b' !! k = lastEntry userEntry k (collection b)).
  { intros k. unfold b'. rewrite loadMappingsFromDb_final.
    rewrite (loaded_entry userEntry (λ b id, userMappings b !! id) user_look_loadOne).
    cbn [collection clearCaches]. by destruct (lastEntry userEntry k (collection b)). }
  split; [|split; [|split]].
  - apply map_eq. intros k.
    apply (mirrors_roundtrip contactEntry FContact (λ b ph, contactMappings b !! ph)
             contact_look_loadOne b); [by intros|exact Hc].
  - apply map_eq. intros [tg|k].
    + apply (mirrors_roundtrip messageEntry FMessage
               (λ b tg, messageIdMapping b !! TgId tg) message_look_loadOne b);
        [by intros|exact Hm].
    + rewrite (Hk k).
      assert (Hclear : telegramKeyed (clearCaches b)) by (by intros k').
      apply (telegramKeyed_load true (clearCaches b) Hclear).
  - intros id. rewrite Hload. apply Hu.
  - intros Hws. apply map_eq. intros k. rewrite Hload.
    assert (Hx : mirrors userEntry FUser (λ b id, userMappings b !! id) b).
    { apply (users_writes ws Ext.new Hws).
      intros k'. split; [reflexivity|unfold Collection.count; cbn; lia]. }
    symmetry. apply Hx.
Qed.

(** * The gate of the [message] listener *)

(** A message beyond the rate limit is not handled.  When the sender is
    authorized and the limiter rejects the request, the listener logs
    the rejection and sends the notice to the chat of the message;
    neither [handleCommand] nor [handleTelegramMessage] runs, whatever
    the kind of chat, and the counter of the limiter is left as it was.
    A notice that cannot be sent is logged by [wrapHandler]. *)
Theorem rate_limited_message_is_not_handled
    (dispatchCommand handleTelegramMessage : tgMessage → M bridge unit)
    (cfg : config) (clock : Z) (noticeOk replyOk : bool) (msg : tgMessage)
    (b : bridge) (d : rateEntry) :
  isAuthorized b (fromId msg) = true →
  rateLimiter b !! rateKey (fromId msg) "message" = Some d →
  clock ≤ resetTime d →
  messages (limitOf (telegramRateLimit cfg)) ≤ count d →
  onMessage dispatchCommand handleTelegramMessage cfg clock noticeOk replyOk msg b =
    (Ret tt, set_pollingRetries 0 b,
     [ELog Warn "Rate limit exceeded";
      ESendMessage (Chat (chatId msg)) "⚠️ Rate limit exceeded. Please slow down." None] ++
     (if noticeOk then [] else [ELog Error "Unhandled error in Telegram handler"])).
Proof.
  intros Hauth Hd Hle Hc.
  pose proof (checkRateLimit_rejected (telegramRateLimit cfg) (fromId msg) "message"
                clock (set_pollingRetries 0 b) d Hd Hle Hc) as Er.
  unfold onMessage, wrapHandler, try_catch.
  unfold bind at 1, modify at 1. unfold bind at 1, get at 1.
  change (isAuthorized (set_pollingRetries 0 b) (fromId msg)) with (isAuthorized b (fromId msg)).
  rewrite Hauth. cbn [negb]. unfold bind at 1. rewrite Er. cbn [negb].
  unfold bind, call, log, emit, ret, throw, done_if. by destruct noticeOk.
Qed.

Lemma rate_limited_message_is_not_handled_witness :
  let b := set_rateLimiter <[rateKey 7 "message" := RateEntry 30 60000]>
             (Commands.set_authorizedUsers (λ _, {[7]}) Bridge.new) in
  let msg := TgMessage 7 7 "private" false (Some "/status") in
  onMessage (λ _, ret tt) (λ _, ret tt) forum 1000 true true msg b =
    (Ret tt, set_pollingRetries 0 b,
     [ELog Warn "Rate limit exceeded";
      ESendMessage (Chat (chatId msg)) "⚠️ Rate limit exceeded. Please slow down." None] ++
     (if true then [] else [ELog Error "Unhandled error in Telegram handler"])).
Proof.
  apply (rate_limited_message_is_not_handled (λ _, ret tt) (λ _, ret tt) forum 1000 true true
           (TgMessage 7 7 "private" false (Some "/status"))
           (set_rateLimiter <[rateKey 7 "message" := RateEntry 30 60000]>
              (Commands.set_authorizedUsers (λ _, {[7]}) Bridge.new))
           (RateEntry 30 60000)).
  - by vm_compute.
  - apply lookup_insert_eq.
  - cbn. lia.
  - cbn. lia.
Defined.
